(** * Policy-Compare: extraction, normalization and conflict detection

    A shallow embedding of the deterministic core of the bank-policy
    comparator:

    - [app/services/normalization_service.py]  (module [NormalizationService])
    - [app/services/table_parser.py]           (module [TableParser])
    - [app/services/rule_based_extraction.py]  (module [RuleBasedExtraction])
    - [app/services/smart_extraction_service.py] (module [SmartExtraction])
    - [app/services/document_ingestion.py]     (module [DocumentIngestion])
    - [app/models/document.py]                 (module [Document])

    Python values are modelled as follows.  A [str] is the list of its code
    points ([PyStr.pystr]); a [float] is an IEEE 754 binary64 number
    ([SpecFloat.spec_float] at precision 53); an [int] is a [Z]; [None] is
    [option]'s [None]; a raised exception is the [Raise] constructor of
    [Py.result]; an insertion-ordered [dict] is an association list in
    insertion order.  Regular expressions are kept as the pattern strings of
    the source, parsed and run by the backtracking matcher of module [Re]. *)

From Stdlib Require Import List NArith ZArith Bool Lia String Ascii.
From Stdlib Require Import SpecFloat.
Import ListNotations.

(* ================================================================== *)
(** ** Python results: a value or a raised exception                   *)
(* ================================================================== *)

Module Py.

Inductive exn : Type :=
| ValueError
| TypeError
| AttributeError
| ValidationError.

Inductive result (A : Type) : Type :=
| Ok (a : A)
| Raise (e : exn).

Arguments Ok {A} a.
Arguments Raise {A} e.

Definition bind {A B : Type} (r : result A) (f : A -> result B) : result B :=
  match r with
  | Ok a => f a
  | Raise e => Raise e
  end.

Definition of_option {A : Type} (e : exn) (o : option A) : result A :=
  match o with
  | Some a => Ok a
  | None => Raise e
  end.

End Py.

(* ================================================================== *)
(** ** Strings as lists of code points                                 *)
(* ================================================================== *)

Module PyStr.

Open Scope N_scope.

Definition pystr := list N.

(** Source text is written as an UTF-8 string literal and decoded to code
    points: [need] continuation bytes are still expected for the code point
    whose leading bits are in [acc]. *)
Fixpoint utf8 (s : string) (need : nat) (acc : N) : pystr :=
  match s with
  | EmptyString => []
  | String a rest =>
      let b := N_of_ascii a in
      match need with
      | O =>
          if b <? 128 then b :: utf8 rest 0 0
          else if b <? 224 then utf8 rest 1 (b - 192)
          else if b <? 240 then utf8 rest 2 (b - 224)
          else utf8 rest 3 (b - 240)
      | S O => (acc * 64 + (b - 128)) :: utf8 rest 0 0
      | S n => utf8 rest n (acc * 64 + (b - 128))
      end
  end.

Definition str (s : string) : pystr := utf8 s 0 0.

Fixpoint eqb (a b : pystr) : bool :=
  match a, b with
  | [], [] => true
  | x :: a', y :: b' => (x =? y) && eqb a' b'
  | _, _ => false
  end.

Definition in_range (c lo hi : N) : bool := (lo <=? c) && (c <=? hi).

(** [str.isspace] for one code point; also the class [\s] of [re]. *)
Definition isspace (c : N) : bool :=
  in_range c 9 13 || in_range c 28 32 || (c =? 133) || (c =? 160)
  || (c =? 5760) || in_range c 8192 8202 || in_range c 8232 8233
  || (c =? 8239) || (c =? 8287) || (c =? 12288).

(** The zero digits of the Unicode decimal-digit blocks (category Nd,
    Unicode 14): the ten digits of a block are consecutive. *)
Definition decimal_zeros : list N :=
  [ 48; 1632; 1776; 1984; 2406; 2534; 2662; 2790; 2918; 3046; 3174; 3302; 3430; 3558; 3664; 3792;
    3872; 4160; 4240; 6112; 6160; 6470; 6608; 6784; 6800; 6992; 7088; 7232; 7248; 42528; 43216;
    43264; 43472; 43504; 43600; 44016; 65296; 66720; 68912; 69734; 69872; 69942; 70096; 70384;
    70736; 70864; 71248; 71360; 71472; 71904; 72016; 72784; 73040; 73120; 92768; 92864; 93008;
    120782; 120792; 120802; 120812; 120822; 123200; 123632; 125264; 130032 ].

(** The decimal value of a digit code point: what [\d] accepts and what
    [int] and [float] read. *)
Definition decimal_value (c : N) : option N :=
  match find (fun z => in_range c z (z + 9)) decimal_zeros with
  | Some z => Some (c - z)
  | None => None
  end.

Definition isdecimal (c : N) : bool :=
  match decimal_value c with Some _ => true | None => false end.

(** [str.lower], one code point at a time.  Exact on ASCII and on the two
    code points outside ASCII whose lower case contains an ASCII letter
    (U+0130 and the Kelvin sign U+212A); other code points are kept, where
    Python maps a cased letter outside ASCII to another letter outside
    ASCII. *)
Definition lower_char (c : N) : pystr :=
  if in_range c 65 90 then [c + 32]
  else if c =? 304 then [105; 775]
  else if c =? 8490 then [107]
  else [c].

Definition lower (s : pystr) : pystr := flat_map lower_char s.

(** [str.upper], one code point at a time: exact on ASCII and on the code
    points outside ASCII whose upper case contains an ASCII letter; other
    code points are kept. *)
Definition upper_char (c : N) : pystr :=
  if in_range c 97 122 then [c - 32]
  else if c =? 223 then [83; 83]
  else if c =? 305 then [73]
  else if c =? 329 then [700; 78]
  else if c =? 383 then [83]
  else if c =? 496 then [74; 780]
  else if c =? 7830 then [72; 817]
  else if c =? 7831 then [84; 776]
  else if c =? 7832 then [87; 778]
  else if c =? 7833 then [89; 778]
  else if c =? 7834 then [65; 702]
  else if c =? 64256 then [70; 70]
  else if c =? 64257 then [70; 73]
  else if c =? 64258 then [70; 76]
  else if c =? 64259 then [70; 70; 73]
  else if c =? 64260 then [70; 70; 76]
  else if c =? 64261 then [83; 84]
  else if c =? 64262 then [83; 84]
  else [c].

Definition upper (s : pystr) : pystr := flat_map upper_char s.

(** [str.capitalize]: first code point in upper (title) case, the rest in
    lower case. *)
Definition capitalize (s : pystr) : pystr :=
  match s with
  | [] => []
  | c :: rest => upper_char c ++ lower rest
  end.

Definition is_cased (c : N) : bool := in_range c 65 90 || in_range c 97 122.

(** [str.title]: a cased letter that follows an uncased code point is put
    in upper case, one that follows a cased letter in lower case. *)
Fixpoint title_from (prev_cased : bool) (s : pystr) : pystr :=
  match s with
  | [] => []
  | c :: rest =>
      (if prev_cased then lower_char c else upper_char c)
        ++ title_from (is_cased c) rest
  end.

Definition title (s : pystr) : pystr := title_from false s.

(** [prefix p s]: [s] starts with [p]; the remainder is returned. *)
Fixpoint strip_prefix (p s : pystr) : option pystr :=
  match p, s with
  | [], _ => Some s
  | _ :: _, [] => None
  | a :: p', b :: s' => if a =? b then strip_prefix p' s' else None
  end.

Definition startswith (s p : pystr) : bool :=
  match strip_prefix p s with Some _ => true | None => false end.

(** [sub in s]: the substring test of Python's [in] operator on [str]. *)
Fixpoint contains (s sub : pystr) : bool :=
  startswith s sub
  || match s with
     | [] => false
     | _ :: s' => contains s' sub
     end.

Definition endswith (s p : pystr) : bool := startswith (rev s) (rev p).

(** [s.replace(old, new)] for a non-empty [old]: occurrences are found left
    to right and do not overlap.  [fuel] bounds the scan by the length of
    [s]. *)
Fixpoint replace_from (fuel : nat) (old new s : pystr) : pystr :=
  match fuel with
  | O => s
  | S fuel' =>
      match s with
      | [] => []
      | c :: s' =>
          match strip_prefix old s with
          | Some rest => new ++ replace_from fuel' old new rest
          | None => c :: replace_from fuel' old new s'
          end
      end
  end.

(** [s.replace(old, new)]; with an empty [old] Python puts [new] before
    every code point and at the end. *)
Definition replace (s old new : pystr) : pystr :=
  match old with
  | [] => flat_map (fun c => new ++ [c]) s ++ new
  | _ :: _ => replace_from (List.length s) old new s
  end.

(** [s.split(sep, 1)] as the pair (head, tail) when [sep] occurs. *)
Fixpoint split_once (sep s : pystr) : option (pystr * pystr) :=
  match strip_prefix sep s with
  | Some rest => Some ([], rest)
  | None =>
      match s with
      | [] => None
      | c :: s' =>
          match split_once sep s' with
          | Some (h, t) => Some (c :: h, t)
          | None => None
          end
      end
  end.

(** [s.split(sep)] for a non-empty [sep]. *)
Fixpoint split_from (fuel : nat) (sep s : pystr) : list pystr :=
  match fuel with
  | O => [s]
  | S fuel' =>
      match split_once sep s with
      | Some (h, t) => h :: split_from fuel' sep t
      | None => [s]
      end
  end.

Definition split (s sep : pystr) : list pystr :=
  split_from (List.length s) sep s.

(** [sep.join(parts)]. *)
Fixpoint join (sep : pystr) (parts : list pystr) : pystr :=
  match parts with
  | [] => []
  | [p] => p
  | p :: rest => p ++ sep ++ join sep rest
  end.

Fixpoint lstrip_by (f : N -> bool) (s : pystr) : pystr :=
  match s with
  | [] => []
  | c :: s' => if f c then lstrip_by f s' else s
  end.

Definition strip_by (f : N -> bool) (s : pystr) : pystr :=
  rev (lstrip_by f (rev (lstrip_by f s))).

(** [s.strip()]. *)
Definition strip (s : pystr) : pystr := strip_by isspace s.

(** [s.strip(chars)]. *)
Definition strip_chars (chars s : pystr) : pystr :=
  strip_by (fun c => existsb (N.eqb c) chars) s.

(** [s[i:j]] for [0 <= i] and [0 <= j]. *)
Definition slice (s : pystr) (i j : nat) : pystr :=
  firstn (j - i) (skipn i s).

(** Decimal digits of a natural number, most significant first. *)
Fixpoint digits_from (fuel : nat) (n : N) (acc : pystr) : pystr :=
  match fuel with
  | O => acc
  | S fuel' =>
      let acc' := (48 + n mod 10) :: acc in
      if n <? 10 then acc' else digits_from fuel' (n / 10) acc'
  end.

Definition of_N (n : N) : pystr := digits_from (S (N.to_nat (N.log2 n))) n [].

Definition of_nat (n : nat) : pystr := of_N (N.of_nat n).

(** [str(z)] for an [int]. *)
Definition of_Z (z : Z) : pystr :=
  match z with
  | Zneg p => 45 :: of_N (Npos p)
  | _ => of_N (Z.to_N z)
  end.

End PyStr.

(* ================================================================== *)
(** ** Regular expressions: Python's [re] on [str] patterns            *)
(* ================================================================== *)

Module Re.

Import PyStr.
Open Scope N_scope.

(** The code-point ranges of the class [\w] (alphanumeric code points and
    the underscore, Unicode 14). *)
Definition word_ranges : list (N * N) :=
  [ (48, 57); (65, 90); (95, 95); (97, 122); (170, 170); (178, 179); (181, 181); (185, 186); (188,
    190); (192, 214); (216, 246); (248, 705); (710, 721); (736, 740); (748, 748); (750, 750); (880,
    884); (886, 887); (890, 893); (895, 895); (902, 902); (904, 906); (908, 908); (910, 929); (931,
    1013); (1015, 1153); (1162, 1327); (1329, 1366); (1369, 1369); (1376, 1416); (1488, 1514);
    (1519, 1522); (1568, 1610); (1632, 1641); (1646, 1647); (1649, 1747); (1749, 1749); (1765,
    1766); (1774, 1788); (1791, 1791); (1808, 1808); (1810, 1839); (1869, 1957); (1969, 1969);
    (1984, 2026); (2036, 2037); (2042, 2042); (2048, 2069); (2074, 2074); (2084, 2084); (2088,
    2088); (2112, 2136); (2144, 2154); (2160, 2183); (2185, 2190); (2208, 2249); (2308, 2361);
    (2365, 2365); (2384, 2384); (2392, 2401); (2406, 2415); (2417, 2432); (2437, 2444); (2447,
    2448); (2451, 2472); (2474, 2480); (2482, 2482); (2486, 2489); (2493, 2493); (2510, 2510);
    (2524, 2525); (2527, 2529); (2534, 2545); (2548, 2553); (2556, 2556); (2565, 2570); (2575,
    2576); (2579, 2600); (2602, 2608); (2610, 2611); (2613, 2614); (2616, 2617); (2649, 2652);
    (2654, 2654); (2662, 2671); (2674, 2676); (2693, 2701); (2703, 2705); (2707, 2728); (2730,
    2736); (2738, 2739); (2741, 2745); (2749, 2749); (2768, 2768); (2784, 2785); (2790, 2799);
    (2809, 2809); (2821, 2828); (2831, 2832); (2835, 2856); (2858, 2864); (2866, 2867); (2869,
    2873); (2877, 2877); (2908, 2909); (2911, 2913); (2918, 2927); (2929, 2935); (2947, 2947);
    (2949, 2954); (2958, 2960); (2962, 2965); (2969, 2970); (2972, 2972); (2974, 2975); (2979,
    2980); (2984, 2986); (2990, 3001); (3024, 3024); (3046, 3058); (3077, 3084); (3086, 3088);
    (3090, 3112); (3114, 3129); (3133, 3133); (3160, 3162); (3165, 3165); (3168, 3169); (3174,
    3183); (3192, 3198); (3200, 3200); (3205, 3212); (3214, 3216); (3218, 3240); (3242, 3251);
    (3253, 3257); (3261, 3261); (3293, 3294); (3296, 3297); (3302, 3311); (3313, 3314); (3332,
    3340); (3342, 3344); (3346, 3386); (3389, 3389); (3406, 3406); (3412, 3414); (3416, 3425);
    (3430, 3448); (3450, 3455); (3461, 3478); (3482, 3505); (3507, 3515); (3517, 3517); (3520,
    3526); (3558, 3567); (3585, 3632); (3634, 3635); (3648, 3654); (3664, 3673); (3713, 3714);
    (3716, 3716); (3718, 3722); (3724, 3747); (3749, 3749); (3751, 3760); (3762, 3763); (3773,
    3773); (3776, 3780); (3782, 3782); (3792, 3801); (3804, 3807); (3840, 3840); (3872, 3891);
    (3904, 3911); (3913, 3948); (3976, 3980); (4096, 4138); (4159, 4169); (4176, 4181); (4186,
    4189); (4193, 4193); (4197, 4198); (4206, 4208); (4213, 4225); (4238, 4238); (4240, 4249);
    (4256, 4293); (4295, 4295); (4301, 4301); (4304, 4346); (4348, 4680); (4682, 4685); (4688,
    4694); (4696, 4696); (4698, 4701); (4704, 4744); (4746, 4749); (4752, 4784); (4786, 4789);
    (4792, 4798); (4800, 4800); (4802, 4805); (4808, 4822); (4824, 4880); (4882, 4885); (4888,
    4954); (4969, 4988); (4992, 5007); (5024, 5109); (5112, 5117); (5121, 5740); (5743, 5759);
    (5761, 5786); (5792, 5866); (5870, 5880); (5888, 5905); (5919, 5937); (5952, 5969); (5984,
    5996); (5998, 6000); (6016, 6067); (6103, 6103); (6108, 6108); (6112, 6121); (6128, 6137);
    (6160, 6169); (6176, 6264); (6272, 6276); (6279, 6312); (6314, 6314); (6320, 6389); (6400,
    6430); (6470, 6509); (6512, 6516); (6528, 6571); (6576, 6601); (6608, 6618); (6656, 6678);
    (6688, 6740); (6784, 6793); (6800, 6809); (6823, 6823); (6917, 6963); (6981, 6988); (6992,
    7001); (7043, 7072); (7086, 7141); (7168, 7203); (7232, 7241); (7245, 7293); (7296, 7304);
    (7312, 7354); (7357, 7359); (7401, 7404); (7406, 7411); (7413, 7414); (7418, 7418); (7424,
    7615); (7680, 7957); (7960, 7965); (7968, 8005); (8008, 8013); (8016, 8023); (8025, 8025);
    (8027, 8027); (8029, 8029); (8031, 8061); (8064, 8116); (8118, 8124); (8126, 8126); (8130,
    8132); (8134, 8140); (8144, 8147); (8150, 8155); (8160, 8172); (8178, 8180); (8182, 8188);
    (8304, 8305); (8308, 8313); (8319, 8329); (8336, 8348); (8450, 8450); (8455, 8455); (8458,
    8467); (8469, 8469); (8473, 8477); (8484, 8484); (8486, 8486); (8488, 8488); (8490, 8493);
    (8495, 8505); (8508, 8511); (8517, 8521); (8526, 8526); (8528, 8585); (9312, 9371); (9450,
    9471); (10102, 10131); (11264, 11492); (11499, 11502); (11506, 11507); (11517, 11517); (11520,
    11557); (11559, 11559); (11565, 11565); (11568, 11623); (11631, 11631); (11648, 11670); (11680,
    11686); (11688, 11694); (11696, 11702); (11704, 11710); (11712, 11718); (11720, 11726); (11728,
    11734); (11736, 11742); (11823, 11823); (12293, 12295); (12321, 12329); (12337, 12341); (12344,
    12348); (12353, 12438); (12445, 12447); (12449, 12538); (12540, 12543); (12549, 12591); (12593,
    12686); (12690, 12693); (12704, 12735); (12784, 12799); (12832, 12841); (12872, 12879); (12881,
    12895); (12928, 12937); (12977, 12991); (13312, 19903); (19968, 42124); (42192, 42237); (42240,
    42508); (42512, 42539); (42560, 42606); (42623, 42653); (42656, 42735); (42775, 42783); (42786,
    42888); (42891, 42954); (42960, 42961); (42963, 42963); (42965, 42969); (42994, 43009); (43011,
    43013); (43015, 43018); (43020, 43042); (43056, 43061); (43072, 43123); (43138, 43187); (43216,
    43225); (43250, 43255); (43259, 43259); (43261, 43262); (43264, 43301); (43312, 43334); (43360,
    43388); (43396, 43442); (43471, 43481); (43488, 43492); (43494, 43518); (43520, 43560); (43584,
    43586); (43588, 43595); (43600, 43609); (43616, 43638); (43642, 43642); (43646, 43695); (43697,
    43697); (43701, 43702); (43705, 43709); (43712, 43712); (43714, 43714); (43739, 43741); (43744,
    43754); (43762, 43764); (43777, 43782); (43785, 43790); (43793, 43798); (43808, 43814); (43816,
    43822); (43824, 43866); (43868, 43881); (43888, 44002); (44016, 44025); (44032, 55203); (55216,
    55238); (55243, 55291); (63744, 64109); (64112, 64217); (64256, 64262); (64275, 64279); (64285,
    64285); (64287, 64296); (64298, 64310); (64312, 64316); (64318, 64318); (64320, 64321); (64323,
    64324); (64326, 64433); (64467, 64829); (64848, 64911); (64914, 64967); (65008, 65019); (65136,
    65140); (65142, 65276); (65296, 65305); (65313, 65338); (65345, 65370); (65382, 65470); (65474,
    65479); (65482, 65487); (65490, 65495); (65498, 65500); (65536, 65547); (65549, 65574); (65576,
    65594); (65596, 65597); (65599, 65613); (65616, 65629); (65664, 65786); (65799, 65843); (65856,
    65912); (65930, 65931); (66176, 66204); (66208, 66256); (66273, 66299); (66304, 66339); (66349,
    66378); (66384, 66421); (66432, 66461); (66464, 66499); (66504, 66511); (66513, 66517); (66560,
    66717); (66720, 66729); (66736, 66771); (66776, 66811); (66816, 66855); (66864, 66915); (66928,
    66938); (66940, 66954); (66956, 66962); (66964, 66965); (66967, 66977); (66979, 66993); (66995,
    67001); (67003, 67004); (67072, 67382); (67392, 67413); (67424, 67431); (67456, 67461); (67463,
    67504); (67506, 67514); (67584, 67589); (67592, 67592); (67594, 67637); (67639, 67640); (67644,
    67644); (67647, 67669); (67672, 67702); (67705, 67742); (67751, 67759); (67808, 67826); (67828,
    67829); (67835, 67867); (67872, 67897); (67968, 68023); (68028, 68047); (68050, 68096); (68112,
    68115); (68117, 68119); (68121, 68149); (68160, 68168); (68192, 68222); (68224, 68255); (68288,
    68295); (68297, 68324); (68331, 68335); (68352, 68405); (68416, 68437); (68440, 68466); (68472,
    68497); (68521, 68527); (68608, 68680); (68736, 68786); (68800, 68850); (68858, 68899); (68912,
    68921); (69216, 69246); (69248, 69289); (69296, 69297); (69376, 69415); (69424, 69445); (69457,
    69460); (69488, 69505); (69552, 69579); (69600, 69622); (69635, 69687); (69714, 69743); (69745,
    69746); (69749, 69749); (69763, 69807); (69840, 69864); (69872, 69881); (69891, 69926); (69942,
    69951); (69956, 69956); (69959, 69959); (69968, 70002); (70006, 70006); (70019, 70066); (70081,
    70084); (70096, 70106); (70108, 70108); (70113, 70132); (70144, 70161); (70163, 70187); (70272,
    70278); (70280, 70280); (70282, 70285); (70287, 70301); (70303, 70312); (70320, 70366); (70384,
    70393); (70405, 70412); (70415, 70416); (70419, 70440); (70442, 70448); (70450, 70451); (70453,
    70457); (70461, 70461); (70480, 70480); (70493, 70497); (70656, 70708); (70727, 70730); (70736,
    70745); (70751, 70753); (70784, 70831); (70852, 70853); (70855, 70855); (70864, 70873); (71040,
    71086); (71128, 71131); (71168, 71215); (71236, 71236); (71248, 71257); (71296, 71338); (71352,
    71352); (71360, 71369); (71424, 71450); (71472, 71483); (71488, 71494); (71680, 71723); (71840,
    71922); (71935, 71942); (71945, 71945); (71948, 71955); (71957, 71958); (71960, 71983); (71999,
    71999); (72001, 72001); (72016, 72025); (72096, 72103); (72106, 72144); (72161, 72161); (72163,
    72163); (72192, 72192); (72203, 72242); (72250, 72250); (72272, 72272); (72284, 72329); (72349,
    72349); (72368, 72440); (72704, 72712); (72714, 72750); (72768, 72768); (72784, 72812); (72818,
    72847); (72960, 72966); (72968, 72969); (72971, 73008); (73030, 73030); (73040, 73049); (73056,
    73061); (73063, 73064); (73066, 73097); (73112, 73112); (73120, 73129); (73440, 73458); (73648,
    73648); (73664, 73684); (73728, 74649); (74752, 74862); (74880, 75075); (77712, 77808); (77824,
    78894); (82944, 83526); (92160, 92728); (92736, 92766); (92768, 92777); (92784, 92862); (92864,
    92873); (92880, 92909); (92928, 92975); (92992, 92995); (93008, 93017); (93019, 93025); (93027,
    93047); (93053, 93071); (93760, 93846); (93952, 94026); (94032, 94032); (94099, 94111); (94176,
    94177); (94179, 94179); (94208, 100343); (100352, 101589); (101632, 101640); (110576, 110579);
    (110581, 110587); (110589, 110590); (110592, 110882); (110928, 110930); (110948, 110951);
    (110960, 111355); (113664, 113770); (113776, 113788); (113792, 113800); (113808, 113817);
    (119520, 119539); (119648, 119672); (119808, 119892); (119894, 119964); (119966, 119967);
    (119970, 119970); (119973, 119974); (119977, 119980); (119982, 119993); (119995, 119995);
    (119997, 120003); (120005, 120069); (120071, 120074); (120077, 120084); (120086, 120092);
    (120094, 120121); (120123, 120126); (120128, 120132); (120134, 120134); (120138, 120144);
    (120146, 120485); (120488, 120512); (120514, 120538); (120540, 120570); (120572, 120596);
    (120598, 120628); (120630, 120654); (120656, 120686); (120688, 120712); (120714, 120744);
    (120746, 120770); (120772, 120779); (120782, 120831); (122624, 122654); (123136, 123180);
    (123191, 123197); (123200, 123209); (123214, 123214); (123536, 123565); (123584, 123627);
    (123632, 123641); (124896, 124902); (124904, 124907); (124909, 124910); (124912, 124926);
    (124928, 125124); (125127, 125135); (125184, 125251); (125259, 125259); (125264, 125273);
    (126065, 126123); (126125, 126127); (126129, 126132); (126209, 126253); (126255, 126269);
    (126464, 126467); (126469, 126495); (126497, 126498); (126500, 126500); (126503, 126503);
    (126505, 126514); (126516, 126519); (126521, 126521); (126523, 126523); (126530, 126530);
    (126535, 126535); (126537, 126537); (126539, 126539); (126541, 126543); (126545, 126546);
    (126548, 126548); (126551, 126551); (126553, 126553); (126555, 126555); (126557, 126557);
    (126559, 126559); (126561, 126562); (126564, 126564); (126567, 126570); (126572, 126578);
    (126580, 126583); (126585, 126588); (126590, 126590); (126592, 126601); (126603, 126619);
    (126625, 126627); (126629, 126633); (126635, 126651); (127232, 127244); (130032, 130041);
    (131072, 173791); (173824, 177976); (177984, 178205); (178208, 183969); (183984, 191456);
    (194560, 195101); (196608, 201546) ].

Definition isword (c : N) : bool :=
  existsb (fun r => in_range c (fst r) (snd r)) word_ranges.

(** A member of a bracketed character set. *)
Inductive item : Type :=
| IChar (c : N)
| IRange (lo hi : N)
| IDigit
| ISpace
| IWord.

Inductive re : Type :=
| Eps
| Chr (c : N)
| Any
| CharSet (negated : bool) (items : list item)
| Bol
| Eol
| WordBoundary
| Cat (a b : re)
| Alt (a b : re)
| Rep (lo : nat) (hi : option nat) (greedy : bool) (a : re)
| Grp (i : nat) (a : re).

(** Case folding of [re.IGNORECASE] for patterns written with ASCII
    letters: besides the two ASCII cases, the engine lets [i] match U+0130
    and U+0131, [s] match U+017F and [k] match the Kelvin sign U+212A. *)
Definition fold_case (c : N) : N :=
  if in_range c 65 90 then c + 32
  else if (c =? 304) || (c =? 305) then 105
  else if c =? 383 then 115
  else if c =? 8490 then 107
  else c.

Definition ascii_upper (c : N) : N :=
  if in_range c 97 122 then c - 32 else c.

Definition char_eq (ic : bool) (p x : N) : bool :=
  if ic then fold_case p =? fold_case x else p =? x.

Definition item_match (ic : bool) (x : N) (it : item) : bool :=
  match it with
  | IChar c => char_eq ic c x
  | IRange lo hi =>
      in_range x lo hi
      || (ic && (in_range (fold_case x) lo hi
                 || in_range (ascii_upper (fold_case x)) lo hi))
  | IDigit => isdecimal x
  | ISpace => isspace x
  | IWord => isword x
  end.

Definition set_match (ic negated : bool) (items : list item) (x : N) : bool :=
  xorb negated (existsb (item_match ic x) items).

(** The matcher's position in the subject: [pos] code points consumed,
    [prev] the code point before the position, [rest] what is left. *)
Record state : Type := mkState { pos : nat; prev : option N; rest : pystr }.

(** Capture groups recorded so far, the latest first: group number and
    the (start, end) span. *)
Definition caps : Type := list (nat * (nat * nat)).

Definition outcome : Type := option (state * caps).

Definition step (st : state) : option (N * state) :=
  match rest st with
  | [] => None
  | x :: xs => Some (x, mkState (S (pos st)) (Some x) xs)
  end.

Definition opt_word (o : option N) : bool :=
  match o with Some c => isword c | None => false end.

Definition at_boundary (st : state) : bool :=
  xorb (opt_word (prev st)) (opt_word (hd_error (rest st))).

Definition consume (f : N -> bool) (k : state -> caps -> outcome)
    (st : state) (cs : caps) : outcome :=
  match step st with
  | Some (x, st') => if f x then k st' cs else None
  | None => None
  end.

Definition or_else (a : outcome) (b : unit -> outcome) : outcome :=
  match a with
  | Some o => Some o
  | None => b tt
  end.

Definition below (count : nat) (hi : option nat) : bool :=
  match hi with
  | Some h => Nat.ltb count h
  | None => true
  end.

(** The loop of a repeat.  [body k] matches one iteration and goes on with
    [k]; [count] iterations are done.  A greedy repeat tries one more
    iteration before it stops, a lazy one stops first; an iteration beyond
    the minimum has to consume input. *)
Fixpoint rep_loop (body : (state -> caps -> outcome) -> state -> caps -> outcome)
    (lo : nat) (hi : option nat) (greedy : bool)
    (k : state -> caps -> outcome) (fuel count : nat)
    (st : state) (cs : caps) {struct fuel} : outcome :=
  match fuel with
  | O => None
  | S fuel' =>
      let more (_ : unit) :=
        if below count hi then
          body
            (fun st' cs' =>
               if Nat.ltb (pos st) (pos st') || Nat.ltb count lo
               then rep_loop body lo hi greedy k fuel' (S count) st' cs'
               else None)
            st cs
        else None in
      let stop (_ : unit) :=
        if Nat.leb lo count then k st cs else None in
      if greedy then or_else (more tt) stop
      else or_else (stop tt) more
  end.

(** Backtracking matcher in continuation-passing style: [run ic r k st cs]
    matches [r] at [st] and hands the position after it to [k]; the first
    success in the engine's priority order is returned (the left
    alternative first). *)
Fixpoint run (ic : bool) (r : re) (k : state -> caps -> outcome)
    (st : state) (cs : caps) {struct r} : outcome :=
  match r with
  | Eps => k st cs
  | Chr c => consume (char_eq ic c) k st cs
  | Any => consume (fun x => negb (x =? 10)) k st cs
  | CharSet negated items => consume (set_match ic negated items) k st cs
  | Bol => if Nat.eqb (pos st) 0 then k st cs else None
  | Eol =>
      match rest st with
      | [] => k st cs
      | [10] => k st cs
      | _ => None
      end
  | WordBoundary => if at_boundary st then k st cs else None
  | Cat a b => run ic a (fun st' cs' => run ic b k st' cs') st cs
  | Alt a b => or_else (run ic a k st cs) (fun _ => run ic b k st cs)
  | Grp i a =>
      run ic a (fun st' cs' => k st' ((i, (pos st, pos st')) :: cs')) st cs
  | Rep lo hi greedy a =>
      rep_loop (run ic a) lo hi greedy k
        (List.length (rest st) + lo + 1)%nat O st cs
  end.

Definition accept (st : state) (cs : caps) : outcome := Some (st, cs).

(** A match object: where the match starts, the position after it, and
    the groups that took part. *)
Record match_obj : Type :=
  mkMatch { m_start : nat; m_stop : state; m_caps : caps }.

Definition m_end (m : match_obj) : nat := pos (m_stop m).

(** A compiled pattern: the expression, the number of groups, the named
    groups and the IGNORECASE flag. *)
Record pattern : Type :=
  mkPattern { p_re : re; p_groups : nat; p_names : list (pystr * nat);
              p_icase : bool }.

Definition match_here (p : pattern) (st : state) : option match_obj :=
  match run (p_icase p) (p_re p) accept st [] with
  | Some (st', cs) => Some (mkMatch (pos st) st' cs)
  | None => None
  end.

(** [pattern.search] from position [n] with [s] left: the leftmost
    position where the pattern matches. *)
Fixpoint search_at (p : pattern) (n : nat) (pv : option N) (s : pystr)
    {struct s} : option match_obj :=
  match match_here p (mkState n pv s) with
  | Some m => Some m
  | None =>
      match s with
      | [] => None
      | x :: s' => search_at p (S n) (Some x) s'
      end
  end.

(** [re.search(p, s)] / [p.search(s)]. *)
Definition search (p : pattern) (s : pystr) : option match_obj :=
  search_at p O None s.

(** [re.match(p, s)]: a match that starts at the first code point. *)
Definition match_ (p : pattern) (s : pystr) : option match_obj :=
  match_here p (mkState O None s).

(** Where the scan goes on after a match: after the match, or one code
    point further when the match was empty. *)
Definition resume (m : match_obj) : option state :=
  if Nat.ltb (m_start m) (m_end m) then Some (m_stop m)
  else match step (m_stop m) with
       | Some (_, st) => Some st
       | None => None
       end.

(** [p.finditer(s)]: the successive matches, left to right, not
    overlapping. *)
Fixpoint finditer_at (fuel : nat) (p : pattern) (st : state)
    : list match_obj :=
  match fuel with
  | O => []
  | S fuel' =>
      match search_at p (pos st) (prev st) (rest st) with
      | None => []
      | Some m =>
          m :: match resume m with
               | Some st' => finditer_at fuel' p st'
               | None => []
               end
      end
  end.

Definition finditer (p : pattern) (s : pystr) : list match_obj :=
  finditer_at (S (List.length s)) p (mkState O None s).

(** [m.group(0)]. *)
Definition group0 (s : pystr) (m : match_obj) : pystr :=
  slice s (m_start m) (m_end m).

Fixpoint cap_lookup (i : nat) (cs : caps) : option (nat * nat) :=
  match cs with
  | [] => None
  | (j, span) :: cs' => if Nat.eqb i j then Some span else cap_lookup i cs'
  end.

(** [m.group(i)] for [i >= 1]: [None] when the group took no part. *)
Definition group (s : pystr) (m : match_obj) (i : nat) : option pystr :=
  match cap_lookup i (m_caps m) with
  | Some (a, b) => Some (slice s a b)
  | None => None
  end.

Fixpoint name_lookup (name : pystr) (names : list (pystr * nat))
    : option nat :=
  match names with
  | [] => None
  | (n, i) :: rest => if PyStr.eqb n name then Some i else name_lookup name rest
  end.

(** [name in m.groupdict()]. *)
Definition has_group (p : pattern) (name : pystr) : bool :=
  match name_lookup name (p_names p) with Some _ => true | None => false end.

(** [m.group(name)] for a name of the pattern. *)
Definition group_named (p : pattern) (s : pystr) (m : match_obj)
    (name : pystr) : option pystr :=
  match name_lookup name (p_names p) with
  | Some i => group s m i
  | None => None
  end.

(** [p.findall(s)] for a pattern without groups: the matched texts. *)
Definition findall (p : pattern) (s : pystr) : list pystr :=
  map (group0 s) (finditer p s).

(** [p.sub(repl, s)] for a replacement text without group references. *)
Fixpoint sub_at (fuel : nat) (p : pattern) (repl : pystr) (st : state)
    : pystr :=
  match fuel with
  | O => rest st
  | S fuel' =>
      match search_at p (pos st) (prev st) (rest st) with
      | None => rest st
      | Some m =>
          firstn (m_start m - pos st) (rest st) ++ repl
          ++ (if Nat.ltb (m_start m) (m_end m)
              then sub_at fuel' p repl (m_stop m)
              else match step (m_stop m) with
                   | Some (x, st') => x :: sub_at fuel' p repl st'
                   | None => []
                   end)
      end
  end.

Definition sub (p : pattern) (repl s : pystr) : pystr :=
  sub_at (S (List.length s)) p repl (mkState O None s).

End Re.

(* ================================================================== *)
(** ** Reading a pattern string ([re.compile])                         *)
(* ================================================================== *)

Module ReParse.

Import PyStr Re.
Open Scope N_scope.

(** An escape inside a bracketed set: a class or the escaped code point. *)
Definition escape_item (c : N) : item :=
  if c =? 100 then IDigit
  else if c =? 115 then ISpace
  else if c =? 119 then IWord
  else if c =? 110 then IChar 10
  else if c =? 114 then IChar 13
  else if c =? 116 then IChar 9
  else IChar c.

(** The members of a set, up to the closing bracket.  [a-b] is a range; a
    hyphen that is first, last or escaped stands for itself. *)
Fixpoint parse_items (s : pystr) (acc : list item)
    : option (list item * pystr) :=
  match s with
  | [] => None
  | 93 :: rest => Some (rev acc, rest)
  | 92 :: c :: rest => parse_items rest (escape_item c :: acc)
  | c :: tl =>
      match tl with
      | 45 :: d :: rest =>
          if (d =? 93) || (d =? 92) then parse_items tl (IChar c :: acc)
          else parse_items rest (IRange c d :: acc)
      | _ => parse_items tl (IChar c :: acc)
      end
  end.

Definition parse_set (s : pystr) : option (re * pystr) :=
  match s with
  | 94 :: s' =>
      match parse_items s' [] with
      | Some (items, rest) => Some (CharSet true items, rest)
      | None => None
      end
  | _ =>
      match parse_items s [] with
      | Some (items, rest) => Some (CharSet false items, rest)
      | None => None
      end
  end.

(** An escape outside a set. *)
Definition escape_re (c : N) : re :=
  if c =? 100 then CharSet false [IDigit]
  else if c =? 115 then CharSet false [ISpace]
  else if c =? 119 then CharSet false [IWord]
  else if c =? 98 then WordBoundary
  else if c =? 110 then Chr 10
  else if c =? 114 then Chr 13
  else if c =? 116 then Chr 9
  else Chr c.

Fixpoint read_nat (s : pystr) (acc : nat) : nat * pystr :=
  match s with
  | c :: s' =>
      if in_range c 48 57
      then read_nat s' (acc * 10 + N.to_nat (c - 48))%nat
      else (acc, s)
  | [] => (acc, s)
  end.

(** The bounds of a counted repeat, read after its opening brace. *)
Definition parse_bounds (s : pystr) : option (nat * option nat * pystr) :=
  let '(lo, s1) := read_nat s O in
  match s1 with
  | 125 :: s2 => Some (lo, Some lo, s2)
  | 44 :: 125 :: s2 => Some (lo, None, s2)
  | 44 :: s2 =>
      let '(hi, s3) := read_nat s2 O in
      match s3 with
      | 125 :: s4 => Some (lo, Some hi, s4)
      | _ => None
      end
  | _ => None
  end.

Definition laziness (lo : nat) (hi : option nat) (a : re) (s : pystr)
    : re * pystr :=
  match s with
  | 63 :: s' => (Rep lo hi false a, s')
  | _ => (Rep lo hi true a, s)
  end.

(** The quantifier that follows an atom, when there is one. *)
Definition parse_quant (a : re) (s : pystr) : re * pystr :=
  match s with
  | 42 :: s' => laziness 0 None a s'
  | 43 :: s' => laziness 1 None a s'
  | 63 :: s' => laziness 0 (Some 1%nat) a s'
  | 123 :: s' =>
      match parse_bounds s' with
      | Some (lo, hi, s2) => laziness lo hi a s2
      | None => (a, s)
      end
  | _ => (a, s)
  end.

Fixpoint read_name (s : pystr) (acc : pystr) : option (pystr * pystr) :=
  match s with
  | [] => None
  | 62 :: s' => Some (rev acc, s')
  | c :: s' => read_name s' (c :: acc)
  end.

(** The reader's bookkeeping: the number the next group gets and the names
    given so far. *)
Definition groups : Type := (nat * list (pystr * nat))%type.

Definition expect_close (r : option (re * pystr * groups))
    (wrap : re -> re) : option (re * pystr * groups) :=
  match r with
  | Some (a, 41 :: s, g) => Some (wrap a, s, g)
  | _ => None
  end.

(** Alternation, sequence and atom, by recursive descent. *)
Fixpoint parse_alt (fuel : nat) (s : pystr) (g : groups)
    : option (re * pystr * groups) :=
  match fuel with
  | O => None
  | S fuel' =>
      match parse_seq fuel' s g with
      | Some (a, 124 :: s1, g1) =>
          match parse_alt fuel' s1 g1 with
          | Some (b, s2, g2) => Some (Alt a b, s2, g2)
          | None => None
          end
      | other => other
      end
  end
with parse_seq (fuel : nat) (s : pystr) (g : groups)
    : option (re * pystr * groups) :=
  match fuel with
  | O => None
  | S fuel' =>
      match s with
      | [] => Some (Eps, s, g)
      | 124 :: _ => Some (Eps, s, g)
      | 41 :: _ => Some (Eps, s, g)
      | _ =>
          match parse_atom fuel' s g with
          | Some (a, s1, g1) =>
              let '(a', s2) := parse_quant a s1 in
              match parse_seq fuel' s2 g1 with
              | Some (Eps, s3, g3) => Some (a', s3, g3)
              | Some (b, s3, g3) => Some (Cat a' b, s3, g3)
              | None => None
              end
          | None => None
          end
      end
  end
with parse_atom (fuel : nat) (s : pystr) (g : groups)
    : option (re * pystr * groups) :=
  match fuel with
  | O => None
  | S fuel' =>
      match s with
      | [] => None
      | 40 :: 63 :: 58 :: s' =>
          expect_close (parse_alt fuel' s' g) (fun a => a)
      | 40 :: 63 :: 80 :: 60 :: s' =>
          match read_name s' [] with
          | Some (name, s2) =>
              let i := fst g in
              expect_close (parse_alt fuel' s2 (S i, (name, i) :: snd g))
                (Grp i)
          | None => None
          end
      | 40 :: s' =>
          let i := fst g in
          expect_close (parse_alt fuel' s' (S i, snd g)) (Grp i)
      | 91 :: s' =>
          match parse_set s' with
          | Some (a, s2) => Some (a, s2, g)
          | None => None
          end
      | 46 :: s' => Some (Any, s', g)
      | 94 :: s' => Some (Bol, s', g)
      | 36 :: s' => Some (Eol, s', g)
      | 92 :: c :: s' => Some (escape_re c, s', g)
      | c :: s' => Some (Chr c, s', g)
      end
  end.

(** A pattern that matches nowhere, for a string that is no pattern. *)
Definition never : pattern := mkPattern (CharSet false []) 0 [] false.

Definition compile_str (text : pystr) (icase : bool) : option pattern :=
  match parse_alt (2 * List.length text + 2) text (1%nat, []) with
  | Some (r, [], (n, names)) => Some (mkPattern r (n - 1) names icase)
  | _ => None
  end.

(** [re.compile(text)] and [re.compile(text, re.IGNORECASE)]. *)
Definition compile (text : string) (icase : bool) : pattern :=
  match compile_str (str text) icase with
  | Some p => p
  | None => never
  end.

End ReParse.

(* ================================================================== *)
(** ** Python's [float]: IEEE 754 binary64                             *)
(* ================================================================== *)

Module PyFloat.

Import PyStr.

Definition float : Type := spec_float.

Definition prec : Z := 53.
Definition emax : Z := 1024.

Definition add (x y : float) : float := SFadd prec emax x y.
Definition sub (x y : float) : float := SFsub prec emax x y.
Definition mul (x y : float) : float := SFmul prec emax x y.
Definition div (x y : float) : float := SFdiv prec emax x y.
Definition abs (x : float) : float := SFabs x.
(** [x < y] and [x > y]. *)
Definition ltb (x y : float) : bool := SFltb x y.
Definition gtb (x y : float) : bool := SFltb y x.
Definition leb (x y : float) : bool := SFleb x y.
(** [x == y] and [x != y]. *)
Definition eqb (x y : float) : bool := SFeqb x y.
Definition neqb (x y : float) : bool := negb (SFeqb x y).

(** [max(x, y)]: the first argument unless the second is greater;
    [min(x, y)]: the first unless the second is smaller. *)
Definition max (x y : float) : float := if gtb y x then y else x.
Definition min (x y : float) : float := if ltb y x then y else x.

(** The binary64 number nearest to [num / den] (ties to even). *)
Definition of_fraction (neg : bool) (num den : positive) : float :=
  SFdiv prec emax (S754_finite neg num 0) (S754_finite false den 0).

(** The binary64 number nearest to [digits * 10 ^ scale]: how a decimal
    literal is read. *)
Definition of_decimal (neg : bool) (digits : N) (scale : Z) : float :=
  match digits with
  | N0 => S754_zero neg
  | Npos d =>
      if (0 <=? scale)%Z
      then of_fraction neg (d * Z.to_pos (10 ^ scale))%positive 1
      else of_fraction neg d (Z.to_pos (10 ^ (- scale)))
  end.

Definition of_Z (z : Z) : float :=
  match z with
  | Z0 => S754_zero false
  | Zpos p => of_fraction false p 1
  | Zneg p => of_fraction true p 1
  end.

Definition inf : float := S754_infinity false.

(** A run of decimal digits: their value, how many there are, and what
    follows. *)
Fixpoint read_digits (s : pystr) (acc : N) (count : nat)
    : N * nat * pystr :=
  match s with
  | [] => (acc, count, s)
  | c :: s' =>
      match decimal_value c with
      | Some d => read_digits s' (acc * 10 + d)%N (S count)
      | None => (acc, count, s)
      end
  end.

(** [float(s)] for decimal text: surrounding white space, a sign, digits
    with at most one point and at least one digit.  The other forms
    [float] reads (an exponent, [inf], [nan], underscores) do not occur in
    the texts this program passes to it, which hold digits, points and
    hyphens only; they are answered with [ValueError] here. *)
Definition of_str (s : pystr) : Py.result float :=
  let s := strip s in
  let '(neg, body) :=
    match s with
    | 45 :: r => (true, r)
    | 43 :: r => (false, r)
    | _ => (false, s)
    end%N in
  let '(ip, ni, s1) := read_digits body 0%N O in
  match s1 with
  | [] =>
      if Nat.eqb ni 0 then Py.Raise Py.ValueError
      else Py.Ok (of_decimal neg ip 0)
  | c :: s2 =>
      if (c =? 46)%N then
        let '(all, n, s3) := read_digits s2 ip ni in
        match s3 with
        | [] =>
            if Nat.eqb n 0 then Py.Raise Py.ValueError
            else Py.Ok (of_decimal neg all (- Z.of_nat (n - ni)))
        | _ :: _ => Py.Raise Py.ValueError
        end
      else Py.Raise Py.ValueError
  end.

(** The exact value of a finite number as a fraction. *)
Definition to_ratio (m : positive) (e : Z) : N * N :=
  if (0 <=? e)%Z then (Npos m * 2 ^ Z.to_N e, 1)%N
  else (Npos m, 2 ^ Z.to_N (- e))%N.

Definition round_half_even (num den : N) : N :=
  let q := (num / den)%N in
  match (2 * (num mod den) ?= den)%N with
  | Lt => q
  | Gt => (q + 1)%N
  | Eq => if N.even q then q else (q + 1)%N
  end.

(** [x.is_integer()]. *)
Definition is_integer (x : float) : bool :=
  match x with
  | S754_zero _ => true
  | S754_finite _ m e =>
      let '(num, den) := to_ratio m e in (num mod den =? 0)%N
  | _ => false
  end.

(** [int(x)] for a finite [x]: truncation towards zero. *)
Definition to_int (x : float) : Z :=
  match x with
  | S754_finite s m e =>
      let '(num, den) := to_ratio m e in
      let q := Z.of_N (num / den) in
      if s then (- q)%Z else q
  | _ => 0%Z
  end.

Definition sign_of (x : float) : pystr :=
  match x with
  | S754_zero true | S754_infinity true | S754_finite true _ _ => [45%N]
  | _ => []
  end.

Fixpoint zeros (n : nat) : pystr :=
  match n with
  | O => []
  | S n' => 48%N :: zeros n'
  end.

(** Digits in groups of three, from the right, separated by commas. *)
Fixpoint group3 (rev_digits : pystr) : pystr :=
  match rev_digits with
  | a :: b :: c :: (_ :: _) as more => a :: b :: c :: 44%N :: group3 more
  | short => short
  end.

Definition with_commas (digits : pystr) : pystr := rev (group3 (rev digits)).

(** [format(x, ".{places}f")], or [",.{places}f"] when [commas] is set:
    the exact value rounded to [places] decimals, ties to even. *)
Definition format_f (commas : bool) (places : nat) (x : float) : pystr :=
  match x with
  | S754_nan => str "nan"
  | S754_infinity _ => sign_of x ++ str "inf"
  | _ =>
      let '(num, den) :=
        match x with
        | S754_finite _ m e => to_ratio m e
        | _ => (0, 1)%N
        end in
      let unit := (10 ^ N.of_nat places)%N in
      let scaled := round_half_even (num * unit) den in
      let ip := of_N (scaled / unit) in
      let fp := of_N (scaled mod unit) in
      sign_of x ++ (if commas then with_commas ip else ip)
      ++ (if Nat.eqb places 0 then []
          else 46%N :: zeros (places - List.length fp) ++ fp)
  end.

(** The least [j] with [num * 10 ^ j >= den], for [0 < num < den]. *)
Fixpoint scale_up (fuel : nat) (num den : N) (j : nat) : nat :=
  match fuel with
  | O => j
  | S fuel' =>
      if (den <=? num)%N then j else scale_up fuel' (num * 10)%N den (S j)
  end.

(** The position of the decimal point of [num / den > 0]: the [p] with
    [10 ^ (p - 1) <= num / den < 10 ^ p]. *)
Definition decimal_point (num den : N) : Z :=
  if (den <=? num)%N then Z.of_nat (List.length (of_N (num / den)))
  else (1 - Z.of_nat (scale_up 400 num den O))%Z.

Fixpoint strip_zeros (rev_digits : pystr) : pystr :=
  match rev_digits with
  | 48%N :: more => strip_zeros more
  | _ => rev_digits
  end.

(** The decimal [d * 10 ^ scale] as significant digits and the position
    of its decimal point. *)
Definition digits_of (d : N) (scale : Z) : pystr * Z :=
  let ds := of_N d in
  (rev (strip_zeros (rev ds)), (Z.of_nat (List.length ds) + scale)%Z).

(** With [n] significant digits, the decimals just below and just above
    [num / den] that read back as [x]; the nearer one when both do. *)
Definition round_trip (x : float) (num den : N) (point : Z) (n : nat)
    : option (pystr * Z) :=
  let scale := (point - Z.of_nat n)%Z in
  let '(a, b) :=
    if (0 <=? scale)%Z then (num, den * 10 ^ Z.to_N scale)%N
    else (num * 10 ^ Z.to_N (- scale), den)%N in
  let lo := (a / b)%N in
  let exact := (a mod b =? 0)%N in
  let ok (d : N) := SFeqb (of_decimal false d scale) (SFabs x) in
  let nearer_hi := (b <? 2 * (a mod b))%N in
  if exact then Some (digits_of lo scale)
  else
    match ok lo, ok (lo + 1)%N with
    | true, true =>
        Some (digits_of (if nearer_hi then lo + 1 else lo)%N scale)
    | true, false => Some (digits_of lo scale)
    | false, true => Some (digits_of (lo + 1)%N scale)
    | false, false => None
    end.

Fixpoint shortest (fuel n : nat) (x : float) (num den : N) (point : Z)
    : pystr * Z :=
  match fuel with
  | O => ([48%N], 1%Z)
  | S fuel' =>
      match round_trip x num den point n with
      | Some r => r
      | None => shortest fuel' (S n) x num den point
      end
  end.

(** [repr(x)], which is also [str(x)] and [format(x, "")]: the shortest
    decimal that reads back as [x], in positional notation when the decimal
    point lies within the first sixteen digits or up to three zeros before
    them, in exponent notation otherwise. *)
Definition repr (x : float) : pystr :=
  match x with
  | S754_nan => str "nan"
  | S754_infinity _ => sign_of x ++ str "inf"
  | S754_zero _ => sign_of x ++ str "0.0"
  | S754_finite _ m e =>
      let '(num, den) := to_ratio m e in
      let '(ds, point) := shortest 17 1 x num den (decimal_point num den) in
      let n := Z.of_nat (List.length ds) in
      sign_of x ++
      (if (point <=? -4)%Z || (16 <? point)%Z then
         let ex := (point - 1)%Z in
         firstn 1 ds
         ++ (if (1 <? n)%Z then 46%N :: skipn 1 ds else [])
         ++ [101%N; if (ex <? 0)%Z then 45%N else 43%N]
         ++ (if (Z.abs ex <? 10)%Z then [48%N] else [])
         ++ of_N (Z.abs_N ex)
       else if (point <=? 0)%Z then
         str "0." ++ zeros (Z.to_nat (- point)) ++ ds
       else if (n <=? point)%Z then
         ds ++ zeros (Z.to_nat (point - n)) ++ str ".0"
       else
         firstn (Z.to_nat point) ds ++ 46%N :: skipn (Z.to_nat point) ds)
  end.

End PyFloat.

(* ================================================================== *)
(** ** app/models/document.py                                          *)
(* ================================================================== *)

Module Document.

Import PyStr.

(** [class ExtractedFact(BaseModel)]: the four fields after [confidence]
    default to [None], and so do [source_reference] and
    [effective_date]. *)
Record ExtractedFact : Type := mkFact {
  key : pystr;
  value : pystr;
  confidence : PyFloat.float;
  source_page : option Z;
  source_text : option pystr;
  coordinates : option (list (pystr * PyFloat.float));
  source_reference : option pystr;
  effective_date : option pystr
}.

(** [confidence: float = Field(ge=0.0, le=1.0)]. *)
Definition valid_confidence (c : PyFloat.float) : bool :=
  PyFloat.leb (S754_zero false) c && PyFloat.leb c (PyFloat.of_Z 1).

End Document.

(* ================================================================== *)
(** ** Insertion-ordered dictionaries with [str] keys                  *)
(* ================================================================== *)

Module Dict.

Import PyStr.

Definition dict (V : Type) : Type := list (pystr * V).

Fixpoint get {V : Type} (d : dict V) (k : pystr) : option V :=
  match d with
  | [] => None
  | (k', v) :: d' => if PyStr.eqb k' k then Some v else get d' k
  end.

(** [d[k] = v]: a key already present keeps its place. *)
Fixpoint set {V : Type} (d : dict V) (k : pystr) (v : V) : dict V :=
  match d with
  | [] => [(k, v)]
  | (k', v') :: d' =>
      if PyStr.eqb k' k then (k', v) :: d' else (k', v') :: set d' k v
  end.

(** A dictionary display [{k1: v1, k2: v2, ...}]: the entries are stored
    left to right, so a key written twice keeps its first place and its
    last value. *)
Definition literal {V : Type} (items : list (pystr * V)) : dict V :=
  fold_left (fun d kv => set d (fst kv) (snd kv)) items [].

(** [d.setdefault(k, []).append(x)]. *)
Definition append_to {V : Type} (d : dict (list V)) (k : pystr) (x : V)
    : dict (list V) :=
  match get d k with
  | Some l => set d k (l ++ [x])
  | None => set d k [x]
  end.

End Dict.

(* ================================================================== *)
(** ** app/services/normalization_service.py                           *)
(* ================================================================== *)

Module NormalizationService.

Import PyStr Document.
Open Scope string_scope.
Open Scope list_scope.

Definition compile := ReParse.compile.

(** [f"{x}"] for the text of a group: a group that took no part prints as
    [None]. *)
Definition fmt (o : option pystr) : pystr :=
  match o with
  | Some s => s
  | None => str "None"
  end.

Definition CURRENCY_PATTERNS : list string :=
  [ "₹\s*([0-9,]+(?:\.[0-9]{2})?)";
    "Rs\.?\s*([0-9,]+(?:\.[0-9]{2})?)";
    "INR\s*([0-9,]+(?:\.[0-9]{2})?)";
    "[`]\s*([0-9,]+(?:\.[0-9]{2})?)";
    "([0-9,]+(?:\.[0-9]*)?)\s*L(?:akh?s?|ac?s?)";
    "([0-9,]+(?:\.[0-9]*)?)\s*Cr(?:ore?s?)";
    "([0-9,]+(?:\.[0-9]*)?)\s*(?:Thousand|K)" ].

Definition TERM_SYNONYMS : Dict.dict (list pystr) :=
  Dict.literal (map (fun e => (str (fst e), map str (snd e)))
  [ ("cibil", ["credit_score"; "cibil_score"; "credit_rating"; "bureau_score"]);
    ("credit_score", ["cibil"; "cibil_score"; "credit_rating"; "bureau_score"]);
    ("processing_fee", ["admin_fee"; "administrative_charges"; "handling_charges"]);
    ("processing_fee",
      ["login_fee"; "login_charges"; "login_fee_processing_fee"]
      ++ ["admin_fee"; "administrative_charges"; "handling_charges"]);
    ("prepayment", ["foreclosure"; "pre_closure"; "early_repayment"; "premature_closure"]);
    ("foreclosure", ["prepayment"; "pre_closure"; "early_repayment"; "premature_closure"]);
    ("ltv", ["loan_to_value"; "ltv_ratio"; "financing_ratio"]);
    ("tenure", ["term"; "loan_term"; "repayment_period"; "loan_period"]);
    ("term", ["tenure"; "loan_term"; "repayment_period"; "loan_period"]);
    ("emi", ["equated_monthly_installment"; "monthly_installment"; "installment"]);
    ("interest_rate", ["roi"; "rate_of_interest"; "lending_rate"; "home_loan_rate"]);
    ("property_value", ["property_cost"; "property_worth"; "asset_value"]);
    ("income_proof", ["salary_certificate"; "income_certificate"; "pay_slip"]);
    ("reset", ["revision"; "rate_change"; "adjustment"]);
    ("grievance", ["complaint"; "dispute"; "issue_resolution"]) ]).

Definition PERCENTAGE_PATTERNS : list string :=
  [ "([0-9]+(?:\.[0-9]+)?)\s*%\s*(?:per\s+annum|p\.a\.?|annually)?";
    "([0-9]+(?:\.[0-9]+)?)\s*percent";
    "([0-9]+(?:\.[0-9]+)?)\s*pc" ].

Definition BAD_VALUE_PATTERNS : list string :=
  [ "^\s*$";
    "^[,.;]+$";
    "^(template field.*|value not specified.*)$";
    "^_{3,}$";
    "^\[.*\]$";
    "^not\s*found$";
    "^n\.a\.$";
    "^as applicable$";
    "^as per actuals$";
    "^not specified$";
    "^to be filled$";
    "^_____+$" ].

(** [__init__]: the three pattern lists, compiled with [re.IGNORECASE]. *)
Definition compiled_currency_patterns : list Re.pattern :=
  map (fun p => compile p true) CURRENCY_PATTERNS.
Definition compiled_percentage_patterns : list Re.pattern :=
  map (fun p => compile p true) PERCENTAGE_PATTERNS.
Definition compiled_bad_value_patterns : list Re.pattern :=
  map (fun p => compile p true) BAD_VALUE_PATTERNS.

(** The two substitutions [_normalize_key] applies to a lower-cased
    segment, and the stripping of underscores at both ends. *)
Definition NON_KEY_CHARS : Re.pattern := compile "[^a-z0-9_]" false.
Definition UNDERSCORE_RUN : Re.pattern := compile "_+" false.

Definition normalize_part (s : pystr) : pystr :=
  strip_chars (str "_")
    (Re.sub UNDERSCORE_RUN (str "_") (Re.sub NON_KEY_CHARS (str "_") (lower s))).

(** One turn of the loop over [TERM_SYNONYMS.items()]: when a synonym of
    the entry occurs in the field, the first such synonym is replaced by the
    canonical term. *)
Definition apply_entry (field : pystr) (entry : pystr * list pystr)
    : pystr :=
  let '(canonical_term, synonyms) := entry in
  if existsb (fun synonym => contains field synonym) synonyms then
    match find (fun synonym => contains field synonym) synonyms with
    | Some synonym => replace field synonym canonical_term
    | None => field
    end
  else field.

Definition apply_synonyms (field : pystr) : pystr :=
  fold_left apply_entry TERM_SYNONYMS field.

(** [_normalize_key]. *)
Definition normalize_key (key : pystr) : pystr :=
  if contains key (str ".") then
    match split_once (str ".") key with
    | Some (section, field) =>
        let normalized_section := normalize_part section in
        let normalized_field := normalize_part field in
        normalized_section ++ str "." ++ apply_synonyms normalized_field
    | None => key
    end
  else apply_synonyms (normalize_part key).

Definition any_in (s : pystr) (terms : list string) : bool :=
  existsb (fun t => contains s (str t)) terms.

(** [_is_currency_field], [_is_percentage_field], [_is_numerical_field]. *)
Definition is_currency_field (key : pystr) : bool :=
  any_in (lower key)
    ["fee"; "charge"; "amount"; "limit"; "income"; "salary"; "cost"].

Definition is_percentage_field (key : pystr) : bool :=
  any_in (lower key)
    ["rate"; "apr"; "interest"; "roi"; "ltv"; "percent"; "penalty"; "spread"].

Definition is_numerical_field (key : pystr) : bool :=
  any_in (lower key)
    ["days"; "months"; "years"; "score"; "limit"; "period"; "tenure"; "term";
     "age"; "experience"].

Definition searches (p : Re.pattern) (s : pystr) : bool :=
  match Re.search p s with Some _ => true | None => false end.

(** [_contains_currency], [_contains_percentage]. *)
Definition contains_currency (value : pystr) : bool :=
  existsb (fun p => searches p value) compiled_currency_patterns.

Definition contains_percentage (value : pystr) : bool :=
  existsb (fun p => searches p value) compiled_percentage_patterns.

(** [f"INR {amount:,.0f}"]. *)
Definition inr (amount : PyFloat.float) : pystr :=
  str "INR " ++ PyFloat.format_f true 0 amount.

(** The body of the loop of [_normalize_currency] for a pattern that
    matched: [Some] is a [return], [None] the [pass] after a
    [ValueError], which lets the loop go on. *)
Definition currency_of_match (value : pystr) (m : Re.match_obj)
    : option pystr :=
  let amount_str := fmt (Re.group value m 1) in
  let value_upper := upper value in
  let amount := PyFloat.of_str (replace amount_str (str ",") []) in
  let times (factor : Z) :=
    match amount with
    | Py.Ok a => Some (inr (PyFloat.mul a (PyFloat.of_Z factor)))
    | Py.Raise _ => None
    end in
  if any_in value_upper ["L"; "LAKH"; "LAC"] then times 100000%Z
  else if any_in value_upper ["CR"; "CRORE"] then times 10000000%Z
  else if any_in value_upper ["K"; "THOUSAND"] then times 1000%Z
  else
    match amount with
    | Py.Ok a => Some (inr a)
    | Py.Raise _ => None
    end.

Fixpoint normalize_currency_loop (patterns : list Re.pattern)
    (value : pystr) : pystr :=
  match patterns with
  | [] => value
  | pattern :: more =>
      match Re.search pattern value with
      | Some m =>
          match currency_of_match value m with
          | Some out => out
          | None => normalize_currency_loop more value
          end
      | None => normalize_currency_loop more value
      end
  end.

(** [_normalize_currency]. *)
Definition normalize_currency (value : pystr) : pystr :=
  normalize_currency_loop compiled_currency_patterns value.

Fixpoint normalize_percentage_loop (patterns : list Re.pattern)
    (value : pystr) : pystr :=
  match patterns with
  | [] => value
  | pattern :: more =>
      match Re.search pattern value with
      | Some m =>
          match PyFloat.of_str (fmt (Re.group value m 1)) with
          | Py.Ok percentage => PyFloat.repr percentage ++ str "%"
          | Py.Raise _ => normalize_percentage_loop more value
          end
      | None => normalize_percentage_loop more value
      end
  end.

(** [_normalize_percentage]. *)
Definition normalize_percentage (value : pystr) : pystr :=
  normalize_percentage_loop compiled_percentage_patterns value.

Definition NUMBER : Re.pattern := compile "\d+(?:\.\d+)?" false.

(** [_normalize_number]. *)
Definition normalize_number (value : pystr) : pystr :=
  match Re.findall NUMBER value with
  | first :: _ =>
      match PyFloat.of_str first with
      | Py.Ok num =>
          if PyFloat.is_integer num then PyStr.of_Z (PyFloat.to_int num)
          else PyFloat.format_f false 2 num
      | Py.Raise _ => value
      end
  | [] => value
  end.

Definition WHITESPACE_RUN : Re.pattern := compile "\s+" false.

(** [_normalize_text]. *)
Definition normalize_text (value : pystr) : pystr :=
  let normalized := strip (Re.sub WHITESPACE_RUN (str " ") value) in
  let sentences := split normalized (str ". ") in
  join (str ". ")
    (map capitalize
       (filter (fun sentence => negb (PyStr.eqb sentence [])) sentences)).

Definition WHICHEVER : Re.pattern :=
  compile "(?P<pct>[0-9]+(?:\.[0-9]+)?)%\s*or\s*(?:₹|rs\.?|inr)\s*(?P<amt>[0-9,]+)\s*whichever is\s*(?P<which>higher|lower)" true.

Definition PCT_OR_AMOUNT : Re.pattern :=
  compile "(?P<pct>[0-9]+(?:\.[0-9]+)?)%\s*or\s*(?:₹|rs\.?|inr)\s*(?P<amt>[0-9,]+)" true.

Definition PCT_RANGE : Re.pattern :=
  compile "(\d+(?:\.\d+)?)%\s*(?:to|-|–)\s*(\d+(?:\.\d+)?)%" false.

(** The EMI-amount block of [_normalize_value]: the value it goes on with,
    or [None] when the fact is dropped. *)
Definition emi_amount_step (value key : pystr) : option pystr :=
  if endswith (lower key) (str "repayment.emi_amount")
     || contains (lower key) (str "emi_amount")
  then
    let value :=
      if existsb (fun tok => contains (lower value) (str tok))
           ["rs"; "inr"; "₹"; "`"]
      then normalize_currency value else value in
    match Re.findall NUMBER (replace value (str ",") []) with
    | first :: _ =>
        match PyFloat.of_str first with
        | Py.Ok num =>
            if PyFloat.gtb num (S754_zero false)
               && PyFloat.ltb num (PyFloat.of_Z 100)
            then None
            else Some value
        | Py.Raise _ => Some value
        end
    | [] => Some value
    end
  else Some value.

(** [_normalize_value], for a [value] that is a [str]. *)
Definition normalize_value (value key : pystr) : pystr :=
  if PyStr.eqb value [] then []
  else
    let value := strip value in
    if contains (lower key) (str "emi_currency") then
      let lower_val := lower value in
      if contains value (str "₹") || contains value (str "`")
         || contains lower_val (str "rs") || contains lower_val (str "inr")
      then str "₹"
      else value
    else
      match Re.match_ WHICHEVER value with
      | Some m =>
          let pct := Re.group_named WHICHEVER value m (str "pct") in
          let amt := Re.group_named WHICHEVER value m (str "amt") in
          let which := lower (fmt (Re.group_named WHICHEVER value m (str "which"))) in
          let comparator :=
            if PyStr.eqb which (str "higher") then str "min" else str "max" in
          fmt pct ++ str "% or ₹" ++ fmt amt ++ str " (use " ++ comparator
          ++ str ")"
      | None =>
          match Re.match_ PCT_OR_AMOUNT value with
          | Some m =>
              let pct := Re.group_named PCT_OR_AMOUNT value m (str "pct") in
              let amt := Re.group_named PCT_OR_AMOUNT value m (str "amt") in
              fmt pct ++ str "% (min ₹" ++ fmt amt ++ str ")"
          | None =>
              match emi_amount_step value key with
              | None => []
              | Some value =>
                  if is_currency_field key || contains_currency value
                  then normalize_currency value
                  else
                    match Re.match_ PCT_RANGE value with
                    | Some rng =>
                        fmt (Re.group value rng 1) ++ str "%-"
                        ++ fmt (Re.group value rng 2) ++ str "%"
                    | None =>
                        if is_percentage_field key
                           || contains_percentage value
                        then normalize_percentage value
                        else if is_numerical_field key
                        then normalize_number value
                        else normalize_text value
                    end
              end
          end
      end.

(** [normalize_single_fact]: a new fact is built from six fields of the
    given one; the two remaining fields of [ExtractedFact] get their
    default. *)
Definition normalize_single_fact (fact : ExtractedFact) : ExtractedFact :=
  {| key := normalize_key (key fact);
     value := normalize_value (value fact) (key fact);
     confidence := confidence fact;
     source_page := source_page fact;
     source_text := source_text fact;
     coordinates := coordinates fact;
     source_reference := None;
     effective_date := None |}.

(** [_looks_bad]. *)
Definition looks_bad (value : pystr) : bool :=
  let test_val := strip value in
  existsb
    (fun pat => match Re.match_ pat test_val with Some _ => true | None => false end)
    compiled_bad_value_patterns.

(** [normalize_facts]. *)
Definition normalize_facts (facts : list ExtractedFact)
    : list ExtractedFact :=
  filter (fun normalized => negb (looks_bad (value normalized)))
    (map normalize_single_fact facts).

(** *** Conflict detection *)

Inductive severity : Type := high | medium.

Inductive range_type : Type := range | upper_bound | lower_bound.

(** The dictionaries [_extract_ranges] builds.  The integer [0] the source
    stores as a lower end is the float zero here: the two compare alike. *)
Record Range : Type := mkRange {
  r_fact : ExtractedFact;
  r_min : PyFloat.float;
  r_max : PyFloat.float;
  r_type : range_type
}.

(** The two shapes of conflict dictionaries, told apart by their
    ['type'] entry. *)
Inductive Conflict : Type :=
| value_contradiction
    (key : pystr)
    (conflicting_values : pystr * pystr)
    (sources : option pystr * option pystr)
    (confidence_scores : PyFloat.float * PyFloat.float)
    (sev : severity)
| overlapping_ranges
    (category : pystr)
    (conflicting_ranges : Range * Range)
    (sev : severity)
    (recommendation : pystr).

Definition NON_NUMERIC : Re.pattern := compile "[^\d.-]" false.
Definition NON_WORD : Re.pattern := compile "[^\w]" false.

Definition zero : PyFloat.float := S754_zero false.
(** The literals [0.1], [0.2] and [0.3]. *)
Definition tenth : PyFloat.float := PyFloat.of_decimal false 1 (-1).
Definition two_tenths : PyFloat.float := PyFloat.of_decimal false 2 (-1).
Definition three_tenths : PyFloat.float := PyFloat.of_decimal false 3 (-1).

(** The [except (ValueError, TypeError)] branch of [_values_conflict]. *)
Definition texts_conflict (value1 value2 : pystr) : bool :=
  let normalized1 := Re.sub NON_WORD [] (lower value1) in
  let normalized2 := Re.sub NON_WORD [] (lower value2) in
  negb (PyStr.eqb normalized1 normalized2)
  && Nat.ltb 0 (List.length normalized1)
  && Nat.ltb 0 (List.length normalized2).

(** [_values_conflict]. *)
Definition values_conflict (value1 value2 : pystr) : bool :=
  if PyStr.eqb value1 value2 then false
  else
    match PyFloat.of_str (Re.sub NON_NUMERIC [] value1) with
    | Py.Ok num1 =>
        match PyFloat.of_str (Re.sub NON_NUMERIC [] value2) with
        | Py.Ok num2 =>
            if PyFloat.gtb (PyFloat.max num1 num2) zero then
              let diff_ratio :=
                PyFloat.div (PyFloat.abs (PyFloat.sub num1 num2))
                  (PyFloat.max num1 num2) in
              PyFloat.gtb diff_ratio tenth
            else false
        | Py.Raise _ => texts_conflict value1 value2
        end
    | Py.Raise _ => texts_conflict value1 value2
    end.

(** The pairs ([l[i]], [l[j]]) with [i < j], in the order of the two
    nested loops. *)
Fixpoint pairs {A : Type} (l : list A) : list (A * A) :=
  match l with
  | [] => []
  | x :: more => map (pair x) more ++ pairs more
  end.

(** The dictionary [_detect_group_conflicts] appends for a pair. *)
Definition contradiction (key : pystr) (fact1 fact2 : ExtractedFact)
    : Conflict :=
  value_contradiction key
    (value fact1, value fact2)
    (source_text fact1, source_text fact2)
    (confidence fact1, confidence fact2)
    (if PyFloat.ltb
          (PyFloat.abs (PyFloat.sub (confidence fact1) (confidence fact2)))
          two_tenths
     then high else medium).

(** [_detect_group_conflicts]. *)
Definition detect_group_conflicts (key : pystr) (facts : list ExtractedFact)
    : list Conflict :=
  map (fun p => contradiction key (fst p) (snd p))
    (filter (fun p => values_conflict (value (fst p)) (value (snd p)))
       (pairs facts)).

Definition range_patterns : list string :=
  [ "(\d+(?:\.\d+)?)\s*(?:%|L|Cr|K)?\s*(?:-|–|—|to)\s*(\d+(?:\.\d+)?)\s*(?:%|L|Cr|K)?";
    "up\s+to\s+(\d+(?:\.\d+)?)\s*(?:%|L|Cr|K)?";
    "minimum\s+(\d+(?:\.\d+)?)\s*(?:%|L|Cr|K)?";
    "maximum\s+(\d+(?:\.\d+)?)\s*(?:%|L|Cr|K)?" ].

(** [float(match.group(i))]: [float(None)] is a [TypeError]. *)
Definition float_of_group (s : pystr) (m : Re.match_obj) (i : nat)
    : Py.result PyFloat.float :=
  match Re.group s m i with
  | Some text => PyFloat.of_str text
  | None => Py.Raise Py.TypeError
  end.

(** What [_extract_ranges] appends for one fact once a pattern matched
    (after it the loop over the patterns is left). *)
Definition range_of_match (fact : ExtractedFact) (p : Re.pattern)
    (m : Re.match_obj) : Py.result (list Range) :=
  let value := value fact in
  if Nat.eqb (Re.p_groups p) 2 then
    Py.bind (float_of_group value m 1) (fun lo =>
    Py.bind (float_of_group value m 2) (fun hi =>
    Py.Ok [mkRange fact lo hi range]))
  else if contains (lower value) (str "up to") then
    Py.bind (float_of_group value m 1) (fun hi =>
    Py.Ok [mkRange fact zero hi upper_bound])
  else if contains (lower value) (str "minimum") then
    Py.bind (float_of_group value m 1) (fun lo =>
    Py.Ok [mkRange fact lo PyFloat.inf lower_bound])
  else if contains (lower value) (str "maximum") then
    Py.bind (float_of_group value m 1) (fun hi =>
    Py.Ok [mkRange fact zero hi upper_bound])
  else Py.Ok [].

Fixpoint ranges_of_fact (patterns : list Re.pattern) (fact : ExtractedFact)
    : Py.result (list Range) :=
  match patterns with
  | [] => Py.Ok []
  | p :: more =>
      match Re.search p (value fact) with
      | Some m => range_of_match fact p m
      | None => ranges_of_fact more fact
      end
  end.

(** [_extract_ranges]. *)
Fixpoint extract_ranges (facts : list ExtractedFact)
    : Py.result (list Range) :=
  match facts with
  | [] => Py.Ok []
  | fact :: more =>
      Py.bind
        (ranges_of_fact (map (fun p => compile p true) range_patterns) fact)
        (fun here =>
      Py.bind (extract_ranges more) (fun there => Py.Ok (here ++ there)))
  end.

Definition range_type_eqb (a b : range_type) : bool :=
  match a, b with
  | range, range | upper_bound, upper_bound | lower_bound, lower_bound => true
  | _, _ => false
  end.

(** [_ranges_overlap_contradictory]. *)
Definition ranges_overlap_contradictory (range1 range2 : Range) : bool :=
  if PyFloat.eqb (r_min range1) (r_max range1)
     && PyFloat.eqb (r_min range2) (r_max range2)
  then PyFloat.neqb (r_min range1) (r_min range2)
  else if range_type_eqb (r_type range1) upper_bound
          && range_type_eqb (r_type range2) lower_bound
          && PyFloat.ltb (r_max range1) (r_min range2)
  then true
  else if range_type_eqb (r_type range1) lower_bound
          && range_type_eqb (r_type range2) upper_bound
          && PyFloat.gtb (r_min range1) (r_max range2)
  then true
  else if range_type_eqb (r_type range1) range
          && range_type_eqb (r_type range2) range
  then
    let overlap_start := PyFloat.max (r_min range1) (r_min range2) in
    let overlap_end := PyFloat.min (r_max range1) (r_max range2) in
    if PyFloat.leb overlap_start overlap_end then
      let overlap_size := PyFloat.sub overlap_end overlap_start in
      let range1_size := PyFloat.sub (r_max range1) (r_min range1) in
      let range2_size := PyFloat.sub (r_max range2) (r_min range2) in
      let avg_range_size :=
        PyFloat.div (PyFloat.add range1_size range2_size) (PyFloat.of_Z 2) in
      PyFloat.ltb overlap_size (PyFloat.mul three_tenths avg_range_size)
    else false
  else false.

Definition range_keywords : list string :=
  ["ltv"; "interest_rate"; "processing_fee"; "age"; "income"; "tenure"].

(** The first loop of [_detect_range_conflicts]: every fact is filed under
    each keyword its lower-cased key contains. *)
Definition file_fact (range_facts : Dict.dict (list ExtractedFact))
    (fact : ExtractedFact) : Dict.dict (list ExtractedFact) :=
  fold_left
    (fun d keyword =>
       if contains (lower (key fact)) (str keyword)
       then Dict.append_to d (str keyword) fact
       else d)
    range_keywords range_facts.

Definition group_range_facts (facts : list ExtractedFact)
    : Dict.dict (list ExtractedFact) :=
  fold_left file_fact facts [].

(** The dictionary [_detect_range_conflicts] appends for a pair. *)
Definition overlap (category : pystr) (range1 range2 : Range) : Conflict :=
  overlapping_ranges category (range1, range2) high
    (str "Mark as SUSPECT - contradictory range information").

Definition category_conflicts (category : pystr)
    (category_facts : list ExtractedFact) : Py.result (list Conflict) :=
  if Nat.ltb 1 (List.length category_facts) then
    Py.bind (extract_ranges category_facts) (fun ranges =>
    Py.Ok
      (map (fun p => overlap category (fst p) (snd p))
         (filter (fun p => ranges_overlap_contradictory (fst p) (snd p))
            (pairs ranges))))
  else Py.Ok [].

Fixpoint range_conflicts_of (groups : Dict.dict (list ExtractedFact))
    : Py.result (list Conflict) :=
  match groups with
  | [] => Py.Ok []
  | (category, category_facts) :: more =>
      Py.bind (category_conflicts category category_facts) (fun here =>
      Py.bind (range_conflicts_of more) (fun there =>
      Py.Ok (here ++ there)))
  end.

(** [_detect_range_conflicts]. *)
Definition detect_range_conflicts (facts : list ExtractedFact)
    : Py.result (list Conflict) :=
  range_conflicts_of (group_range_facts facts).

(** The first loop of [detect_conflicts]: facts grouped by their key. *)
Definition group_by_key (facts : list ExtractedFact)
    : Dict.dict (list ExtractedFact) :=
  fold_left (fun d fact => Dict.append_to d (key fact) fact) facts [].

(** [detect_conflicts]. *)
Definition detect_conflicts (facts : list ExtractedFact)
    : Py.result (list Conflict) :=
  let conflicts :=
    flat_map
      (fun g =>
         if Nat.ltb 1 (List.length (snd g))
         then detect_group_conflicts (fst g) (snd g)
         else [])
      (group_by_key facts) in
  Py.bind (detect_range_conflicts facts) (fun range_conflicts =>
  Py.Ok (conflicts ++ range_conflicts)).

End NormalizationService.

(* ================================================================== *)
(** ** app/services/table_parser.py                                    *)
(* ================================================================== *)

Module TableParser.

Import PyStr.
Open Scope string_scope.
Open Scope list_scope.

Definition LTV_ROW : Re.pattern :=
  ReParse.compile
    "(?P<pct>[0-9]{1,3})\s*%\s*(?:-|–)?\s*(?:up\s*to\s*)?₹?\s*(?P<lower>[0-9,]+)?(?:\s*(?:-|–|to)\s*₹?\s*(?P<upper>[0-9,]+))?\s*(?P<unit>L|Lakh|Lac|Crore|Cr|K|Thousand)?"
    true.

(** [int(s)] for decimal text: surrounding white space, a sign and at
    least one digit (underscores between digits, which [int] also reads,
    do not occur in what this program passes to it). *)
Definition int_of_str (s : pystr) : Py.result Z :=
  let s := strip s in
  let '(neg, body) :=
    match s with
    | 45 :: r => (true, r)
    | 43 :: r => (false, r)
    | _ => (false, s)
    end%N in
  match PyFloat.read_digits body 0%N O with
  | (n, S _, []) => Py.Ok (if neg then (- Z.of_N n)%Z else Z.of_N n)
  | _ => Py.Raise Py.ValueError
  end.

(** [_to_int]. *)
Definition to_int (num : option pystr) : Py.result (option Z) :=
  match num with
  | None => Py.Ok None
  | Some [] => Py.Ok None
  | Some num =>
      Py.bind (int_of_str (replace num (str ",") [])) (fun n => Py.Ok (Some n))
  end.

(** A band dictionary. *)
Record Band : Type := mkBand {
  min_amount : option Z;
  max_amount : option Z;
  unit : option pystr;
  ltv : pystr
}.

Definition band_of_match (text : pystr) (m : Re.match_obj)
    : Py.result Band :=
  let group name := Re.group_named LTV_ROW text m (str name) in
  let pct := NormalizationService.fmt (group "pct") ++ str "%" in
  Py.bind (to_int (group "lower")) (fun lower =>
  Py.bind (to_int (group "upper")) (fun upper =>
  let unit :=
    strip (match group "unit" with Some u => u | None => [] end) in
  Py.Ok (mkBand lower upper
           (match unit with [] => None | _ :: _ => Some unit end)
           pct))).

Fixpoint bands_of (text : pystr) (matches : list Re.match_obj)
    : Py.result (list Band) :=
  match matches with
  | [] => Py.Ok []
  | m :: more =>
      Py.bind (band_of_match text m) (fun band =>
      Py.bind (bands_of text more) (fun bands => Py.Ok (band :: bands)))
  end.

(** [parse_ltv_table]. *)
Definition parse_ltv_table (text : pystr) : Py.result (list Band) :=
  bands_of text (Re.finditer LTV_ROW text).

End TableParser.

(* ================================================================== *)
(** ** [json.dumps] of a list of bands                                 *)
(* ================================================================== *)

Module Json.

Import PyStr TableParser.
Open Scope string_scope.
Open Scope list_scope.

Definition quote : N := 34.

Definition hex_digit (n : N) : N :=
  (if n <? 10 then 48 + n else 87 + n)%N.

(** The escape of one code unit below 65536, four hexadecimal digits. *)
Definition escape_unit (c : N) : pystr :=
  [92; 117; hex_digit (c / 4096); hex_digit (c / 256 mod 16);
   hex_digit (c / 16 mod 16); hex_digit (c mod 16)]%N.

(** One code point of a string, as [json.dumps] writes it with
    [ensure_ascii]: printable ASCII as it is, the rest escaped. *)
Definition escape_char (c : N) : pystr :=
  (if c =? 34 then [92; 34]
   else if c =? 92 then [92; 92]
   else if c =? 10 then [92; 110]
   else if c =? 13 then [92; 114]
   else if c =? 9 then [92; 116]
   else if c =? 8 then [92; 98]
   else if c =? 12 then [92; 102]
   else if in_range c 32 126 then [c]
   else if c <? 65536 then escape_unit c
   else escape_unit (55296 + (c - 65536) / 1024)
        ++ escape_unit (56320 + (c - 65536) mod 1024))%N.

Definition dumps_str (s : pystr) : pystr :=
  quote :: flat_map escape_char s ++ [quote].

Definition dumps_opt_int (z : option Z) : pystr :=
  match z with
  | Some n => PyStr.of_Z n
  | None => str "null"
  end.

Definition dumps_opt_str (s : option pystr) : pystr :=
  match s with
  | Some t => dumps_str t
  | None => str "null"
  end.

Definition dumps_band (b : Band) : pystr :=
  str "{" ++ dumps_str (str "min_amount") ++ str ": "
  ++ dumps_opt_int (min_amount b) ++ str ", "
  ++ dumps_str (str "max_amount") ++ str ": "
  ++ dumps_opt_int (max_amount b) ++ str ", "
  ++ dumps_str (str "unit") ++ str ": " ++ dumps_opt_str (unit b) ++ str ", "
  ++ dumps_str (str "ltv") ++ str ": " ++ dumps_str (ltv b) ++ str "}".

(** [json.dumps(bands)]. *)
Definition dumps (bands : list Band) : pystr :=
  str "[" ++ join (str ", ") (map dumps_band bands) ++ str "]".

End Json.

(* ================================================================== *)
(** ** app/services/rule_based_extraction.py                           *)
(* ================================================================== *)

Module RuleBasedExtraction.

Import PyStr Document.
Open Scope string_scope.
Open Scope list_scope.

Definition PCT : string := "(?P<pct>[0-9]+(?:\.[0-9]+)?)\s*%".
Definition MONEY : string :=
  "(?P<amt>(?:₹|Rs\.?|INR)?\s*[0-9,]+(?:\.[0-9]+)?\s*(?:L|Lakh|Lac|Crore|Cr|K|Thousand)?)".

(** The entries of the [PATTERNS] display, in the order they are written;
    six keys are written twice. *)
Definition PATTERNS_display : list (string * list string) :=
  [
    ("fees_and_charges.processing_fee",
      [ "Processing\s+Fees?\s+At\s+Once\s+Upto\s+(?P<pct>[0-9]+(?:\.[0-9]+)?)\s*%";
        "Login\s*Fee[/\\]Processing\s*Fee\s+(?P<pct>[0-9]+(?:\.[0-9]+)?)\s*%\s*to\s*(?P<pct2>[0-9]+(?:\.[0-9]+)?)\s*%";
        "processing[^.]{0,50}fee[^.]{0,50}(?P<pct>[0-9]+(?:\.[0-9]+)?)\s*%" ]);
    ("fees_and_charges.administrative_fee",
      [ "administrative\s+fee[:\s]*(?P<pct>[0-9]+(?:\.[0-9]+)?)\s*%";
        "admin\s+fee[:\s]*(?:₹|Rs\.? )\s*(?P<amt>[0-9,]+)";
        "administrative\s*charges?[:\s]*(?P<pct>[0-9]+(?:\.[0-9]+)?)\s*%";
        "administrative\s*charges?[:\s]*(?:₹|Rs\.?|INR)\s*(?P<amt>[0-9,]+)";
        "administrative.*?fee[:\s]*(?P<value>Template field.*?not specified)";
        "administrative.*?fee[:\s]*(?P<value>___+|______|_____)";
        "administrative.*?fee[:\s]*(?P<value>\[.*?\])";
        "incidental\s*charges\s*and\s*expenses.*?as\s*per\s*actuals" ]);
    ("fees_and_charges.legal_charges",
      [ "legal\s+charges[:\s]*(?:₹|Rs\.? )\s*(?P<amt>[0-9,]+)";
        "legal\s+fee[:\s]*(?P<pct>[0-9]+(?:\.[0-9]+)?)\s*%";
        "legal\s+charges?[:\s]*(?P<value>as\s*per\s*(?:actuals|applicable\s*law))";
        "legal\s*charges?\s*[:\-]\s*as\s*per\s*actuals" ]);
    ("fees_and_charges.valuation_charges",
      [ "valuation\s+charges?[:\s]*(?:₹|Rs\.?|INR)\s*(?P<amt>[0-9,]+)";
        "valuation\s+fees?[:\s]*(?P<pct>[0-9]+(?:\.[0-9]+)?)\s*%";
        "valuation\s+charges?[:\s]*(?P<value>as\s*per\s*(?:actuals|applicable\s*law))";
        "valuation\s*charges?\s*[:\-]\s*as\s*per\s*actuals" ]);
    ("fees_and_charges.conversion_fee",
      [ "(?P<pct>[0-9]+(?:\.[0-9]+)?)\s*%\s*of\s*the\s*Principal\s+Outstanding" ]);
    ("prepayment_and_foreclosure.prepayment_penalty",
      [ "prepayment\s+penalty[:\s]*(?P<pct>[0-9]+(?:\.[0-9]+)?)\s*%";
        "prepay\s+up\s+to\s+(?P<pct>[0-9]+)\s*%\s*of\s*the.*principal";
        "prepayment.*?penalty[:\s]*(?P<value>NIL|N\.A\.)";
        "(?P<value>[Nn]o\s+pre-?payment\s+penalty.*?floating.*?loans?)";
        "(?P<value>[Nn]o\s+penalty.*?levied.*?floating.*?home\s+loans?)";
        "prepayment.*?(?P<value>not\s+applicable|N/A)" ]);
    ("prepayment_and_foreclosure.foreclosure_charges",
      [ "foreclosure\s+charges?[:\s]*(?P<pct>[0-9]+(?:\.[0-9]+)?)\s*%";
        "pre.?closure\s+charges?[:\s]*(?P<pct>[0-9]+(?:\.[0-9]+)?)\s*%";
        "foreclosure.*?charges?[:\s]*(?P<value>NIL|N\.A\.)";
        "(?P<value>[Nn]o\s+pre-?closure\s+penalty.*?floating.*?loans?)";
        "(?P<value>[Nn]o\s+penalty.*?levied.*?floating.*?home\s+loans?)";
        "pre.?closure.*?(?P<value>not\s+applicable|N/A)";
        "foreclosure\s*charges?\s*[:\-]?\s*NIL\s*for\s*floating\s*rate\s*housing\s*loan" ]);
    ("loan_amount_and_ltv.ltv_ratio",
      [ "LTV[:\s]*(?:up\s+to\s+)?(?P<pct>[0-9]+)\s*%";
        "loan\s+to\s+value[:\s]*(?P<pct>[0-9]+)\s*%";
        "(?P<pct>[0-9]+)\s*%.*LTV" ]);
    ("eligibility.minimum_income",
      [ "minimum\s+income[:\s]*(?:₹|Rs\.?)\s*(?P<amt>[0-9,]+)";
        "income\s+requirement[:\s]*(?:₹|Rs\.?)\s*(?P<amt>[0-9,]+)" ]);
    ("eligibility.cibil_score",
      [ "CIBIL\s+score[:\s]*(?P<score>[0-9]+)";
        "credit\s+score[:\s]*(?P<score>[0-9]+)";
        "minimum.*score[:\s]*(?P<score>[0-9]+)" ]);
    ("eligibility.age_limit",
      [ "age\s+limit[:\s]*(?P<min_age>[0-9]+)(?:\s*to\s*(?P<max_age>[0-9]+))?\s*years?";
        "minimum\s+age[:\s]*(?P<min_age>[0-9]+)\s*years?";
        "maximum\s+age[:\s]*(?P<max_age>[0-9]+)\s*years?";
        "age\s*of\s*borrower[:\s]*(?P<min_age>[0-9]+)\s*[-–to]\s*(?P<max_age>[0-9]+)\s*years?" ]);
    ("repayment.tenure",
      [ "(?:up\s+to|maximum|max|upto)\s+(?P<years>[0-9]+)\s*(?:years?|yrs?)";
        "(?P<years>[0-9]+)\s*(?:years?|yrs?)\s*(?:tenure|term|period)";
        "tenure[:\s-]+(?P<years>[0-9]+)\s*(?:years?|yrs?)";
        "(?P<years>[0-9]+)\s*(?:years?|yrs?)\s*(?:loan|repayment)";
        "(?:minimum|min)\s+(?P<years>[0-9]+)\s*(?:years?|yrs?)";
        "(?:maximum|max)\s+(?P<years>[0-9]+)\s*(?:years?|yrs?)" ]);
    ("repayment.tenure_range",
      [ "(?P<min_years>[0-9]+)(?:\s*to\s*|\s*-\s*)(?P<max_years>[0-9]+)\s*(?:years?|yrs?)";
        "(?P<min_years>[0-9]+)\s*[–\-]\s*(?P<max_years>[0-9]+)\s*(?:years?|yrs?)" ]);
    ("interest_rates.reset_frequency",
      [ "reset\s+(?:period|frequency)[:\s]*(?P<freq>monthly|quarterly|annually|yearly)";
        "rate\s+(?:change|reset)[:\s]*(?P<freq>monthly|quarterly|annually|yearly)";
        "(?P<value>[Ww]ith\s+the\s+change.*?benchmark.*?REPO.*?time.*?Bank[^.]*)";
        "[Rr]esets?.*?(?P<freq>change.*?benchmark)";
        "[Rr]esets?.*?(?P<freq>monthly|quarterly|annually)" ]);
    ("interest_rates.benchmark_rate",
      [ "(?P<bench>RPLR|IHPLR|EBLR|REPO)";
        "benchmark\s+rate[:\s]*(?P<bench>[\w\s]+)" ]);
    ("interest_rates.rate_change_communication",
      [ "(?P<value>HDFC.*?endeavor.*?informed.*?change.*?rates?[^.]*)";
        "(?P<value>[Aa]ny\s+changes.*?interest\s+rate.*?detailed.*?[Cc]lause.*?[0-9]+.*?website[^.]*)";
        "(?P<value>[Cc]hanges.*?REPO\s+rate.*?notified.*?displayed.*?branch[^.]+[^.]+)";
        "(?P<value>[Aa]\s+communication.*?borrower.*?registered.*?e-mail.*?SMS[^.]*)";
        "(?P<value>borrowers?.*?informed.*?(?:change|rate)[^.]*)";
        "(?P<value>shall.*?keep.*?informed.*?change.*?rate[^.]*)";
        "changes\s*in\s*the\s*adjustable\s*interest\s*rate\s*will\s*be\s*as\s*detailed\s*in\s*Clause\s*4" ]);
    ("interest_rates.notification_method",
      [ "'?press\s+release'?.*?(?P<method>www\.[^\s]+)";
        "notice\s+board.*?(?P<methods>[^.]{20,80})";
        "(?P<methods>(?:website|email|sms|branch).*?(?:notification|communication)[^.]*)";
        "(?P<value>detailed.*?[Cc]lause.*?[0-9]+)";
        "notification.*method[:\s]*(?P<method>[\w\s,]+)" ]);
    ("documents.required_documents",
      [ "documents?\s+required[:\s]*(?P<docs>[\w\s,]+)";
        "KYC\s+documents[:\s]*(?P<docs>[\w\s,]+)";
        "property.*documents[:\s]*(?P<docs>[\w\s,]+)";
        "(?:list\s+of\s+documents|supporting\s+proofs?)[:\s]*(?P<docs>.+)";
        "(?:required|mandatory)\s+documents?[:\s]*(?P<docs>.+)";
        "welcome\s+pack[:\s]*(?P<docs>.+)";
        "supporting\s+proofs?[:\s]*(?P<docs>.+)";
        "will\s*be\s*released\s*to\s*you\s*within\s*30\s*days\s*from\s*the\s*date\s*of\s*full\s*repayment";
        "\bmiscellaneous\b" ]);
    ("grievance.process",
      [ "grievance\s+(?:process|procedure|redressal)[:\s]*(?P<process>[\w\s,]+)";
        "complaint\s+procedure[:\s]*(?P<process>[\w\s,]+)";
        "customer\s+service[:\s]*(?P<process>[\w\s,]+)" ]);
    ("grievance.customer_service",
      [ "(?:nodal\s+officer|escalation\s+matrix?)[:\s]*(?P<contact>.+)";
        "nodal\s+officer\s+contact[:\s]*(?P<contact>.+)";
        "nhb\s+escalation[:\s]*(?P<contact>.+)";
        "(?:NHB|national\s+housing\s+bank)\s+grievance" ]);
    ("loan_amount_and_ltv.sanctioned_amount",
      [ ("sanctioned\s*amount\s*[:\-]?\s*" ++ MONEY)%string;
        ("loan\s*amount\s*[:\-]?\s*(?:up\s*to|maximum|upto)?\s*" ++ MONEY)%string;
        ("principal\s*amount\s*(?:of\s*the\s*)?(?:facility|loan)\s*[:\-]?\s*" ++ MONEY)%string;
        "facility\s*amount\s*(?:not\s*exceeding)?\s*[:\-\(]?\s*[`₹Rs\.]?\s*[0-9,]+";
        "opening\s*principal\s*amount" ]);
    ("loan_amount_and_ltv.loan_amount_currency",
      [ "currency\s*[:\-]?\s*(INR|₹|Rupees?)";
        "[`₹]\s*[0-9,]+";
        "Rupees\s+[A-Za-z\s]+Only" ]);
    ("fees_and_charges.processing_fee",
      [ "Processing\s+Fees?\s+At\s+Once\s+Upto\s+(?P<pct>[0-9]+(?:\.[0-9]+)?)\s*%";
        "Login\s*Fee[/\\]Processing\s*Fee\s+(?P<pct>[0-9]+(?:\.[0-9]+)?)\s*%\s*to\s*(?P<pct2>[0-9]+(?:\.[0-9]+)?)\s*%";
        "processing[^.]{0,50}fee[^.]{0,50}(?P<pct>[0-9]+(?:\.[0-9]+)?)\s*%";
        "(?:up\s*to|upto)\s*(?P<pct>[0-9]+(?:\.[0-9]+)?)\s*%\s*of\s*(?:the\s*)?loan\s*amount\s*or\s*(?:Rs\.?|₹)\s*(?P<amt>[0-9,]+)\s*whichever\s*is\s*(?P<which>higher|lower)";
        "(?:up\s*to|upto)\s*(?P<pct>[0-9]+(?:\.[0-9]+)?)\s*%\s*of\s*(?:the\s*)?loan\s*amount\s*or\s*(?:Rs\.?|₹)\s*(?P<amt>[0-9,]+)";
        ("Processing\s*Fee[s]?\s*[:\-]?\s*" ++ PCT)%string ]);
    ("repayment.emi_amount",
      [ "(?:the\s*)?amount\s*of\s*EMI\s*[:\-]?\s*(?:₹|Rs\.?|INR)\s*[0-9,]+(?:\.[0-9]+)?";
        "EMI\s*\(?[`₹Rs\.]?\)?\s*[:\-]?\s*(?:₹|Rs\.?|INR)\s*[0-9,]+";
        "(?:equated\s*)?monthly\s*installment\s*[:\-]?\s*(?:₹|Rs\.?|INR)\s*[0-9,]+(?:\.[0-9]+)?" ]);
    ("repayment.emi_currency",
      [ "EMI\s*\([`₹Rs\.]*\)" ]);
    ("repayment.tenure",
      [ "loan\s*tenure\s*[:\-]?\s*(?P<years>[0-9]+)\s*(?:years?|yrs?|months?)";
        "tenure\s*[:\-]?\s*(?P<years>[0-9]+)\s*(?:years?|yrs?|months?)";
        "term\s*[:\-]?\s*(?P<years>[0-9]+)\s*(?:years?|yrs?|months?)";
        "repayment\s*period\s*[:\-]?\s*(?P<years>[0-9]+)\s*(?:years?|yrs?)" ]);
    ("prepayment_and_foreclosure.prepayment_option",
      [ "prepay\s*up\s*to\s*(?P<pct>[0-9]+(?:\.[0-9]+)?)\s*%\s*of\s*the\s*(?:opening\s*)?principal";
        "partial\s*prepayment\s*[:\-]?\s*(?P<pct>[0-9]+(?:\.[0-9]+)?)\s*%" ]);
    ("interest_rates.benchmark_rate",
      [ "(?P<bench>RPLR|IHPLR|EBLR|REPO)\s*(?:linked|rate)?";
        "Retail\s*Prime\s*Lending\s*Rate\s*\((?P<bench>RPLR)\)";
        "(?P<bench>IHPLR)\s*=\s*[0-9\.]*\s*%\s*per\s*annum" ]);
    ("interest_rates.margin",
      [ "(?:RPLR|IHPLR|EBLR)\s*[+\-]\s*(?P<pct>[0-9\.]+)\s*%";
        "margin\s*of\s*[+\-]?\s*(?P<pct>[0-9\.]+)\s*%" ]);
    ("interest_rates.reset_frequency",
      [ "reset\s*(?:period|frequency)\s*[:\-]?\s*(?P<freq>monthly|quarterly|annually|yearly)";
        "rate\s*change\s*[:\-]?\s*(?P<freq>monthly|quarterly|annually|yearly)" ]);
    ("penal_charges.late_payment_penalty",
      [ "maximum\s*of\s*(?P<pct>[0-9]+(?:\.[0-9]+)?)\s*%\s*P\.?A\.?\s*on\s*the\s*defaulted";
        "late\s*payment\s*(?:penalty|charge)\s*[:\-]?\s*(?P<pct>[0-9\.]+)\s*%" ]);
    ("penal_charges.cheque_bounce_charges",
      [ "cheque[/\\]?(?:ECS|NACH|payment\s*instrument)?\s*dishono?ur\s*charges[:\-,]*\s*per\s*transaction\s*[`₹Rs\.]*\s*(?P<amt>[0-9,]+)";
        "bounce\s*(?:charge|penalty)\s*[:\-]?\s*[`₹Rs\.]*\s*(?P<amt>[0-9,]+)" ]);
    ("fees_and_charges.conversion_fee",
      [ "(?P<pct>[0-9]+(?:\.[0-9]+)?)\s*%\s*of\s*the\s*Principal\s+Outstanding" ]);
    ("document_info.bank_name",
      [ "\b(?P<bank>HDFC|ICICI|SBI|DBS)\b" ]);
    ("fees_and_charges.fee_amount",
      [ "(?:₹|Rs\.?)\s*(?P<amt>[0-9,]+)" ]);
    ("interest_rates.benchmark",
      [ "(RPLR|IHPLR|EBLR|REPO)\s*(?:linked|rate)?" ]);
    ("interest_rates.spread",
      [ ("(spread|margin)\s*(?:over)?\s*(RPLR|IHPLR|EBLR|REPO)?\s*[:\-]?\s*" ++ PCT)%string ]);
    ("prepayment_and_foreclosure.charge",
      [ ("(prepayment|pre\-?closure|foreclosure)\s*(?:charge|penalt(y|ies))\s*[:\-]?\s*" ++ PCT)%string ]);
    ("repayment.tenure_years",
      [ "(tenure|term)\s*(?:up to|upto|maximum|:)?\s*(?P<years>[0-9]{1,2})\s*(?:years|yrs)" ]);
    ("eligibility.credit_score_min",
      [ "(CIBIL|credit\s*score)\s*(?:min(?:imum)?|>=|≥|not\s*less\s*than)?\s*(?P<score>[0-9]{3})" ]);
    ("document_metadata.effective_date",
      [ "(Effective\s*from|Updated\s*on|Version\s*dated|Revised\s*on)\s*[:\-]?\s*(?P<date>[0-9]{1,2}[\-/][0-9]{1,2}[\-/][0-9]{2,4})";
        "(Effective\s*from|Updated\s*on|Version\s*dated|Revised\s*on)\s*[:\-]?\s*(?P<date>[A-Za-z]{3,9}\s+[0-9]{1,2},\s*[0-9]{4})" ]);
    ("penal_charges.late_payment_penalty",
      [ "penal interest\s*@\s*(?P<pct>[0-9]+(?:\.[0-9]+)?)\s*%\s*p\.a\.";
        "penal.*?interest.*?@\s*(?P<pct>[0-9]+(?:\.[0-9]+)?)\s*%(?:\s*(?:p\.a\.|per\s+annum))?";
        "late payment charge[:\s]*(?P<pct>[0-9]+(?:\.[0-9]+)?)\s*%\s*p\.a\.";
        "default interest rate[:\s]*(?P<pct>[0-9]+(?:\.[0-9]+)?)\s*%\s*over";
        "penal interest[:\s]*(?P<pct>[0-9]+(?:\.[0-9]+)?)\s*%";
        "(?:a\s*)?maximum\s*(?:of\s*)?(?P<pct>[0-9]+(?:\.[0-9]+)?)\s*%\s*(?:p\.?a\.?|per\s+annum)\s*on\s*the\s*defaulted\s*(?:sum|amount)";
        "bounce charge[:\s]*(?:₹|Rs\.?|INR)\s*(?P<amt>[0-9,]+)" ]);
    ("loan_amount_and_ltv.ltv_tier",
      [ "loan-to-value ratio[:\s]*up to\s*(?P<pct>[0-9]+)%\s*for loans up to";
        "LTV[:\s]*up to\s*(?P<pct>[0-9]+)%\s*for loans up to";
        "maximum LTV[:\s]*(?P<pct>[0-9]+)%\s*for loans up to";
        "(?P<pct>[0-9]+)%\s*-\s*up to\s*₹?\s*[0-9,]+";
        "LTV[:\s]*(?P<pct>[0-9]+)%";
        "Loan[-\s]*to[-\s]*Value.*?Up\s*to\s*(?P<pct>[0-9]{1,3})%.*?(?:₹|Rs\.?|INR)\s*(?P<amt>[0-9,]+)\s*(?P<unit>L|Lakh|Lac|Crore|Cr|K|Thousand)?";
        "LTV.*?Up\s*to\s*(?P<pct>[0-9]{1,3})%.*?(?:₹|Rs\.?|INR)\s*(?P<amt>[0-9,]+)\s*(?P<unit>L|Lakh|Lac|Crore|Cr|K|Thousand)?" ]);
    ("fees_and_charges.compound_processing_fee",
      [ "(?P<pct>[0-9]+(?:\.[0-9]+)?)%\s*or\s*(?:Rs\.?|₹)\s*(?P<amt>[0-9,]+)\s*whichever is higher";
        "(?P<pct>[0-9]+(?:\.[0-9]+)?)%\s*or\s*(?:Rs\.?|₹)\s*(?P<amt>[0-9,]+)\s*whichever is lower";
        "(?P<pct>[0-9]+(?:\.[0-9]+)?)%\s*or\s*(?:Rs\.?|₹)\s*(?P<amt>[0-9,]+)" ]);
    ("security_and_insurance.insurance_requirement",
      [ "insurance coverage[:\s]*(?:₹|Rs\.?)\s*(?P<amt>[0-9,]+)\s*(?:lakhs?|lac?)\s*minimum";
        "life insurance[:\s]*(?P<value>mandatory|compulsory|required)";
        "property insurance[:\s]*(?P<value>as per bank's requirement|mandatory)";
        "insurance.*?₹?\s*(?P<amt>[0-9,]+)\s*L(?:akh|ac)?\s*(?:minimum|min)?" ]);
    ("security_and_insurance.primary_security",
      [ "primary\s*security[:\s]*(?P<value>property\s*mortgage|equitable\s*mortgage)";
        "security[:\s]*(?P<value>equitable\s*mortgage|charge\s*on\s*property|hypothecation)";
        "security\s*interest[:\s]*(?P<value>[^\n\r]{5,120})";
        "security\s*of\s*the\s*loan.*?(?P<value>security\s*interest\s*on\s*the\s*property\s*being\s*financed)";
        "(?P<value>equitable\s+mortgage\s+of\s+the\s+property)" ]);
    ("eligibility.special_categories",
      [ "NRI[:\s]*(?P<value>eligible|not eligible)";
        "defense personnel[:\s]*(?P<value>special rates|eligible)";
        "government employees[:\s]*(?P<value>concessional rates|special rates)" ]);
    ("prepayment_and_foreclosure.lock_in_period",
      [ "lock[-\s]*in\s*period\s*[:\-]?\s*6\s*months\s*for\s*non[-\s]*individual\s*borrowers" ])
  ].

(** [PATTERNS]: every pattern compiled with [re.IGNORECASE]. *)
Definition PATTERNS : Dict.dict (list Re.pattern) :=
  Dict.literal
    (map (fun e => (str (fst e), map (fun p => ReParse.compile p true) (snd e)))
       PATTERNS_display).

Definition fmt := NormalizationService.fmt.

(** [m.group(name).strip()], [.upper()], [.title()]: on [None] an
    [AttributeError]. *)
Definition on_group (f : pystr -> pystr) (g : option pystr)
    : Py.result (option pystr) :=
  match g with
  | Some s => Py.Ok (Some (f s))
  | None => Py.Raise Py.AttributeError
  end.

Definition truthy (g : option pystr) : bool :=
  match g with
  | Some (_ :: _) => true
  | _ => false
  end.

(** The chain of [if]/[elif] in [extract] that makes the value of a fact
    from the groups of the match; [None] is Python's [None]. *)
Definition value_of_match (key : pystr) (p : Re.pattern) (text : pystr)
    (m : Re.match_obj) : Py.result (option pystr) :=
  let has name := Re.has_group p (str name) in
  let group name := Re.group_named p text m (str name) in
  if PyStr.eqb key (str "loan_amount_and_ltv.ltv_tier") && has "pct" && has "amt"
  then
    let unit := match group "unit" with Some u => u | None => [] end in
    let unit_str := match unit with [] => [] | _ :: _ => str " " ++ unit end in
    Py.Ok (Some (strip (fmt (group "pct") ++ str "% up to ₹" ++ fmt (group "amt")
                        ++ unit_str)))
  else if has "pct" && has "pct2" then
    Py.Ok (Some (fmt (group "pct") ++ str "% to " ++ fmt (group "pct2") ++ str "%"))
  else if has "pct" then Py.Ok (Some (fmt (group "pct") ++ str "%"))
  else if has "amt" then on_group strip (group "amt")
  else if has "freq" then on_group title (group "freq")
  else if has "years" then Py.Ok (Some (fmt (group "years") ++ str " years"))
  else if has "bench" then on_group upper (group "bench")
  else if has "bank" then on_group upper (group "bank")
  else if has "score" then Py.Ok (group "score")
  else if has "min_age" && has "max_age" && truthy (group "max_age") then
    Py.Ok (Some (fmt (group "min_age") ++ str " to " ++ fmt (group "max_age")
                 ++ str " years"))
  else if has "min_age" then
    Py.Ok (Some (fmt (group "min_age") ++ str " years minimum"))
  else if has "max_age" then
    Py.Ok (Some (fmt (group "max_age") ++ str " years maximum"))
  else if has "min_years" && has "max_years" then
    Py.Ok (Some (fmt (group "min_years") ++ str " to " ++ fmt (group "max_years")
                 ++ str " years"))
  else if has "value" then on_group (fun s => firstn 150 (strip s)) (group "value")
  else if has "method" then on_group (fun s => firstn 100 (strip s)) (group "method")
  else if has "methods" then on_group (fun s => firstn 100 (strip s)) (group "methods")
  else if has "docs" then on_group (fun s => firstn 100 (strip s)) (group "docs")
  else if has "contact" then on_group (fun s => firstn 150 (strip s)) (group "contact")
  else if has "process" then on_group (fun s => firstn 100 (strip s)) (group "process")
  else if has "date" then Py.Ok (group "date")
  else Py.Ok (Some (strip (Re.group0 text m))).

(** [filename or 'document']. *)
Definition name_of (filename : option pystr) : pystr :=
  match filename with
  | Some ((_ :: _) as name) => name
  | _ => str "document"
  end.

(** The literals [0.75] and [0.70]. *)
Definition rule_confidence : PyFloat.float := PyFloat.of_decimal false 75 (-2).
Definition table_confidence : PyFloat.float := PyFloat.of_decimal false 70 (-2).

(** The fact built for a match of a pattern of [key]; a value that is
    [None] is refused by the model's validation. *)
Definition fact_of_match (key : pystr) (p : Re.pattern) (text : pystr)
    (filename : option pystr) (m : Re.match_obj) : Py.result ExtractedFact :=
  Py.bind (value_of_match key p text m) (fun value =>
  match value with
  | None => Py.Raise Py.ValidationError
  | Some value =>
      let snippet :=
        slice text (Re.m_start m - 60)
          (Nat.min (Re.m_end m + 60) (List.length text)) in
      Py.Ok
        {| key := key;
           value := value;
           confidence := rule_confidence;
           source_page := None;
           source_text := Some snippet;
           coordinates := None;
           source_reference :=
             Some (name_of filename ++ str ":~" ++ of_nat (Re.m_start m)
                   ++ str "-" ++ of_nat (Re.m_end m));
           effective_date := None |}
  end).

(** The inner loop of [extract]: the patterns of a key are tried in turn
    and the first that is found in the text gives the fact. *)
Fixpoint first_match (key : pystr) (patterns : list Re.pattern)
    (text : pystr) (filename : option pystr)
    : Py.result (list ExtractedFact) :=
  match patterns with
  | [] => Py.Ok []
  | pat :: more =>
      match Re.search pat text with
      | None => first_match key more text filename
      | Some m =>
          Py.bind (fact_of_match key pat text filename m)
            (fun fact => Py.Ok [fact])
      end
  end.

(** The outer loop of [extract] over [PATTERNS.items()]. *)
Fixpoint scan (items : Dict.dict (list Re.pattern)) (text : pystr)
    (filename : option pystr) : Py.result (list ExtractedFact) :=
  match items with
  | [] => Py.Ok []
  | (key, patterns) :: more =>
      Py.bind (first_match key patterns text filename) (fun here =>
      Py.bind (scan more text filename) (fun there => Py.Ok (here ++ there)))
  end.

(** The last step of [extract]: the fact for the LTV table, when
    [parse_ltv_table] returns bands; an exception it raises is caught and
    nothing is added. *)
Definition table_facts (text : pystr) (filename : option pystr)
    : list ExtractedFact :=
  match TableParser.parse_ltv_table text with
  | Py.Ok ((_ :: _) as bands) =>
      [ {| key := str "loan_amount_and_ltv.ltv_bands";
           value := Json.dumps bands;
           confidence := table_confidence;
           source_page := None;
           source_text := Some (str "Detected LTV table in document text");
           coordinates := None;
           source_reference := Some (name_of filename ++ str ":~ltv_table");
           effective_date := None |} ]
  | _ => []
  end.

(** [extract] over a given pattern table. *)
Definition extract_with (patterns : Dict.dict (list Re.pattern))
    (text : pystr) (filename : option pystr)
    : Py.result (list ExtractedFact) :=
  match text with
  | [] => Py.Ok []
  | _ :: _ =>
      Py.bind (scan patterns text filename) (fun facts =>
      Py.Ok (facts ++ table_facts text filename))
  end.

(** [RuleBasedExtractionService.extract]. *)
Definition extract (text : pystr) (filename : option pystr)
    : Py.result (list ExtractedFact) :=
  extract_with PATTERNS text filename.

End RuleBasedExtraction.

(* ================================================================== *)
(** ** app/services/smart_extraction_service.py                        *)
(* ================================================================== *)

Module SmartExtraction.

Import PyStr Document.
Open Scope string_scope.
Open Scope list_scope.

(** The term a fact is found under: [f"{section}.{term}"] after
    [key.split('.', 1)], or the key itself when it has no dot. *)
Definition found_term (fact : ExtractedFact) : pystr :=
  if contains (key fact) (str ".") then
    match split_once (str ".") (key fact) with
    | Some (section, term) => section ++ str "." ++ term
    | None => key fact
    end
  else key fact.

(** [found_terms], a [set] in the source; only membership is asked. *)
Definition found_terms (rule_facts : list ExtractedFact) : list pystr :=
  map found_term rule_facts.

Definition HIGH_VALUE_TERMS : Dict.dict (list pystr) :=
  Dict.literal (map (fun e => (str (fst e), map str (snd e)))
  [ ("fees_and_charges",
      ["processing_fee"; "administrative_fee"; "legal_charges"; "valuation_charges"]);
    ("prepayment_and_foreclosure",
      ["prepayment_penalty"; "foreclosure_charges"; "lock_in_period"]);
    ("interest_rates",
      ["reset_frequency"; "benchmark_rate"; "rate_change_communication";
       "notification_method"]);
    ("documents", ["required_documents"; "kyc_documents"]);
    ("grievance", ["process"; "complaint_procedure"; "customer_service"]) ]).

Definition is_found (found : list pystr) (full_key : pystr) : bool :=
  existsb (PyStr.eqb full_key) found.

(** The terms of a section that were not found. *)
Definition missing_terms (found : list pystr) (section : pystr)
    (high_value_terms : list pystr) : list pystr :=
  filter (fun term => negb (is_found found (section ++ str "." ++ term)))
    high_value_terms.

(** The loop that fills [gaps]: a section is entered only when a term of
    it is missing. *)
Fixpoint gaps_of (found : list pystr) (sections : Dict.dict (list pystr))
    (gaps : Dict.dict (list pystr)) : Dict.dict (list pystr) :=
  match sections with
  | [] => gaps
  | (section, high_value_terms) :: more =>
      let missing := missing_terms found section high_value_terms in
      gaps_of found more
        (match missing with
         | [] => gaps
         | _ :: _ => Dict.set gaps section missing
         end)
  end.

(** [_analyze_gaps]. *)
Definition analyze_gaps (rule_facts : list ExtractedFact)
    : Dict.dict (list pystr) :=
  gaps_of (found_terms rule_facts) HIGH_VALUE_TERMS [].

(** The head of [build_focused_prompt]: it returns [None], and no prompt
    is built, when no section has a missing term. *)
Definition has_missing_sections (gaps : Dict.dict (list pystr)) : bool :=
  existsb (fun e => match snd e with [] => false | _ :: _ => true end) gaps.

(** The section and the term of a key in [_extract_missing_with_llm]:
    [section_term.split('.')[0]] and [section_term.split('.')[1]] for a
    key with a dot, the key itself twice for a key without one.  [None]
    is the [IndexError] of an index that is out of range. *)
Definition section_and_term (section_term : pystr)
    : option (pystr * pystr) :=
  if contains section_term (str ".") then
    match split section_term (str ".") with
    | section :: term :: _ => Some (section, term)
    | _ => None
    end
  else Some (section_term, section_term).

(** [section in gaps and term in gaps[section]]. *)
Definition asked (gaps : Dict.dict (list pystr)) (section term : pystr)
    : bool :=
  match Dict.get gaps section with
  | Some missing => existsb (PyStr.eqb term) missing
  | None => false
  end.

(** The loop that fills [filtered_facts]; [None] is an exception. *)
Fixpoint filter_asked (gaps : Dict.dict (list pystr))
    (llm_facts : list ExtractedFact) : option (list ExtractedFact) :=
  match llm_facts with
  | [] => Some []
  | fact :: more =>
      match section_and_term (key fact) with
      | Some (section, term) =>
          match filter_asked gaps more with
          | Some filtered_facts =>
              Some (if asked gaps section term then fact :: filtered_facts
                    else filtered_facts)
          | None => None
          end
      | None => None
      end
  end.

(** [_extract_missing_with_llm].  [llm_answer] is what
    [llm_service.extract_facts_with_prompt] answers with, a list of facts
    or an exception; every exception of the [try] block gives the empty
    list. *)
Definition extract_missing_with_llm (gaps : Dict.dict (list pystr))
    (llm_answer : Py.result (list ExtractedFact)) : list ExtractedFact :=
  if has_missing_sections gaps then
    match llm_answer with
    | Py.Ok llm_facts =>
        match filter_asked gaps llm_facts with
        | Some filtered_facts => filtered_facts
        | None => []
        end
    | Py.Raise _ => []
    end
  else [].

(** [extract_facts_smart]: the rule facts, then the facts of the LLM for
    the gaps, then normalization.  [llm_service] and
    [normalization_service] say whether the service has the two optional
    collaborators; the printed progress report is left out. *)
Definition extract_facts_smart (llm_service normalization_service : bool)
    (llm_answer : Py.result (list ExtractedFact))
    (document_text filename : pystr) : Py.result (list ExtractedFact) :=
  Py.bind (RuleBasedExtraction.extract document_text (Some filename))
    (fun rule_facts =>
  let gaps := analyze_gaps rule_facts in
  let llm_facts :=
    if llm_service && match gaps with [] => false | _ :: _ => true end
    then extract_missing_with_llm gaps llm_answer
    else [] in
  let all_facts := rule_facts ++ llm_facts in
  Py.Ok (if normalization_service
         then NormalizationService.normalize_facts all_facts
         else all_facts)).

End SmartExtraction.

(* ================================================================== *)
(** ** app/services/document_ingestion.py                              *)
(* ================================================================== *)

Module DocumentIngestion.

Import PyStr.
Open Scope string_scope.
Open Scope list_scope.

Definition newline : pystr := [10%N].

Definition SPACE_RUN : Re.pattern := ReParse.compile " +" false.

(** [_clean_text]: the lines without the white space around them, the
    empty ones left out, joined by single newlines; then every run of
    spaces made one space. *)
Definition clean_text (text : pystr) : pystr :=
  let lines := split text newline in
  let cleaned_lines :=
    filter (fun line => match line with [] => false | _ :: _ => true end)
      (map strip lines) in
  let cleaned_text := join newline cleaned_lines in
  Re.sub SPACE_RUN (str " ") cleaned_text.

End DocumentIngestion.

(* ================================================================== *)
(** * Properties                                                       *)
(* ================================================================== *)

Import PyStr Document.
Local Open Scope string_scope.
Local Open Scope list_scope.

(** ** Strings *)

Lemma pystr_eqb_eq (a b : pystr) : PyStr.eqb a b = true <-> a = b.
Proof.
  revert b. induction a as [|x a IH]; intros [|y b]; simpl;
    try (split; [discriminate|discriminate]); [tauto|].
  rewrite andb_true_iff, N.eqb_eq, IH. split.
  - now intros [-> ->].
  - intros H. injection H as -> ->. tauto.
Qed.

Lemma pystr_eqb_refl (a : pystr) : PyStr.eqb a a = true.
Proof. now apply pystr_eqb_eq. Qed.

Lemma pystr_eqb_neq (a b : pystr) : PyStr.eqb a b = false <-> a <> b.
Proof.
  rewrite <- pystr_eqb_eq. destruct (PyStr.eqb a b); split; congruence.
Qed.

(** Closed strings are put in explicit form before a proof compares
    them. *)
Ltac eval_str_goal :=
  repeat match goal with
         | |- context [str ?s] =>
             let v := eval vm_compute in (str s) in
             change (str s) with v
         end.

Ltac eval_str_in H :=
  repeat match type of H with
         | context [str ?s] =>
             let v := eval vm_compute in (str s) in
             change (str s) with v in H
         end.

Ltac eval_const c :=
  let v := eval vm_compute in c in
  let E := fresh "E" in
  assert (E : c = v) by (vm_compute; reflexivity);
  rewrite E in *; clear E.






(** Splitting at the first separator and joining again gives the string
    back. *)
Lemma split_once_join (sep s h t : pystr) :
  split_once sep s = Some (h, t) -> h ++ sep ++ t = s.
Proof.
  revert h t. induction s as [|c s IH]; intros h t H.
  - simpl in H. destruct (strip_prefix sep []) eqn:E; [|discriminate].
    injection H as <- <-. destruct sep; simpl in E; [now injection E as <-|discriminate].
  - simpl in H. fold (strip_prefix sep (c :: s)) in H.
    destruct (strip_prefix sep (c :: s)) eqn:E.
    + injection H as <- <-. clear IH. revert E.
      generalize (c :: s) as u. induction sep as [|a sep IHs]; intros u E; simpl in *.
      * now injection E as <-.
      * destruct u as [|b u]; [discriminate|].
        destruct (N.eqb_spec a b); [|discriminate]. subst. f_equal. now apply IHs.
    + destruct (split_once sep s) as [[h' t']|]; [|discriminate].
      injection H as <- <-. simpl. f_equal. now apply IH.
Qed.
(** ** Gap analysis *)

Import SmartExtraction.

Lemma found_term_is_key (fact : ExtractedFact) : found_term fact = key fact.
Proof.
  unfold found_term. destruct (contains (key fact) (str ".")); [|reflexivity].
  destruct (split_once (str ".") (key fact)) as [[section term]|] eqn:E;
    [|reflexivity].
  now apply split_once_join.
Qed.

Lemma is_found_iff (facts : list ExtractedFact) (k : pystr) :
  is_found (found_terms facts) k = true <-> exists f, In f facts /\ key f = k.
Proof.
  unfold is_found, found_terms. rewrite existsb_exists. split.
  - intros [x [Hin Heq]]. apply in_map_iff in Hin as [f [Hf Hin]].
    exists f. split; [exact Hin|]. apply pystr_eqb_eq in Heq.
    rewrite found_term_is_key in Hf. congruence.
  - intros [f [Hin Hk]]. exists k. split; [|apply pystr_eqb_refl].
    apply in_map_iff. exists f. split; [|exact Hin].
    now rewrite found_term_is_key.
Qed.

Definition keys {V : Type} (d : Dict.dict V) : list pystr := map fst d.

Lemma dict_set_fresh {V : Type} (d : Dict.dict V) (k : pystr) (v : V) :
  ~ In k (keys d) -> Dict.set d k v = d ++ [(k, v)].
Proof.
  induction d as [|[k' v'] d IH]; simpl; intros H; [reflexivity|].
  destruct (PyStr.eqb k' k) eqn:E.
  - apply pystr_eqb_eq in E. tauto.
  - f_equal. apply IH. tauto.
Qed.

Definition has_terms (e : pystr * list pystr) : bool :=
  match snd e with [] => false | _ :: _ => true end.

(** With distinct section names, the gaps are the sections in their order,
    each with its missing terms, the sections without a missing term left
    out. *)
Lemma gaps_of_fresh (found : list pystr) (sections gaps : Dict.dict (list pystr)) :
  NoDup (keys sections) ->
  (forall k, In k (keys sections) -> ~ In k (keys gaps)) ->
  gaps_of found sections gaps
  = gaps ++ filter has_terms
              (map (fun e => (fst e, missing_terms found (fst e) (snd e)))
                 sections).
Proof.
  revert gaps. induction sections as [|[s t] sections IH]; intros gaps Hnd Hfresh.
  - simpl. now rewrite app_nil_r.
  - simpl in Hnd. inversion Hnd as [|? ? Hs Hnd']; subst.
    cbn [gaps_of map fst snd filter]. unfold has_terms at 1. cbn [snd].
    destruct (missing_terms found s t) as [|m ms] eqn:E.
    + apply IH; [exact Hnd'|]. intros k Hk. apply Hfresh. now right.
    + rewrite IH; [|exact Hnd'|].
      * rewrite dict_set_fresh by (apply Hfresh; now left).
        now rewrite <- app_assoc.
      * intros k Hk. rewrite dict_set_fresh by (apply Hfresh; now left).
        unfold keys. rewrite map_app, in_app_iff. simpl.
        intros [H|[H|[]]]; [apply (Hfresh k); [now right|exact H]|].
        subst. contradiction.
Qed.

Lemma high_value_sections_distinct : NoDup (keys HIGH_VALUE_TERMS).
Proof.
  eval_const HIGH_VALUE_TERMS. cbn [keys map fst].
  repeat constructor; cbn [In]; intuition discriminate.
Qed.

Lemma analyze_gaps_eq (rule_facts : list ExtractedFact) :
  analyze_gaps rule_facts
  = filter has_terms
      (map (fun e => (fst e, missing_terms (found_terms rule_facts) (fst e) (snd e)))
         HIGH_VALUE_TERMS).
Proof.
  unfold analyze_gaps. rewrite gaps_of_fresh.
  - reflexivity.
  - apply high_value_sections_distinct.
  - intros k _ [].
Qed.

(** C7.  Gap analyzer: when the rule facts hold a fact for
    [fees_and_charges.processing_fee] and none for
    [fees_and_charges.administrative_fee], the mapping [analyze_gaps]
    returns lists [administrative_fee] among the missing terms of section
    [fees_and_charges], and [processing_fee] is in no list of missing
    terms. *)
Theorem C7_analyze_gaps_fee_terms (rule_facts : list ExtractedFact) :
  (exists f, In f rule_facts /\ key f = str "fees_and_charges.processing_fee") ->
  (forall f, In f rule_facts -> key f <> str "fees_and_charges.administrative_fee") ->
  (exists missing,
      Dict.get (analyze_gaps rule_facts) (str "fees_and_charges") = Some missing
      /\ In (str "administrative_fee") missing)
  /\ (forall section missing,
        In (section, missing) (analyze_gaps rule_facts) ->
        ~ In (str "processing_fee") missing).
Proof.
  intros Hpf Haf.
  assert (Fpf : is_found (found_terms rule_facts)
                  (str "fees_and_charges.processing_fee") = true)
    by now apply is_found_iff.
  assert (Faf : is_found (found_terms rule_facts)
                  (str "fees_and_charges.administrative_fee") = false).
  { apply not_true_is_false. intros E.
    apply is_found_iff in E as [f [Hin Hk]]. now apply Haf in Hin. }
  rewrite analyze_gaps_eq.
  set (found := found_terms rule_facts) in *.
  eval_str_goal. eval_str_in Fpf. eval_str_in Faf.
  eval_const HIGH_VALUE_TERMS.
  split.
  - cbn [map fst snd]. unfold missing_terms at 1. eval_str_goal.
    cbn [filter app].
    rewrite Fpf, Faf. cbn [negb filter has_terms snd Dict.get].
    rewrite pystr_eqb_refl. eexists. split; [reflexivity|]. now left.
  - intros section missing Hin Hmiss.
    apply filter_In in Hin as [Hin _].
    apply in_map_iff in Hin as [[s t] [Heq Hin]]. cbn [fst snd] in Heq.
    injection Heq as <- <-.
    unfold missing_terms in Hmiss. apply filter_In in Hmiss as [Hterm Hnot].
    cbn [In] in Hin.
    repeat (destruct Hin as [Hin|Hin];
            [injection Hin as <- <-; cbn [In] in Hterm;
             repeat (destruct Hterm as [Hterm|Hterm]; [try discriminate|]);
             try contradiction|]);
      try contradiction.
    eval_str_in Hnot. cbn [app] in Hnot. rewrite Fpf in Hnot. discriminate.
Qed.

Definition processing_fee_fact : ExtractedFact :=
  mkFact (str "fees_and_charges.processing_fee") (str "1.5%")
    RuleBasedExtraction.rule_confidence None None None None None.

Lemma C7_analyze_gaps_fee_terms_witness :
  (exists missing,
      Dict.get (analyze_gaps [processing_fee_fact]) (str "fees_and_charges")
      = Some missing
      /\ In (str "administrative_fee") missing)
  /\ (forall section missing,
        In (section, missing) (analyze_gaps [processing_fee_fact]) ->
        ~ In (str "processing_fee") missing).
Proof.
  apply (C7_analyze_gaps_fee_terms [processing_fee_fact]).
  - exists processing_fee_fact. split; [now left|reflexivity].
  - intros f [<-|[]]. vm_compute. discriminate.
Defined.

(** ** Normalizing one fact *)

Import NormalizationService.

(** C10.  Frame of [normalize_single_fact]: the new fact keeps the
    confidence, source page, source text and coordinates of the given one,
    its key and value are the normalized key and value, and its source
    reference and effective date are [None] whatever the given fact
    holds. *)
Theorem C10_normalize_single_fact_frame (fact : ExtractedFact) :
  confidence (normalize_single_fact fact) = confidence fact
  /\ source_page (normalize_single_fact fact) = source_page fact
  /\ source_text (normalize_single_fact fact) = source_text fact
  /\ coordinates (normalize_single_fact fact) = coordinates fact
  /\ key (normalize_single_fact fact) = normalize_key (key fact)
  /\ value (normalize_single_fact fact) = normalize_value (value fact) (key fact)
  /\ source_reference (normalize_single_fact fact) = None
  /\ effective_date (normalize_single_fact fact) = None.
Proof. repeat split. Qed.

(** The evidence pointer of a rule fact does not survive normalization. *)
Example normalize_single_fact_drops_reference :
  source_reference
    (normalize_single_fact
       (mkFact (str "interest_rates.margin") (str "2%")
          RuleBasedExtraction.rule_confidence None (Some (str "RPLR + 2%"))
          None (Some (str "policy.pdf:~10-19")) (Some (str "01/04/2024"))))
  = None.
Proof. reflexivity. Qed.

(** ** Values: currency units *)

(** C1.  What [normalize_value] returns for the unit suffixes: the short
    forms [5L] and [2Cr] are returned as they are, because the unit
    patterns of [CURRENCY_PATTERNS] ask for more letters after [L] and
    [Cr]; the long forms are converted. *)
Theorem C1_short_units_not_converted :
  normalize_value (str "5L") (str "loan_amount_and_ltv.sanctioned_amount")
  = str "5L"
  /\ normalize_value (str "2Cr") (str "loan_amount_and_ltv.sanctioned_amount")
     = str "2Cr"
  /\ normalize_value (str "5 Lakhs") (str "loan_amount_and_ltv.sanctioned_amount")
     = str "INR 500,000"
  /\ normalize_value (str "2 Crores") (str "loan_amount_and_ltv.sanctioned_amount")
     = str "INR 20,000,000".
Proof. vm_compute. repeat split. Qed.

(** No currency pattern is found in the short forms. *)
Example short_units_hold_no_currency :
  contains_currency (str "5L") = false /\ contains_currency (str "2Cr") = false.
Proof. vm_compute. split; reflexivity. Qed.

(** ** Values: idempotence *)




(** ** The table parser *)

Import TableParser.

(** C8.  A percentage followed by a comma makes [parse_ltv_table] raise:
    the comma alone is taken as the lower bound, and [_to_int] hands the
    empty string to [int]. *)
Theorem C8_parse_ltv_table_raises :
  parse_ltv_table (str "90%,") = Py.Raise Py.ValueError
  /\ parse_ltv_table (str "LTV up to 80%, tenure 20 years")
     = Py.Raise Py.ValueError.
Proof. vm_compute. split; reflexivity. Qed.

(** Without a match of [LTV_ROW] the parser returns the empty list. *)
Lemma parse_ltv_table_no_match (text : pystr) :
  Re.finditer LTV_ROW text = [] -> parse_ltv_table text = Py.Ok [].
Proof. unfold parse_ltv_table. now intros ->. Qed.

(** ** The rule extractor *)

Import RuleBasedExtraction.

Lemma first_match_confidence (key : pystr) (patterns : list Re.pattern)
    (text : pystr) (filename : option pystr) (facts : list ExtractedFact) :
  first_match key patterns text filename = Py.Ok facts ->
  forall f, In f facts -> confidence f = rule_confidence.
Proof.
  induction patterns as [|pat more IH]; simpl; intros H f Hin.
  - injection H as <-. destruct Hin.
  - destruct (Re.search pat text) as [m|]; [|now apply IH].
    unfold fact_of_match in H.
    destruct (value_of_match key pat text m) as [[v|]|e]; simpl in H;
      try discriminate.
    injection H as <-. destruct Hin as [<-|[]]. reflexivity.
Qed.

Lemma scan_confidence (items : Dict.dict (list Re.pattern)) (text : pystr)
    (filename : option pystr) (facts : list ExtractedFact) :
  scan items text filename = Py.Ok facts ->
  forall f, In f facts -> confidence f = rule_confidence.
Proof.
  revert facts. induction items as [|[key patterns] more IH]; simpl; intros facts H f Hin.
  - injection H as <-. destruct Hin.
  - destruct (first_match key patterns text filename) as [here|e] eqn:E1;
      simpl in H; [|discriminate].
    destruct (scan more text filename) as [there|e] eqn:E2; simpl in H;
      [|discriminate].
    injection H as <-. apply in_app_iff in Hin as [Hin|Hin].
    + now apply (first_match_confidence _ _ _ _ _ E1).
    + now apply (IH there).
Qed.

Lemma table_facts_confidence (text : pystr) (filename : option pystr)
    (f : ExtractedFact) :
  In f (table_facts text filename) ->
  key f = str "loan_amount_and_ltv.ltv_bands"
  /\ confidence f = table_confidence.
Proof.
  unfold table_facts. destruct (parse_ltv_table text) as [[|b bs]|e];
    simpl; try tauto.
  intros [<-|[]]. split; reflexivity.
Qed.

(** The facts of the text [LTV: 90%]. *)
Definition ltv_sample_facts : list ExtractedFact :=
  Eval vm_compute in
    match extract (str "LTV: 90%") None with
    | Py.Ok facts => facts
    | Py.Raise _ => []
    end.

(** C9, counterexample.  The text [LTV: 90%] gives three facts: two from
    the catalog with confidence 0.75 and the table fact with confidence
    0.70. *)
Lemma C9_table_fact_has_other_confidence :
  extract (str "LTV: 90%") None = Py.Ok ltv_sample_facts
  /\ map key ltv_sample_facts
     = [str "loan_amount_and_ltv.ltv_ratio"; str "loan_amount_and_ltv.ltv_tier";
        str "loan_amount_and_ltv.ltv_bands"]
  /\ map confidence ltv_sample_facts
     = [rule_confidence; rule_confidence; table_confidence]
  /\ PyFloat.eqb table_confidence rule_confidence = false.
Proof. vm_compute. repeat split. Qed.

(** ** The matcher *)

Import Re.
Local Open Scope nat_scope.

Lemma match_here_start (p : pattern) (st : state) (m : match_obj) :
  match_here p st = Some m -> m_start m = pos st.
Proof.
  unfold match_here. destruct (run _ _ _ _ _) as [[st' cs]|]; [|discriminate].
  now intros [= <-].
Qed.

Lemma search_at_hit (p : pattern) (n : nat) (pv : option N) (s : pystr)
    (m : match_obj) :
  match_here p (mkState n pv s) = Some m -> search_at p n pv s = Some m.
Proof. intros H. destruct s; simpl; now rewrite H. Qed.

Lemma search_at_start (p : pattern) (s : pystr) :
  forall n pv m, search_at p n pv s = Some m -> n <= m_start m.
Proof.
  induction s as [|c s IH]; intros n pv m; simpl.
  - destruct (match_here p (mkState n pv [])) eqn:E; [|discriminate].
    intros [= <-]. apply match_here_start in E. simpl in E. lia.
  - destruct (match_here p (mkState n pv (c :: s))) eqn:E.
    + intros [= <-]. apply match_here_start in E. simpl in E. lia.
    + intros H. apply IH in H. lia.
Qed.

(** Where the pattern does not match, [sub] copies a code point and moves
    on. *)
Lemma sub_at_miss (fuel : nat) (p : pattern) (repl : pystr) (n : nat)
    (pv : option N) (c : N) (s : pystr) :
  match_here p (mkState n pv (c :: s)) = None ->
  sub_at (S fuel) p repl (mkState n pv (c :: s))
  = c :: sub_at (S fuel) p repl (mkState (S n) (Some c) s).
Proof.
  intros H. cbn [sub_at pos prev rest search_at]. rewrite H.
  destruct (search_at p (S n) (Some c) s) as [m|] eqn:E; [|reflexivity].
  apply search_at_start in E.
  replace (m_start m - n) with (S (m_start m - S n)) by lia.
  reflexivity.
Qed.

(** Where it matches a non-empty text, [sub] writes the replacement and
    goes on after the match. *)
Lemma sub_at_hit (fuel : nat) (p : pattern) (repl : pystr) (st : state)
    (m : match_obj) :
  match_here p st = Some m ->
  m_start m < m_end m ->
  sub_at (S fuel) p repl st = repl ++ sub_at fuel p repl (m_stop m).
Proof.
  intros H Hlt. cbn [sub_at]. destruct st as [n pv s]. cbn [pos prev rest].
  rewrite (search_at_hit _ _ _ _ _ H).
  apply Nat.ltb_lt in Hlt. rewrite Hlt.
  rewrite (match_here_start _ _ _ H). cbn [pos]. now rewrite Nat.sub_diag.
Qed.

Lemma sub_at_nil (fuel : nat) (p : pattern) (repl : pystr) (n : nat)
    (pv : option N) :
  match_here p (mkState n pv []) = None ->
  sub_at fuel p repl (mkState n pv []) = [].
Proof. intros H. destruct fuel; [reflexivity|]. cbn. now rewrite H. Qed.

(** Substitution for a pattern that is one character set: every code
    point of the set is replaced. *)
Lemma sub_charset (negated : bool) (items : list item) (ic : bool)
    (repl s : pystr) :
  sub (mkPattern (CharSet negated items) 0 [] ic) repl s
  = flat_map (fun c => if set_match ic negated items c then repl else [c]) s.
Proof.
  unfold sub.
  set (p := mkPattern (CharSet negated items) 0 [] ic).
  assert (G : forall s fuel n pv, List.length s < fuel ->
              sub_at fuel p repl (mkState n pv s)
              = flat_map (fun c => if set_match ic negated items c
                                   then repl else [c]) s).
  { clear s. induction s as [|c s IH]; intros fuel n pv Hlt.
    - now apply sub_at_nil.
    - destruct fuel as [|fuel]; [simpl in Hlt; lia|]. simpl in Hlt.
      cbn [flat_map].
      destruct (set_match ic negated items c) eqn:E.
      + rewrite (sub_at_hit fuel p repl (mkState n pv (c :: s))
                   (mkMatch n (mkState (S n) (Some c) s) [])).
        * cbn [m_stop]. rewrite IH by lia. reflexivity.
        * unfold match_here, p. cbn. now rewrite E.
        * unfold m_end. cbn. lia.
      + rewrite sub_at_miss.
        * rewrite IH by (simpl; lia). reflexivity.
        * unfold match_here, p. cbn. now rewrite E. }
  apply G. lia.
Qed.

(** The code point before the position, after [xs] was consumed. *)
Definition prev_after (pv : option N) (xs : pystr) : option N :=
  fold_left (fun _ x => Some x) xs pv.

Definition not_at (f : N -> bool) (tl : pystr) : Prop :=
  match tl with
  | [] => True
  | y :: _ => f y = false
  end.

Definition within (n : nat) (hi : option nat) : Prop :=
  match hi with
  | Some h => n <= h
  | None => True
  end.

(** A greedy repeat of a one-code-point test takes the whole run [xs] of
    code points that pass the test, when what follows the run does not
    pass it and the rest of the pattern matches there. *)
Lemma rep_loop_greedy (f : N -> bool) (lo : nat) (hi : option nat)
    (k : state -> caps -> outcome) (tl : pystr) (cs : caps)
    (r : state * caps) :
  not_at f tl ->
  forall xs fuel count n pv,
    Forall (fun x => f x = true) xs ->
    lo <= count + List.length xs ->
    within (count + List.length xs) hi ->
    List.length xs < fuel ->
    k (mkState (n + List.length xs) (prev_after pv xs) tl) cs = Some r ->
    rep_loop (consume f) lo hi true k fuel count (mkState n pv (xs ++ tl)) cs
    = Some r.
Proof.
  intros Htl. induction xs as [|x xs IH]; intros fuel count n pv Hxs Hlo Hhi Hfuel Hk;
    (destruct fuel as [|fuel]; [simpl in Hfuel; lia|]); cbn [rep_loop].
  - simpl in *. rewrite Nat.add_0_r in *.
    assert (M : forall K, consume f K (mkState n pv tl) cs = None).
    { intros K. unfold consume, step. cbn [rest].
      destruct tl as [|y tl]; [reflexivity|]. simpl in Htl. now rewrite Htl. }
    rewrite M. apply Nat.leb_le in Hlo. rewrite Hlo.
    destruct (below count hi); exact Hk.
  - inversion Hxs as [|? ? Hx Hxs']; subst. simpl in Hlo, Hhi, Hfuel, Hk.
    assert (B : below count hi = true).
    { destruct hi as [h|]; [|reflexivity]. simpl in *. apply Nat.ltb_lt. lia. }
    rewrite B. unfold consume at 1, step. cbn [rest app pos]. rewrite Hx.
    replace (Nat.ltb n (S n)) with true by (symmetry; apply Nat.ltb_lt; lia).
    cbn [orb]. rewrite (IH fuel (S count) (S n) (Some x)); try assumption;
      try lia; try reflexivity.
    + destruct hi; simpl in *; [lia|exact I].
    + rewrite <- Hk. f_equal. f_equal. lia.
Qed.

(** A repeat that needs an iteration fails where the test fails. *)
Lemma rep_loop_none (f : N -> bool) (lo : nat) (hi : option nat)
    (greedy : bool) (k : state -> caps -> outcome) (fuel : nat)
    (n : nat) (pv : option N) (tl : pystr) (cs : caps) :
  not_at f tl -> 0 < lo ->
  rep_loop (consume f) lo hi greedy k fuel 0 (mkState n pv tl) cs = None.
Proof.
  intros Htl Hlo. destruct fuel as [|fuel]; [reflexivity|]. cbn [rep_loop].
  assert (M : forall K, consume f K (mkState n pv tl) cs = None).
  { intros K. unfold consume, step. cbn [rest].
    destruct tl as [|y tl]; [reflexivity|]. simpl in Htl. now rewrite Htl. }
  rewrite M.
  replace (Nat.leb lo 0) with false by (symmetry; apply Nat.leb_gt; lia).
  destruct greedy, (below 0 hi); reflexivity.
Qed.

(** ** Keys: the two substitutions of [_normalize_key] *)

(** The code points a normalized key is made of. *)
Definition keyc (c : N) : bool :=
  in_range c 97 122 || in_range c 48 57 || (95 =? c)%N.

Definition is_us (c : N) : bool := (95 =? c)%N.

Definition to_key_char (c : N) : N := if keyc c then c else 95%N.

(** Runs of underscores made one underscore; [in_run] says that the code
    point before was an underscore. *)
Fixpoint collapse (in_run : bool) (s : pystr) : pystr :=
  match s with
  | [] => []
  | c :: s' =>
      if is_us c then (if in_run then collapse true s' else 95%N :: collapse true s')
      else c :: collapse false s'
  end.

Lemma is_us_eq (c : N) : is_us c = true -> c = 95%N.
Proof. unfold is_us. intros H. apply N.eqb_eq in H. congruence. Qed.

Lemma non_key_chars_eq :
  NON_KEY_CHARS
  = mkPattern (CharSet true [IRange 97 122; IRange 48 57; IChar 95]) 0 [] false.
Proof. vm_compute. reflexivity. Qed.

Lemma underscore_run_eq :
  UNDERSCORE_RUN = mkPattern (Rep 1 None true (Chr 95)) 0 [] false.
Proof. vm_compute. reflexivity. Qed.

Lemma sub_non_key_chars (s : pystr) :
  Re.sub NON_KEY_CHARS (str "_") s = map to_key_char s.
Proof.
  rewrite non_key_chars_eq, sub_charset.
  induction s as [|c s IH]; [reflexivity|]. cbn [flat_map map]. rewrite IH.
  assert (E : set_match false true [IRange 97 122; IRange 48 57; IChar 95] c
              = negb (keyc c)).
  { unfold set_match, keyc. cbn [existsb item_match char_eq andb].
    now rewrite !orb_false_r, orb_assoc. }
  rewrite E. unfold to_key_char. destruct (keyc c); reflexivity.
Qed.

Lemma lstrip_by_span (f : N -> bool) (s : pystr) :
  exists xs, s = xs ++ lstrip_by f s
             /\ Forall (fun x => f x = true) xs
             /\ not_at f (lstrip_by f s).
Proof.
  induction s as [|c s [xs [H1 [H2 H3]]]]; simpl.
  - exists []. repeat split. constructor.
  - destruct (f c) eqn:E.
    + exists (c :: xs). simpl. repeat split; [now f_equal|now constructor|exact H3].
    + exists []. repeat split; [constructor|exact E].
Qed.

Lemma lstrip_by_not_at (f : N -> bool) (s : pystr) :
  not_at f s -> lstrip_by f s = s.
Proof. destruct s as [|c s]; simpl; [reflexivity|]. now intros ->. Qed.

Lemma match_underscores (n : nat) (pv : option N) (xs tl : pystr) :
  xs <> [] -> Forall (fun x => is_us x = true) xs -> not_at is_us tl ->
  match_here (mkPattern (Rep 1 None true (Chr 95)) 0 [] false)
    (mkState n pv (xs ++ tl))
  = Some (mkMatch n (mkState (n + List.length xs) (prev_after pv xs) tl) []).
Proof.
  intros Hne Hxs Htl. unfold match_here. cbn [p_icase p_re run rest pos].
  change (run false (Chr 95)) with (consume is_us).
  rewrite (rep_loop_greedy is_us 1 None accept tl []
             (mkState (n + List.length xs) (prev_after pv xs) tl, []) Htl);
    try assumption; try reflexivity.
  - destruct xs; [contradiction|simpl; lia].
  - rewrite length_app. lia.
Qed.

Lemma match_no_underscore (n : nat) (pv : option N) (tl : pystr) :
  not_at is_us tl ->
  match_here (mkPattern (Rep 1 None true (Chr 95)) 0 [] false) (mkState n pv tl)
  = None.
Proof.
  intros Htl. unfold match_here. cbn [p_icase p_re run rest pos].
  change (run false (Chr 95)) with (consume is_us).
  now rewrite rep_loop_none by (assumption || lia).
Qed.

Lemma collapse_run (xs tl : pystr) :
  Forall (fun x => is_us x = true) xs ->
  collapse true (xs ++ tl) = collapse true tl.
Proof.
  induction 1 as [|x xs Hx _ IH]; [reflexivity|]. simpl. now rewrite Hx.
Qed.

Lemma collapse_not_at (tl : pystr) :
  not_at is_us tl -> collapse true tl = collapse false tl.
Proof. destruct tl as [|c tl]; simpl; [reflexivity|]. now intros ->. Qed.

Lemma sub_underscore_run (s : pystr) :
  Re.sub UNDERSCORE_RUN (str "_") s = collapse false s.
Proof.
  rewrite underscore_run_eq. unfold sub.
  set (p := mkPattern (Rep 1 None true (Chr 95)) 0 [] false).
  assert (G : forall L s fuel n pv, List.length s <= L -> List.length s < fuel ->
              sub_at fuel p (str "_") (mkState n pv s) = collapse false s).
  { clear s. induction L as [|L IH]; intros s fuel n pv HL Hfuel.
    - destruct s; [|simpl in HL; lia]. apply sub_at_nil.
      now apply match_no_underscore.
    - destruct s as [|c s]; [apply sub_at_nil; now apply match_no_underscore|].
      destruct fuel as [|fuel]; [simpl in Hfuel; lia|]. simpl in HL, Hfuel.
      cbn [collapse]. destruct (is_us c) eqn:E.
      + destruct (lstrip_by_span is_us s) as [xs [Hs [Hxs Htl]]].
        set (tl := lstrip_by is_us s) in *.
        assert (Hlen : List.length s = List.length xs + List.length tl)
          by (rewrite Hs at 1; apply length_app).
        rewrite Hs at 1. change (c :: xs ++ tl) with ((c :: xs) ++ tl).
        rewrite (sub_at_hit fuel p (str "_") _ _
                   (match_underscores n pv (c :: xs) tl
                      ltac:(discriminate) ltac:(now constructor) Htl)).
        * cbn [m_stop]. rewrite IH by lia.
          apply is_us_eq in E. subst c.
          rewrite Hs at 1. rewrite collapse_run by assumption.
          now rewrite collapse_not_at.
        * unfold m_end. cbn. lia.
      + rewrite sub_at_miss by (apply match_no_underscore; exact E).
        now rewrite IH by lia. }
  apply (G (List.length s)); lia.
Qed.

(** ** Keys: normal form *)

(** No two underscores side by side. *)
Fixpoint nd (s : pystr) : bool :=
  match s with
  | [] => true
  | c :: t =>
      match t with
      | [] => true
      | d :: _ => negb (is_us c && is_us d)
      end && nd t
  end.

Definition head_ok (s : pystr) : bool :=
  match s with
  | [] => true
  | c :: _ => negb (is_us c)
  end.

(** The form [_normalize_key] gives to a segment: lower-case letters,
    digits and single underscores, none at either end. *)
Definition normalb (s : pystr) : bool :=
  forallb keyc s && nd s && head_ok s && head_ok (rev s).

Lemma head_ok_not_at (s : pystr) : head_ok s = true <-> not_at is_us s.
Proof.
  destruct s as [|c s]; simpl; [tauto|]. destruct (is_us c); simpl; split;
    congruence.
Qed.

Lemma normalb_parts (s : pystr) :
  normalb s = true <->
  forallb keyc s = true /\ nd s = true /\ head_ok s = true
  /\ head_ok (rev s) = true.
Proof. unfold normalb. rewrite !andb_true_iff. tauto. Qed.

Lemma nd_app_r (a b : pystr) : nd (a ++ b) = true -> nd b = true.
Proof.
  induction a as [|c a IH]; [trivial|]. cbn [app nd].
  rewrite andb_true_iff. tauto.
Qed.

Lemma nd_app_l (a b : pystr) : nd (a ++ b) = true -> nd a = true.
Proof.
  induction a as [|c a IH]; [reflexivity|]. cbn [app nd].
  rewrite !andb_true_iff. intros [H1 H2]. split; [|now apply IH].
  destruct a as [|d a]; [reflexivity|exact H1].
Qed.

Lemma nd_cons (c : N) (t : pystr) :
  nd (c :: t) = true <-> (is_us c = true -> head_ok t = true) /\ nd t = true.
Proof.
  cbn [nd]. rewrite andb_true_iff. destruct t as [|d t]; cbn [head_ok].
  - intuition.
  - destruct (is_us c), (is_us d); simpl; intuition congruence.
Qed.

Lemma nd_app (a b : pystr) :
  nd a = true -> nd b = true ->
  head_ok (rev a) = true \/ head_ok b = true ->
  nd (a ++ b) = true.
Proof.
  induction a as [|c a IH]; intros Ha Hb Hj; [exact Hb|].
  cbn [app]. apply nd_cons in Ha as [Hc Ha]. apply nd_cons. split.
  - intros Hus. destruct a as [|d a].
    + simpl in *. destruct Hj as [Hj|Hj]; [|exact Hj]. now rewrite Hus in Hj.
    + now apply Hc.
  - apply IH; [exact Ha|exact Hb|]. destruct Hj as [Hj|Hj]; [|now right].
    destruct a as [|d a]; [now left|]. left.
    cbn [rev] in Hj. cbn [rev].
    destruct (rev a ++ [d]) eqn:E; [now destruct (rev a)|]. exact Hj.
Qed.

Lemma collapse_forall (P : N -> bool) (b : bool) (s : pystr) :
  P 95%N = true -> forallb P s = true -> forallb P (collapse b s) = true.
Proof.
  intros H95. revert b. induction s as [|c s IH]; intros b; [trivial|].
  cbn [forallb collapse]. rewrite andb_true_iff. intros [Hc Hs].
  destruct (is_us c), b; cbn [forallb]; rewrite ?H95, ?Hc; cbn [andb];
    now apply IH.
Qed.

Lemma collapse_nd_out (s : pystr) :
  forall b, nd (collapse b s) = true
            /\ (b = true -> head_ok (collapse b s) = true).
Proof.
  induction s as [|c s IH]; intros b; [now split|]. cbn [collapse].
  destruct (is_us c) eqn:E.
  - destruct b.
    + apply IH.
    + split; [|discriminate]. apply nd_cons. split; [intros _|]; now apply IH.
  - split.
    + apply nd_cons. split; [congruence|apply IH].
    + intros _. simpl. now rewrite E.
Qed.


Lemma strip_by_ext (f g : N -> bool) (s : pystr) :
  (forall c, f c = g c) -> strip_by f s = strip_by g s.
Proof.
  intros H. assert (L : forall t, lstrip_by f t = lstrip_by g t).
  { induction t as [|c t IH]; simpl; [reflexivity|]. now rewrite H, IH. }
  unfold strip_by. now rewrite !L.
Qed.

Lemma strip_underscores (s : pystr) :
  strip_chars (str "_") s = strip_by is_us s.
Proof.
  apply strip_by_ext. intros c. cbn. rewrite orb_false_r.
  unfold is_us. apply N.eqb_sym.
Qed.

(** What [strip_by] leaves is a piece of the string with neither end
    passing the test. *)
Lemma strip_by_spec (f : N -> bool) (s : pystr) :
  exists p q, s = p ++ strip_by f s ++ q
              /\ not_at f (strip_by f s) /\ not_at f (rev (strip_by f s)).
Proof.
  unfold strip_by.
  destruct (lstrip_by_span f s) as [p [Hp [_ Ha]]].
  set (a := lstrip_by f s) in *.
  destruct (lstrip_by_span f (rev a)) as [q [Hq [_ Hb]]].
  set (b := lstrip_by f (rev a)) in *.
  assert (Ea : a = rev b ++ rev q).
  { rewrite <- (rev_involutive a), Hq, rev_app_distr. reflexivity. }
  exists p, (rev q). split; [now rewrite <- Ea|]. split.
  - destruct (rev b) as [|c t] eqn:E; [exact I|].
    rewrite Ea in Ha. exact Ha.
  - now rewrite rev_involutive.
Qed.

Lemma forallb_app_parts (P : N -> bool) (a b : pystr) :
  forallb P (a ++ b) = true -> forallb P a = true /\ forallb P b = true.
Proof. rewrite forallb_app, andb_true_iff. tauto. Qed.



Lemma to_key_char_keyc (s : pystr) : forallb keyc (map to_key_char s) = true.
Proof.
  induction s as [|c s IH]; [reflexivity|]. cbn [map forallb]. rewrite IH.
  unfold to_key_char. destruct (keyc c) eqn:E; [now rewrite E|reflexivity].
Qed.

Lemma normalize_part_eq (s : pystr) :
  normalize_part s = strip_by is_us (collapse false (map to_key_char (lower s))).
Proof.
  unfold normalize_part.
  now rewrite strip_underscores, sub_underscore_run, sub_non_key_chars.
Qed.


(** [_normalize_key] puts a segment in normal form. *)
Lemma normalize_part_normal (s : pystr) : normalb (normalize_part s) = true.
Proof.
  rewrite normalize_part_eq.
  set (t := collapse false (map to_key_char (lower s))).
  assert (Hk : forallb keyc t = true)
    by (apply collapse_forall; [reflexivity|apply to_key_char_keyc]).
  assert (Hnd : nd t = true) by apply collapse_nd_out.
  destruct (strip_by_spec is_us t) as [p [q [Ht [Hh Hl]]]].
  set (u := strip_by is_us t) in *.
  apply normalb_parts. rewrite Ht in Hk, Hnd. repeat split.
  - apply forallb_app_parts in Hk as [_ Hk].
    now apply forallb_app_parts in Hk as [Hk _].
  - apply nd_app_r in Hnd. now apply nd_app_l in Hnd.
  - now apply head_ok_not_at.
  - now apply head_ok_not_at.
Qed.

(** ** Keys: the synonym table *)

Lemma strip_prefix_app (p s rest : pystr) :
  strip_prefix p s = Some rest -> s = p ++ rest.
Proof.
  revert s. induction p as [|a p IH]; intros s H; simpl in H.
  - now injection H as <-.
  - destruct s as [|b s]; [discriminate|].
    destruct (N.eqb_spec a b); [|discriminate]. subst. simpl. f_equal.
    now apply IH.
Qed.

Lemma replace_from_nil (fuel : nat) (old new : pystr) :
  replace_from fuel old new [] = [].
Proof. destruct fuel; reflexivity. Qed.

Lemma replace_from_nonempty (fuel : nat) (old new s : pystr) :
  new <> [] -> s <> [] -> replace_from fuel old new s <> [].
Proof.
  intros Hn Hs. destruct fuel as [|fuel]; [exact Hs|].
  destruct s as [|c s]; [contradiction|]. cbn [replace_from].
  destruct (strip_prefix old (c :: s)); [|discriminate].
  destruct new; [contradiction|discriminate].
Qed.

Lemma replace_from_forall (P : N -> bool) (old new : pystr) :
  forallb P new = true ->
  forall fuel s, forallb P s = true ->
                 forallb P (replace_from fuel old new s) = true.
Proof.
  intros Hn. induction fuel as [|fuel IH]; intros s Hs; [exact Hs|].
  destruct s as [|c s]; [reflexivity|]. cbn [replace_from].
  destruct (strip_prefix old (c :: s)) as [rest|] eqn:E.
  - apply strip_prefix_app in E. rewrite E in Hs.
    apply forallb_app_parts in Hs as [_ Hs].
    rewrite forallb_app, Hn. now apply IH.
  - cbn [forallb] in *. apply andb_true_iff in Hs as [Hc Hs].
    rewrite Hc. now apply IH.
Qed.

Lemma replace_from_nd (old new : pystr) :
  nd new = true -> head_ok new = true -> head_ok (rev new) = true ->
  new <> [] ->
  forall fuel s,
    nd s = true ->
    nd (replace_from fuel old new s) = true
    /\ (head_ok s = true -> head_ok (replace_from fuel old new s) = true).
Proof.
  intros Hnd Hh Hl Hne. induction fuel as [|fuel IH]; intros s Hs; [now split|].
  destruct s as [|c s]; [now split|]. cbn [replace_from].
  destruct (strip_prefix old (c :: s)) as [rest|] eqn:E.
  - apply strip_prefix_app in E. rewrite E in Hs. apply nd_app_r in Hs.
    destruct (IH rest Hs) as [IH1 _]. split.
    + apply nd_app; auto.
    + intros _. destruct new; [contradiction|exact Hh].
  - apply nd_cons in Hs as [Hc Hs]. destruct (IH s Hs) as [IH1 IH2]. split.
    + apply nd_cons. split; [|exact IH1]. intros Hus. apply IH2. now apply Hc.
    + trivial.
Qed.

Lemma head_ok_rev_app (a b : pystr) :
  b <> [] -> head_ok (rev (a ++ b)) = head_ok (rev b).
Proof.
  intros Hb. rewrite rev_app_distr.
  destruct (rev b) as [|c t] eqn:E; [|reflexivity].
  apply (f_equal (@rev N)) in E. rewrite rev_involutive in E. contradiction.
Qed.

Lemma replace_from_last (old new : pystr) :
  head_ok (rev new) = true -> new <> [] ->
  forall fuel s,
    head_ok (rev s) = true ->
    head_ok (rev (replace_from fuel old new s)) = true.
Proof.
  intros Hl Hne. induction fuel as [|fuel IH]; intros s Hs; [exact Hs|].
  destruct s as [|c s]; [reflexivity|]. cbn [replace_from].
  destruct (strip_prefix old (c :: s)) as [rest|] eqn:E.
  - apply strip_prefix_app in E. destruct rest as [|d rest].
    + now rewrite replace_from_nil, app_nil_r.
    + rewrite head_ok_rev_app by (apply replace_from_nonempty; [exact Hne|discriminate]).
      apply IH. rewrite E in Hs.
      now rewrite head_ok_rev_app in Hs by discriminate.
  - destruct s as [|d s]; [now rewrite replace_from_nil|].
    change (c :: replace_from fuel old new (d :: s))
      with ([c] ++ replace_from fuel old new (d :: s)).
    rewrite head_ok_rev_app by (apply replace_from_nonempty; [exact Hne|discriminate]).
    apply IH. change (c :: d :: s) with ([c] ++ d :: s) in Hs.
    now rewrite head_ok_rev_app in Hs by discriminate.
Qed.

(** Replacing a synonym by a canonical term keeps the normal form. *)
Lemma replace_normal (s old new : pystr) :
  normalb s = true -> normalb new = true -> new <> [] -> old <> [] ->
  normalb (replace s old new) = true.
Proof.
  intros Hs Hn Hne Ho. apply normalb_parts in Hs as [S1 [S2 [S3 S4]]].
  apply normalb_parts in Hn as [N1 [N2 [N3 N4]]].
  unfold replace. destruct old as [|o old]; [contradiction|].
  apply normalb_parts. repeat split.
  - now apply replace_from_forall.
  - now apply replace_from_nd.
  - now apply replace_from_nd.
  - now apply replace_from_last.
Qed.

Definition nonempty (s : pystr) : bool := negb (PyStr.eqb s []).

Lemma nonempty_neq (s : pystr) : nonempty s = true -> s <> [].
Proof. destruct s; [discriminate|discriminate]. Qed.

(** What is asked of an entry of [TERM_SYNONYMS]. *)
Definition entry_ok (e : pystr * list pystr) : bool :=
  normalb (fst e) && nonempty (fst e) && forallb nonempty (snd e).

Lemma term_synonyms_ok : forallb entry_ok TERM_SYNONYMS = true.
Proof. vm_compute. reflexivity. Qed.

Lemma apply_entry_normal (field : pystr) (e : pystr * list pystr) :
  entry_ok e = true -> normalb field = true ->
  normalb (apply_entry field e) = true.
Proof.
  destruct e as [canonical synonyms]. unfold entry_ok, apply_entry. cbn [fst snd].
  rewrite !andb_true_iff. intros [[H1 H2] H3] Hf.
  destruct (existsb _ synonyms); [|exact Hf].
  destruct (find _ synonyms) as [synonym|] eqn:E; [|exact Hf].
  apply find_some in E as [Hin _].
  apply replace_normal; try assumption.
  - now apply nonempty_neq.
  - apply nonempty_neq. rewrite forallb_forall in H3. now apply H3.
Qed.

Lemma apply_synonyms_normal (field : pystr) :
  normalb field = true -> normalb (apply_synonyms field) = true.
Proof.
  unfold apply_synonyms. generalize term_synonyms_ok.
  generalize TERM_SYNONYMS as table. intros table. revert field.
  induction table as [|e table IH]; intros field Hok Hf; [exact Hf|].
  cbn [fold_left forallb] in *. apply andb_true_iff in Hok as [He Hok].
  apply IH; [exact Hok|]. now apply apply_entry_normal.
Qed.

(** ** Keys: the dot between section and field *)





(** ** Keys: idempotence *)

(** The field segment of a key: what follows the first dot, or the whole
    key when it has no dot. *)
Definition field_part (key : pystr) : pystr :=
  if contains key (str ".") then
    match split_once (str ".") key with
    | Some (_, field) => field
    | None => key
    end
  else key.

(** The synonym table has nothing left to rewrite in the field of the
    key. *)
Definition synonyms_settled (key : pystr) : Prop :=
  apply_synonyms (field_part key) = field_part key.



(** The fields named with the claim are settled after one pass. *)
Example normalize_key_settled_examples :
  Forall (fun k => synonyms_settled (normalize_key (str k)))
    [ "eligibility.credit_score"; "eligibility.cibil"; "repayment.term";
      "repayment.loan_term"; "prepayment_and_foreclosure.foreclosure";
      "fees_and_charges.admin_fee"; "interest_rates.roi" ].
Proof. repeat constructor; vm_compute; reflexivity. Qed.


(** ** Values: the compound fee form *)

Definition ascii_digit (c : N) : bool := in_range c 48 57.

Definition amount_char (c : N) : bool := in_range c 48 57 || (44 =? c)%N.

(** The text the group [pct] takes: digits, then possibly a point and
    digits. *)
Definition is_percentage (x : pystr) : bool :=
  match x with
  | [] => false
  | c :: _ =>
      ascii_digit c
      && match lstrip_by ascii_digit x with
         | [] => true
         | d :: fs => (46 =? d)%N && nonempty fs && forallb ascii_digit fs
         end
  end.

(** The text the group [amt] takes: digits and commas. *)
Definition is_amount (y : pystr) : bool :=
  nonempty y && forallb amount_char y.

Lemma or_else_left (a : outcome) (b : Datatypes.unit -> outcome)
    (r : state * caps) :
  a = Some r -> or_else a b = Some r.
Proof. now intros ->. Qed.

Lemma forallb_Forall (f : N -> bool) (s : pystr) :
  forallb f s = true -> Forall (fun x => f x = true) s.
Proof. intros H. apply Forall_forall. now apply forallb_forall. Qed.

Lemma prev_after_app (pv : option N) (xs : pystr) (x : N) :
  prev_after pv (xs ++ [x]) = Some x.
Proof. unfold prev_after. now rewrite fold_left_app. Qed.

Definition digit_set : N -> bool := set_match true false [IRange 48 57].
Definition space_set : N -> bool := set_match true false [ISpace].
Definition amount_set : N -> bool := set_match true false [IRange 48 57; IChar 44].

Lemma digit_set_digit (c : N) : ascii_digit c = true -> digit_set c = true.
Proof.
  unfold digit_set, set_match, ascii_digit. cbn [existsb item_match].
  intros H. rewrite H. reflexivity.
Qed.

Lemma amount_set_char (c : N) : amount_char c = true -> amount_set c = true.
Proof.
  unfold amount_set, set_match, amount_char. cbn [existsb item_match].
  rewrite orb_true_iff. intros [H|H]; [rewrite H; reflexivity|].
  apply N.eqb_eq in H. subst c. reflexivity.
Qed.

Lemma isspace_cases (c : N) :
  isspace c = true ->
  (9 <= c <= 13 \/ 28 <= c <= 32 \/ c = 133 \/ c = 160 \/ c = 5760
   \/ 8192 <= c <= 8202 \/ 8232 <= c <= 8233 \/ c = 8239 \/ c = 8287
   \/ c = 12288)%N.
Proof.
  unfold isspace, in_range.
  rewrite !orb_true_iff, !andb_true_iff, !N.leb_le, !N.eqb_eq. tauto.
Qed.

Lemma amount_char_not_space (c : N) : amount_char c = true -> space_set c = false.
Proof.
  unfold amount_char, in_range.
  rewrite orb_true_iff, andb_true_iff, !N.leb_le, N.eqb_eq.
  intros H. unfold space_set, set_match. cbn [existsb item_match xorb].
  rewrite orb_false_r. destruct (isspace c) eqn:E; [|reflexivity].
  apply isspace_cases in E. lia.
Qed.

(** The shape of a percentage text. *)
Lemma is_percentage_shape (x : pystr) :
  is_percentage x = true ->
  exists ds, ds <> [] /\ Forall (fun c => digit_set c = true) ds
    /\ (x = ds
        \/ exists fs, fs <> [] /\ Forall (fun c => digit_set c = true) fs
                      /\ x = ds ++ 46%N :: fs).
Proof.
  unfold is_percentage. destruct x as [|c x]; [discriminate|].
  rewrite andb_true_iff. intros [Hc H].
  destruct (lstrip_by_span ascii_digit (c :: x)) as [ds [Hx [Hds Hfr]]].
  exists ds. split; [|split].
  - intros ->. cbn [app] in Hx. rewrite <- Hx in Hfr. cbn [not_at] in Hfr.
    congruence.
  - eapply Forall_impl; [|exact Hds]. intros a. apply digit_set_digit.
  - destruct (lstrip_by ascii_digit (c :: x)) as [|d fs].
    + left. now rewrite app_nil_r in Hx.
    + right. rewrite !andb_true_iff in H. destruct H as [[Hd Hne] Hfs].
      apply N.eqb_eq in Hd. subst d. exists fs. repeat split.
      * now apply nonempty_neq.
      * eapply Forall_impl; [|apply forallb_Forall; exact Hfs].
        intros a. apply digit_set_digit.
      * exact Hx.
Qed.

(** The group [pct] of the two compound patterns. *)
Definition PCT_GROUP : re :=
  Grp 1
    (Cat (Rep 1 None true (CharSet false [IRange 48 57]))
       (Rep 0 (Some 1) true
          (Cat (Chr 46) (Rep 1 None true (CharSet false [IRange 48 57]))))).

(** Before a percent sign the group takes the whole percentage text. *)
Lemma run_pct_group (x tl : pystr) (k : state -> caps -> outcome)
    (n : nat) (pv : option N) (cs : caps) (r : state * caps) :
  is_percentage x = true ->
  k (mkState (n + List.length x) (prev_after pv x) (37%N :: tl))
    ((1, (n, n + List.length x)) :: cs) = Some r ->
  run true PCT_GROUP k (mkState n pv (x ++ 37%N :: tl)) cs = Some r.
Proof.
  intros Hx Hk. apply is_percentage_shape in Hx as [ds [Hne [Hds Hx]]].
  unfold PCT_GROUP. cbn [run pos rest].
  change (run true (CharSet false [IRange 48 57])) with (consume digit_set).
  destruct Hx as [->|[fs [Hfne [Hfs ->]]]].
  - apply rep_loop_greedy; try assumption; try exact I; try reflexivity.
    + destruct ds; [contradiction|simpl; lia].
    + rewrite length_app. lia.
  - rewrite <- app_assoc. cbn [app].
    apply rep_loop_greedy; try assumption; try exact I; try reflexivity.
    + destruct ds; [contradiction|simpl; lia].
    + rewrite !length_app. lia.
    + cbn [rest]. rewrite Nat.add_0_r, Nat.add_1_r.
      cbn [rep_loop below Nat.ltb Nat.leb]. apply or_else_left.
      unfold consume at 1. cbn [step rest pos prev].
      change (char_eq true 46 46) with true. cbn iota.
      apply rep_loop_greedy; try assumption; try exact I; try reflexivity.
      * destruct fs; [contradiction|simpl; lia].
      * rewrite !length_app. lia.
      * cbn [pos Nat.add List.length].
        replace (Nat.leb (n + List.length ds) (n + List.length ds + List.length fs))
          with true by (symmetry; apply Nat.leb_le; lia).
        cbn [orb rep_loop below Nat.ltb Nat.leb or_else pos].
        rewrite <- Hk. unfold prev_after. rewrite length_app, fold_left_app.
        cbn [List.length fold_left].
        replace (n + (List.length ds + S (List.length fs)))
          with (S (n + List.length ds + List.length fs)) by lia.
        reflexivity.
Qed.

Lemma match_here_intro (p : pattern) (st : state) (r : state * caps) :
  run (p_icase p) (p_re p) accept st [] = Some r ->
  match_here p st = Some (mkMatch (pos st) (fst r) (snd r)).
Proof. unfold match_here. intros ->. now destruct r. Qed.

Lemma slice_eq (s pre mid post : pystr) (a b : nat) :
  s = pre ++ mid ++ post -> a = List.length pre ->
  b = List.length pre + List.length mid ->
  slice s a b = mid.
Proof.
  intros -> -> ->. unfold slice.
  rewrite skipn_app, skipn_all, Nat.sub_diag. cbn [skipn app].
  replace (List.length pre + List.length mid - List.length pre)
    with (List.length mid + 0) by lia.
  now rewrite firstn_app_2, firstn_O, app_nil_r.
Qed.

(** What follows the group [pct] in [WHICHEVER]. *)
Definition WHICHEVER_TAIL : re :=
  Eval vm_compute in
    match p_re WHICHEVER with
    | Cat _ tail => tail
    | _ => Eps
    end.

Lemma whichever_eq :
  WHICHEVER
  = mkPattern (Cat PCT_GROUP WHICHEVER_TAIL) 3
      [(str "which", 3); (str "amt", 2); (str "pct", 1)] true.
Proof. vm_compute. reflexivity. Qed.

(** One literal code point of the pattern against the next code point of
    the text. *)
Ltac lit :=
  unfold consume at 1; cbn [step rest pos prev];
  match goal with
  | |- context [char_eq ?i ?a ?b] =>
      let v := eval vm_compute in (char_eq i a b) in
      change (char_eq i a b) with v
  end;
  cbn iota.

(** A greedy repeat of a set over the run [xs]. *)
Ltac greedy f taken :=
  eapply (rep_loop_greedy f) with (xs := taken);
  [ try reflexivity
  | try (repeat constructor; fail)
  | try (cbn [List.length]; lia)
  | exact I
  | try (rewrite ?length_app; cbn [rest List.length]; rewrite ?length_app;
         cbn [List.length]; lia)
  | cbn [List.length prev_after fold_left Nat.add] ].

Lemma match_whichever_higher (x y : pystr) :
  is_percentage x = true -> is_amount y = true ->
  exists m,
    match_ WHICHEVER (x ++ str "% or ₹" ++ y ++ str " whichever is higher")
    = Some m
    /\ group (x ++ str "% or ₹" ++ y ++ str " whichever is higher") m 1 = Some x
    /\ group (x ++ str "% or ₹" ++ y ++ str " whichever is higher") m 2 = Some y
    /\ group (x ++ str "% or ₹" ++ y ++ str " whichever is higher") m 3
       = Some (str "higher").
Proof.
  intros Hx Hy. unfold is_amount in Hy. apply andb_true_iff in Hy as [Hne Hy].
  destruct y as [|y0 y]; [discriminate|]. clear Hne.
  pose proof (forallb_Forall _ _ Hy) as Hys.
  cbn [forallb] in Hy. apply andb_true_iff in Hy as [Hy0 _].
  eval_str_goal. cbn [app].
  eexists. split.
  - unfold match_. apply match_here_intro. rewrite whichever_eq.
    cbn [p_icase p_re]. cbn [run].
    apply run_pct_group; [exact Hx|].
    unfold WHICHEVER_TAIL. cbn [run pos rest].
    lit.
    greedy space_set [32%N]. cbn beta.
    lit. lit.
    greedy space_set [32%N]. cbn beta.
    apply or_else_left. lit.
    eapply (rep_loop_greedy space_set) with (xs := @nil N);
      [ now apply amount_char_not_space | constructor | cbn [List.length]; lia
      | exact I | cbn [List.length]; lia | cbn [List.length prev_after fold_left] ].
    cbn beta.
    eapply (rep_loop_greedy amount_set) with (xs := y0 :: y);
      [ reflexivity
      | eapply Forall_impl; [|exact Hys]; intros a; apply amount_set_char
      | cbn [List.length]; lia | exact I
      | cbn [rest List.length]; rewrite length_app; cbn [List.length]; lia
      | ].
    cbn beta.
    greedy space_set [32%N]. cbn beta.
    do 9 lit. lit. lit. lit.
    greedy space_set [32%N]. cbn beta.
    apply or_else_left. do 6 lit.
    reflexivity.
  - unfold group. cbn [m_caps snd cap_lookup Nat.eqb pos]. repeat split; f_equal.
    + apply slice_eq with (pre := []) (post := skipn (List.length x)
        (x ++ 37%N :: 32%N :: 111%N :: 114%N :: 32%N :: 8377%N :: y0 :: y
           ++ str " whichever is higher"));
        [rewrite skipn_app, skipn_all, Nat.sub_diag; reflexivity
        |reflexivity|cbn [List.length]; lia].
    + apply slice_eq with (pre := x ++ str "% or ₹") (post := str " whichever is higher");
        eval_str_goal;
        [rewrite <- app_assoc; reflexivity
        |rewrite length_app; cbn [List.length]; lia
        |rewrite length_app; cbn [List.length]; lia].
    + apply slice_eq
        with (pre := x ++ str "% or ₹" ++ (y0 :: y) ++ str " whichever is ")
             (post := []);
        eval_str_goal;
        [rewrite <- !app_assoc; reflexivity
        |rewrite !length_app; cbn [List.length]; rewrite ?length_app;
         cbn [List.length]; lia
        |rewrite !length_app; cbn [List.length]; rewrite ?length_app;
         cbn [List.length]; lia].
Qed.
Lemma match_whichever_lower (x y : pystr) :
  is_percentage x = true -> is_amount y = true ->
  exists m,
    match_ WHICHEVER (x ++ str "% or ₹" ++ y ++ str " whichever is lower")
    = Some m
    /\ group (x ++ str "% or ₹" ++ y ++ str " whichever is lower") m 1 = Some x
    /\ group (x ++ str "% or ₹" ++ y ++ str " whichever is lower") m 2 = Some y
    /\ group (x ++ str "% or ₹" ++ y ++ str " whichever is lower") m 3
       = Some (str "lower").
Proof.
  intros Hx Hy. unfold is_amount in Hy. apply andb_true_iff in Hy as [Hne Hy].
  destruct y as [|y0 y]; [discriminate|]. clear Hne.
  pose proof (forallb_Forall _ _ Hy) as Hys.
  cbn [forallb] in Hy. apply andb_true_iff in Hy as [Hy0 _].
  eval_str_goal. cbn [app].
  eexists. split.
  - unfold match_. apply match_here_intro. rewrite whichever_eq.
    cbn [p_icase p_re]. cbn [run].
    apply run_pct_group; [exact Hx|].
    unfold WHICHEVER_TAIL. cbn [run pos rest].
    lit.
    greedy space_set [32%N]. cbn beta.
    lit. lit.
    greedy space_set [32%N]. cbn beta.
    apply or_else_left. lit.
    eapply (rep_loop_greedy space_set) with (xs := @nil N);
      [ now apply amount_char_not_space | constructor | cbn [List.length]; lia
      | exact I | cbn [List.length]; lia | cbn [List.length prev_after fold_left] ].
    cbn beta.
    eapply (rep_loop_greedy amount_set) with (xs := y0 :: y);
      [ reflexivity
      | eapply Forall_impl; [|exact Hys]; intros a; apply amount_set_char
      | cbn [List.length]; lia | exact I
      | cbn [rest List.length]; rewrite length_app; cbn [List.length]; lia
      | ].
    cbn beta.
    greedy space_set [32%N]. cbn beta.
    do 9 lit. lit. lit. lit.
    greedy space_set [32%N]. cbn beta.
    lit. cbn [or_else]. do 5 lit.
    reflexivity.
  - unfold group. cbn [m_caps snd cap_lookup Nat.eqb pos]. repeat split; f_equal.
    + apply slice_eq with (pre := []) (post := skipn (List.length x)
        (x ++ 37%N :: 32%N :: 111%N :: 114%N :: 32%N :: 8377%N :: y0 :: y
           ++ str " whichever is lower"));
        [rewrite skipn_app, skipn_all, Nat.sub_diag; reflexivity
        |reflexivity|cbn [List.length]; lia].
    + apply slice_eq with (pre := x ++ str "% or ₹") (post := str " whichever is lower");
        eval_str_goal;
        [rewrite <- app_assoc; reflexivity
        |rewrite length_app; cbn [List.length]; lia
        |rewrite length_app; cbn [List.length]; lia].
    + apply slice_eq
        with (pre := x ++ str "% or ₹" ++ (y0 :: y) ++ str " whichever is ")
             (post := []);
        eval_str_goal;
        [rewrite <- !app_assoc; reflexivity
        |rewrite !length_app; cbn [List.length]; rewrite ?length_app;
         cbn [List.length]; lia
        |rewrite !length_app; cbn [List.length]; rewrite ?length_app;
         cbn [List.length]; lia].
Qed.

Lemma digit_not_space (c : N) : ascii_digit c = true -> isspace c = false.
Proof.
  unfold ascii_digit, in_range. rewrite andb_true_iff, !N.leb_le.
  intros H. destruct (isspace c) eqn:E; [|reflexivity].
  apply isspace_cases in E. lia.
Qed.

Lemma strip_fixed (s : pystr) :
  not_at isspace s -> not_at isspace (rev s) -> strip s = s.
Proof.
  intros H1 H2. unfold strip, strip_by.
  rewrite (lstrip_by_not_at _ _ H1), (lstrip_by_not_at _ _ H2).
  apply rev_involutive.
Qed.

Lemma group_named_whichever (v : pystr) (m : match_obj) :
  group_named WHICHEVER v m (str "pct") = group v m 1
  /\ group_named WHICHEVER v m (str "amt") = group v m 2
  /\ group_named WHICHEVER v m (str "which") = group v m 3.
Proof.
  unfold group_named. rewrite whichever_eq. cbn [p_names].
  repeat split; vm_compute name_lookup; reflexivity.
Qed.

(** The common part of the two cases of the compound fee mapping. *)
Lemma normalize_value_whichever (x y which key : pystr) (m : match_obj) :
  is_percentage x = true ->
  contains (lower key) (str "emi_currency") = false ->
  not_at isspace (rev which) -> which <> [] ->
  match_ WHICHEVER (x ++ str "% or ₹" ++ y ++ str " whichever is " ++ which)
  = Some m ->
  group (x ++ str "% or ₹" ++ y ++ str " whichever is " ++ which) m 1 = Some x ->
  group (x ++ str "% or ₹" ++ y ++ str " whichever is " ++ which) m 2 = Some y ->
  group (x ++ str "% or ₹" ++ y ++ str " whichever is " ++ which) m 3
  = Some which ->
  normalize_value (x ++ str "% or ₹" ++ y ++ str " whichever is " ++ which) key
  = x ++ str "% or ₹" ++ y ++ str " (use "
    ++ (if PyStr.eqb (lower which) (str "higher") then str "min" else str "max")
    ++ str ")".
Proof.
  intros Hx Hkey Hlast Hne Hm G1 G2 G3.
  set (v := x ++ str "% or ₹" ++ y ++ str " whichever is " ++ which) in *.
  assert (Hv : strip v = v).
  { apply strip_fixed.
    - unfold v. unfold is_percentage in Hx. destruct x as [|c x]; [discriminate|].
      apply andb_true_iff in Hx as [Hc _]. simpl. now apply digit_not_space.
    - unfold v. rewrite !app_assoc. rewrite rev_app_distr.
      destruct (rev which) as [|w ws] eqn:E.
      + apply (f_equal (@rev N)) in E. rewrite rev_involutive in E. contradiction.
      + exact Hlast. }
  assert (Hnil : PyStr.eqb v [] = false).
  { unfold v. destruct x; [discriminate|reflexivity]. }
  unfold normalize_value. rewrite Hnil, Hv, Hkey, Hm.
  destruct (group_named_whichever v m) as [N1 [N2 N3]].
  rewrite N1, N2, N3, G1, G2, G3. reflexivity.
Qed.

(** C4, as amended.  For a percentage text [x] and an amount text [y], and
    every key whose lower case does not contain [emi_currency], the
    compound form with [whichever is higher] is given the comparator [min]
    and the form with [whichever is lower] the comparator [max]. *)
Theorem C4_compound_fee_mapping (x y key : pystr) :
  is_percentage x = true ->
  is_amount y = true ->
  contains (lower key) (str "emi_currency") = false ->
  normalize_value (x ++ str "% or ₹" ++ y ++ str " whichever is higher") key
  = x ++ str "% or ₹" ++ y ++ str " (use min)"
  /\ normalize_value (x ++ str "% or ₹" ++ y ++ str " whichever is lower") key
     = x ++ str "% or ₹" ++ y ++ str " (use max)".
Proof.
  intros Hx Hy Hkey. split.
  - destruct (match_whichever_higher x y Hx Hy) as [m [Hm [G1 [G2 G3]]]].
    change (str " whichever is higher")
      with (str " whichever is " ++ str "higher") in *.
    rewrite (normalize_value_whichever x y (str "higher") key m);
      try assumption; try reflexivity; discriminate.
  - destruct (match_whichever_lower x y Hx Hy) as [m [Hm [G1 [G2 G3]]]].
    change (str " whichever is lower")
      with (str " whichever is " ++ str "lower") in *.
    rewrite (normalize_value_whichever x y (str "lower") key m);
      try assumption; try reflexivity; discriminate.
Qed.

Lemma C4_compound_fee_mapping_witness :
  normalize_value
    (str "1.50" ++ str "% or ₹" ++ str "4,500" ++ str " whichever is higher")
    (str "fees_and_charges.processing_fee")
  = str "1.50" ++ str "% or ₹" ++ str "4,500" ++ str " (use min)"
  /\ normalize_value
       (str "1.50" ++ str "% or ₹" ++ str "4,500" ++ str " whichever is lower")
       (str "fees_and_charges.processing_fee")
     = str "1.50" ++ str "% or ₹" ++ str "4,500" ++ str " (use max)".
Proof.
  apply (C4_compound_fee_mapping (str "1.50") (str "4,500")
           (str "fees_and_charges.processing_fee"));
    vm_compute; reflexivity.
Defined.

(** The instance the specification names. *)
Example compound_fee_instance :
  normalize_value (str "1.50% or ₹4,500 whichever is higher")
    (str "fees_and_charges.processing_fee")
  = str "1.50% or ₹4,500 (use min)".
Proof. vm_compute. reflexivity. Qed.

(** C4, counterexample.  The key is lower-cased before the test for
    [emi_currency]: a key written with capitals does not contain
    [emi_currency], and yet the compound form is answered with the rupee
    sign. *)
Lemma C4_capital_key_takes_currency_branch :
  contains (str "repayment.EMI_Currency") (str "emi_currency") = false
  /\ normalize_value (str "1.50% or ₹4,500 whichever is higher")
       (str "repayment.EMI_Currency")
     = str "₹".
Proof. vm_compute. split; reflexivity. Qed.

(** ** The matcher: what a match says about the text *)

Fixpoint power {A : Type} (n : nat) (R : A -> A -> Prop) (a b : A) : Prop :=
  match n with
  | O => b = a
  | S n' => exists m, R a m /\ power n' R m b
  end.

Definition config : Type := (state * caps)%type.

(** [sem ic r a b]: the expression [r] can take the matcher from the
    position and groups [a] to the position and groups [b].  The tests
    that look around the position ([^], [$], [\b]) are left out: the
    relation is an upper bound of what [run] does. *)
Fixpoint sem (ic : bool) (r : re) (a b : config) : Prop :=
  match r with
  | Eps | Bol | Eol | WordBoundary => b = a
  | Chr c =>
      exists x, step (fst a) = Some (x, fst b) /\ char_eq ic c x = true
                /\ snd b = snd a
  | Any => exists x, step (fst a) = Some (x, fst b) /\ snd b = snd a
  | CharSet negated items =>
      exists x, step (fst a) = Some (x, fst b)
                /\ set_match ic negated items x = true /\ snd b = snd a
  | Cat r1 r2 => exists m, sem ic r1 a m /\ sem ic r2 m b
  | Alt r1 r2 => sem ic r1 a b \/ sem ic r2 a b
  | Grp i r1 =>
      exists cs, sem ic r1 a (fst b, cs)
                 /\ snd b = (i, (pos (fst a), pos (fst b))) :: cs
  | Rep lo hi _ r1 =>
      exists n, lo <= n /\ within n hi /\ power n (sem ic r1) a b
  end.

Definition sound (R : config -> config -> Prop)
    (body : (state -> caps -> outcome) -> state -> caps -> outcome) : Prop :=
  forall k st cs res,
    body k st cs = Some res ->
    exists b, R (st, cs) b /\ k (fst b) (snd b) = Some res.

Lemma consume_sound (f : N -> bool) (k : state -> caps -> outcome)
    (st : state) (cs : caps) (res : config) :
  consume f k st cs = Some res ->
  exists x st', step st = Some (x, st') /\ f x = true /\ k st' cs = Some res.
Proof.
  unfold consume. destruct (step st) as [[x st']|]; [|discriminate].
  destruct (f x) eqn:E; [|discriminate]. intros H. now exists x, st'.
Qed.

Lemma or_else_cases (a : outcome) (b : Datatypes.unit -> outcome) (res : config) :
  or_else a b = Some res -> a = Some res \/ b tt = Some res.
Proof. destruct a; simpl; intros H; [left|right]; exact H. Qed.

Lemma rep_loop_sound (R : config -> config -> Prop)
    (body : (state -> caps -> outcome) -> state -> caps -> outcome)
    (lo : nat) (hi : option nat) (greedy : bool)
    (k : state -> caps -> outcome) :
  sound R body ->
  forall fuel count st cs res,
    within count hi ->
    rep_loop body lo hi greedy k fuel count st cs = Some res ->
    exists n b, lo <= count + n /\ within (count + n) hi
                /\ power n R (st, cs) b /\ k (fst b) (snd b) = Some res.
Proof.
  intros Hbody. induction fuel as [|fuel IH]; intros count st cs res Hc H;
    [discriminate|].
  cbn [rep_loop] in H.
  assert (Hmore :
    (if below count hi
     then body
            (fun st' cs' =>
               if Nat.ltb (pos st) (pos st') || Nat.ltb count lo
               then rep_loop body lo hi greedy k fuel (S count) st' cs'
               else None) st cs
     else None) = Some res ->
    exists n b, lo <= count + n /\ within (count + n) hi
                /\ power n R (st, cs) b /\ k (fst b) (snd b) = Some res).
  { clear H. destruct (below count hi) eqn:B; [|discriminate]. intros H.
    apply Hbody in H as [[ms mc] [Hm H]]. cbn [fst snd] in H.
    destruct (Nat.ltb (pos st) (pos ms) || Nat.ltb count lo); [|discriminate].
    apply IH in H as [n [b [H1 [H2 [H3 H4]]]]].
    - exists (S n), b. replace (count + S n) with (S count + n) by lia.
      repeat split; try assumption. exists (ms, mc). now split.
    - destruct hi as [h|]; simpl in *; [|exact I].
      apply Nat.ltb_lt in B. lia. }
  assert (Hstop :
    (if Nat.leb lo count then k st cs else None) = Some res ->
    exists n b, lo <= count + n /\ within (count + n) hi
                /\ power n R (st, cs) b /\ k (fst b) (snd b) = Some res).
  { clear H Hmore. destruct (Nat.leb lo count) eqn:L; [|discriminate]. intros H.
    apply Nat.leb_le in L.
    exists 0, (st, cs). rewrite Nat.add_0_r. repeat split; assumption. }
  destruct greedy; apply or_else_cases in H as [H|H]; auto.
Qed.

Lemma run_sound (ic : bool) (r : re) : sound (sem ic r) (run ic r).
Proof.
  induction r as [| c | | negated items | | | | r1 IH1 r2 IH2 | r1 IH1 r2 IH2
                  | lo hi greedy r1 IH1 | i r1 IH1];
    intros k st cs res H; cbn [run] in H.
  - exists (st, cs). now split.
  - apply consume_sound in H as [x [st' [H1 [H2 H3]]]].
    exists (st', cs). split; [|exact H3]. now exists x.
  - apply consume_sound in H as [x [st' [H1 [H2 H3]]]].
    exists (st', cs). split; [|exact H3]. now exists x.
  - apply consume_sound in H as [x [st' [H1 [H2 H3]]]].
    exists (st', cs). split; [|exact H3]. now exists x.
  - destruct (Nat.eqb (pos st) 0); [|discriminate]. exists (st, cs). now split.
  - exists (st, cs). split; [reflexivity|].
    repeat match type of H with
           | context [match ?p with _ => _ end] => destruct p; try discriminate
           end; exact H.
  - destruct (at_boundary st); [|discriminate]. exists (st, cs). now split.
  - apply IH1 in H as [[ms mc] [Hm H]]. apply IH2 in H as [b [Hb H]].
    exists b. split; [|exact H]. now exists (ms, mc).
  - apply or_else_cases in H as [H|H].
    + apply IH1 in H as [b [Hb H]]. exists b. split; [now left|exact H].
    + apply IH2 in H as [b [Hb H]]. exists b. split; [now right|exact H].
  - apply (rep_loop_sound (sem ic r1)) in H; [|exact IH1|].
    + destruct H as [n [b [H1 [H2 [H3 H4]]]]]. exists b. split; [|exact H4].
      now exists n.
    + destruct hi; simpl; [lia|exact I].
  - apply IH1 in H as [[ms mc] [Hm H]]. cbn [fst snd] in H.
    exists (ms, (i, (pos st, pos ms)) :: mc). split; [|exact H].
    exists mc. now split.
Qed.

(** A match consumes a piece of the text. *)
Definition consumed (w : pystr) (a b : config) : Prop :=
  rest (fst a) = w ++ rest (fst b)
  /\ pos (fst b) = pos (fst a) + List.length w.

Lemma consumed_refl (a : config) : consumed [] a a.
Proof. unfold consumed. simpl. split; [reflexivity|lia]. Qed.

Lemma consumed_trans (w1 w2 : pystr) (a m b : config) :
  consumed w1 a m -> consumed w2 m b -> consumed (w1 ++ w2) a b.
Proof.
  unfold consumed. intros [H1 H2] [H3 H4]. rewrite H1, H3, H4, H2, length_app.
  rewrite <- app_assoc. split; [reflexivity|lia].
Qed.

Lemma step_consumed (st st' : state) (x : N) (cs cs' : caps) :
  step st = Some (x, st') -> consumed [x] (st, cs) (st', cs').
Proof.
  unfold step, consumed. destruct (rest st) as [|y l] eqn:E; [discriminate|].
  intros H. injection H as -> <-. simpl. rewrite E. split; [reflexivity|lia].
Qed.

Lemma power_consumed (R : config -> config -> Prop) :
  (forall a b, R a b -> exists w, consumed w a b) ->
  forall n a b, power n R a b -> exists w, consumed w a b.
Proof.
  intros HR. induction n as [|n IH]; intros a b H; simpl in H.
  - subst b. exists []. apply consumed_refl.
  - destruct H as [m [H1 H2]]. apply HR in H1 as [w1 H1].
    apply IH in H2 as [w2 H2]. exists (w1 ++ w2).
    now apply consumed_trans with m.
Qed.

Lemma sem_consumed (ic : bool) (r : re) (a b : config) :
  sem ic r a b -> exists w, consumed w a b.
Proof.
  revert a b.
  induction r as [| c | | negated items | | | | r1 IH1 r2 IH2 | r1 IH1 r2 IH2
                  | lo hi greedy r1 IH1 | i r1 IH1];
    intros a b H; cbn [sem] in H.
  - subst b. exists []. apply consumed_refl.
  - destruct H as [x [H _]]. exists [x]. destruct a, b. now apply step_consumed.
  - destruct H as [x [H _]]. exists [x]. destruct a, b. now apply step_consumed.
  - destruct H as [x [H _]]. exists [x]. destruct a, b. now apply step_consumed.
  - subst b. exists []. apply consumed_refl.
  - subst b. exists []. apply consumed_refl.
  - subst b. exists []. apply consumed_refl.
  - destruct H as [m [H1 H2]]. apply IH1 in H1 as [w1 H1].
    apply IH2 in H2 as [w2 H2]. exists (w1 ++ w2).
    now apply consumed_trans with m.
  - destruct H as [H|H]; [now apply IH1|now apply IH2].
  - destruct H as [n [_ [_ H]]]. now apply power_consumed in H.
  - destruct H as [cs [H _]]. apply IH1 in H as [w H]. exists w. exact H.
Qed.

(** The position is a position of [text]. *)
Definition anchored (text : pystr) (a : config) : Prop :=
  rest (fst a) = skipn (pos (fst a)) text.

Lemma consumed_anchored (text w : pystr) (a b : config) :
  anchored text a -> consumed w a b ->
  anchored text b /\ slice text (pos (fst a)) (pos (fst b)) = w.
Proof.
  unfold anchored, consumed, slice. intros Ha [H1 H2]. rewrite H2. split.
  - rewrite Nat.add_comm, <- skipn_skipn, <- Ha, H1.
    rewrite skipn_app, skipn_all, Nat.sub_diag. reflexivity.
  - rewrite <- Ha, H1.
    replace (pos (fst a) + List.length w - pos (fst a)) with (List.length w + 0)
      by lia.
    rewrite firstn_app_2. simpl. apply app_nil_r.
Qed.

(** ** The numbers a range pattern captures *)

Definition is_digits (r : re) : bool :=
  match r with
  | Rep 1 None _ (CharSet false [IDigit]) => true
  | _ => false
  end.

(** The expression [\d+(?:\.\d+)?]. *)
Definition is_number (r : re) : bool :=
  match r with
  | Cat d (Rep 0 (Some 1) _ (Cat (Chr c) d')) =>
      is_digits d && (c =? 46)%N && is_digits d'
  | _ => false
  end.

(** Every group of the expression is a number. *)
Fixpoint groups_numeric (r : re) : bool :=
  match r with
  | Grp _ a => is_number a
  | Cat a b | Alt a b => groups_numeric a && groups_numeric b
  | Rep _ _ _ a => groups_numeric a
  | _ => true
  end.

(** Group [i] takes part in every match of the expression. *)
Fixpoint mandatory (i : nat) (r : re) : bool :=
  match r with
  | Grp j a => Nat.eqb i j || mandatory i a
  | Cat a b => mandatory i a || mandatory i b
  | Alt a b => mandatory i a && mandatory i b
  | Rep lo _ _ a => Nat.ltb 0 lo && mandatory i a
  | _ => false
  end.

Definition all_decimal (ds : pystr) : Prop :=
  Forall (fun c => isdecimal c = true) ds.

(** Digits, or digits, a point and digits. *)
Definition numeric (w : pystr) : Prop :=
  exists ds fs,
    ds <> [] /\ all_decimal ds /\ all_decimal fs
    /\ (w = ds \/ (fs <> [] /\ w = ds ++ 46%N :: fs)).

Definition space_points : pystr :=
  [9; 10; 11; 12; 13; 28; 29; 30; 31; 32; 133; 160; 5760; 8192; 8193; 8194;
   8195; 8196; 8197; 8198; 8199; 8200; 8201; 8202; 8232; 8233; 8239; 8287;
   12288]%N.

Lemma isspace_points (c : N) : isspace c = true -> In c space_points.
Proof.
  intros H. apply isspace_cases in H. unfold space_points.
  assert (E : forall lo n : N, (lo <= c <= lo + N.succ n)%N ->
               c = lo \/ (N.succ lo <= c <= N.succ lo + n)%N) by (intros; lia).
  cbn [In].
  destruct H as [H|[H|[H|[H|[H|[H|[H|[H|[H|H]]]]]]]]]; try (subst c; tauto).
  - assert (c = 9 \/ c = 10 \/ c = 11 \/ c = 12 \/ c = 13)%N by lia. intuition auto.
  - assert (c = 28 \/ c = 29 \/ c = 30 \/ c = 31 \/ c = 32)%N by lia. intuition auto.
  - assert (c = 8192 \/ c = 8193 \/ c = 8194 \/ c = 8195 \/ c = 8196 \/ c = 8197
            \/ c = 8198 \/ c = 8199 \/ c = 8200 \/ c = 8201 \/ c = 8202)%N by lia.
    intuition auto.
  - assert (c = 8232 \/ c = 8233)%N by lia. intuition auto.
Qed.

Lemma decimal_not_space (c : N) : isdecimal c = true -> isspace c = false.
Proof.
  intros H. destruct (isspace c) eqn:E; [|reflexivity].
  apply isspace_points in E.
  assert (A : forallb (fun x => negb (isdecimal x)) space_points = true)
    by (vm_compute; reflexivity).
  rewrite forallb_forall in A. apply A in E. now rewrite H in E.
Qed.

Lemma decimal_not_sign (c : N) :
  isdecimal c = true -> c <> 45%N /\ c <> 43%N /\ c <> 46%N.
Proof.
  intros H. repeat split; intros ->; vm_compute in H; discriminate.
Qed.

Lemma read_digits_run (ds tl : pystr) :
  all_decimal ds -> not_at isdecimal tl ->
  forall acc count,
    exists v, PyFloat.read_digits (ds ++ tl) acc count
              = (v, count + List.length ds, tl).
Proof.
  intros Hd Ht. induction Hd as [|c ds Hc Hd IH]; intros acc count.
  - exists acc. rewrite Nat.add_0_r. destruct tl as [|y tl]; [reflexivity|].
    simpl in *. unfold isdecimal in Ht.
    destruct (decimal_value y); [discriminate|reflexivity].
  - cbn [app PyFloat.read_digits List.length]. unfold isdecimal in Hc.
    destruct (decimal_value c) as [d|]; [|discriminate].
    destruct (IH (acc * 10 + d)%N (S count)) as [v Hv]. exists v.
    rewrite Hv. f_equal. f_equal. lia.
Qed.

Lemma numeric_ends (w : pystr) :
  numeric w ->
  exists c w', w = c :: w' /\ isdecimal c = true
               /\ not_at isspace (rev w).
Proof.
  intros [ds [fs [Hn [Hd [Hf Hw]]]]].
  destruct ds as [|c ds]; [congruence|].
  assert (Hc : isdecimal c = true) by now inversion Hd.
  assert (L : forall l : pystr, l <> [] -> all_decimal l ->
              not_at isspace (rev l ++ [])
              /\ forall t, not_at isspace (rev l ++ t)).
  { intros l Hl Hall. assert (forall t, not_at isspace (rev l ++ t)).
    - destruct l as [|x l] using rev_ind; [congruence|].
      intros t. rewrite rev_app_distr. simpl.
      apply decimal_not_space. unfold all_decimal in Hall.
      rewrite Forall_forall in Hall.
      apply Hall. apply in_or_app. right. now left.
    - split; auto. }
  destruct Hw as [->|[Hfs ->]].
  - exists c, ds. repeat split; auto.
    rewrite <- (app_nil_r (rev (c :: ds))). apply L; [discriminate|exact Hd].
  - exists c, (ds ++ 46%N :: fs). repeat split; auto.
    change (c :: ds ++ 46%N :: fs) with ((c :: ds) ++ 46%N :: fs).
    rewrite rev_app_distr. change (rev (46%N :: fs)) with (rev fs ++ [46%N]). rewrite <- app_assoc.
    apply L; assumption.
Qed.

(** [float] reads every such text. *)
Lemma numeric_float (w : pystr) :
  numeric w -> exists x, PyFloat.of_str w = Py.Ok x.
Proof.
  intros Hw. destruct (numeric_ends w Hw) as [c [w' [E [Hc Hr]]]].
  destruct Hw as [ds [fs [Hn [Hd [Hf Hw]]]]].
  unfold PyFloat.of_str.
  rewrite strip_fixed;
    [|rewrite E; simpl; now apply decimal_not_space|exact Hr].
  destruct (decimal_not_sign c Hc) as [N1 [N2 _]].
  assert (Eb : (match w with
                | 45%N :: r => (true, r)
                | 43%N :: r => (false, r)
                | _ => (false, w)
                end) = (false, w)).
  { rewrite E. destruct c as [|p]; [reflexivity|].
    repeat (destruct p as [p|p|]; try reflexivity; try congruence). }
  rewrite Eb. clear Eb.
  destruct Hw as [->|[Hfs ->]].
  - destruct (read_digits_run ds [] Hd I 0%N 0) as [v Hv].
    rewrite app_nil_r in Hv. rewrite Hv.
    destruct (List.length ds) eqn:L; [now destruct ds|]. simpl. eauto.
  - assert (Hp : not_at isdecimal (46%N :: fs)) by (vm_compute; reflexivity).
    destruct (read_digits_run ds (46%N :: fs) Hd Hp 0%N 0) as [v Hv].
    rewrite Hv. cbn [N.eqb Pos.eqb].
    destruct (read_digits_run fs [] Hf I v (0 + List.length ds)) as [v' Hv'].
    rewrite app_nil_r in Hv'. rewrite Hv'.
    destruct (0 + List.length ds + List.length fs) eqn:L.
    + destruct fs; [congruence|simpl in L; lia].
    + simpl. eauto.
Qed.

Ltac break_match H :=
  repeat match type of H with
         | context [match ?x with _ => _ end] => destruct x; try discriminate H
         end.

Lemma is_digits_eq (r : re) :
  is_digits r = true ->
  exists g, r = Rep 1 None g (CharSet false [IDigit]).
Proof. intros H. unfold is_digits in H. break_match H. eauto. Qed.

Lemma is_number_eq (r : re) :
  is_number r = true ->
  exists d g d', r = Cat d (Rep 0 (Some 1) g (Cat (Chr 46) d'))
                 /\ is_digits d = true /\ is_digits d' = true.
Proof.
  intros H. unfold is_number in H.
  destruct r; try discriminate H. destruct r2; try discriminate H.
  destruct lo; try discriminate H. destruct hi as [[|[|h]]|]; try discriminate H.
  destruct r2; try discriminate H. destruct r2_1; try discriminate H.
  rewrite !andb_true_iff, N.eqb_eq in H. destruct H as [[H1 ->] H2]. eauto 8.
Qed.

Lemma char_eq_point (ic : bool) (x : N) : char_eq ic 46 x = true -> x = 46%N.
Proof.
  unfold char_eq. destruct ic; rewrite N.eqb_eq; [|congruence].
  change (fold_case 46) with 46%N. unfold fold_case, in_range.
  destruct ((65 <=? x)%N && (x <=? 90)%N) eqn:E1.
  - rewrite andb_true_iff, !N.leb_le in E1. lia.
  - destruct ((x =? 304)%N || (x =? 305)%N); [discriminate|].
    destruct (x =? 383)%N; [discriminate|].
    destruct (x =? 8490)%N; [discriminate|congruence].
Qed.

Lemma power_digits (ic : bool) (n : nat) :
  forall a b,
    power n (sem ic (CharSet false [IDigit])) a b ->
    exists ds, consumed ds a b /\ all_decimal ds /\ List.length ds = n
               /\ snd b = snd a.
Proof.
  induction n as [|n IH]; intros a b H; simpl in H.
  - subst b. exists []. repeat split; [apply consumed_refl..|constructor].
  - destruct H as [m [[x [H1 [H2 H3]]] H]].
    apply IH in H as [ds [Hc [Hd [Hl Hs]]]]. exists (x :: ds).
    repeat split.
    + change (x :: ds) with ([x] ++ ds). apply consumed_trans with m; [|exact Hc].
      destruct a, m. now apply step_consumed.
    + change (x :: ds) with ([x] ++ ds). apply consumed_trans with m; [|exact Hc].
      destruct a, m. now apply step_consumed.
    + constructor; [|exact Hd]. unfold set_match in H2. simpl in H2.
      now rewrite orb_false_r in H2.
    + simpl. now rewrite Hl.
    + congruence.
Qed.

Lemma sem_digits (ic : bool) (r : re) (a b : config) :
  is_digits r = true -> sem ic r a b ->
  exists ds, ds <> [] /\ consumed ds a b /\ all_decimal ds /\ snd b = snd a.
Proof.
  intros Hr H. apply is_digits_eq in Hr as [g ->]. cbn [sem] in H.
  destruct H as [n [Hn [_ H]]].
  apply power_digits in H as [ds [Hc [Hd [Hl Hs]]]].
  exists ds. repeat split; try assumption; try apply Hc.
  intros ->. simpl in Hl. lia.
Qed.

Lemma sem_number (ic : bool) (r : re) (a b : config) :
  is_number r = true -> sem ic r a b ->
  exists w, numeric w /\ consumed w a b /\ snd b = snd a.
Proof.
  intros Hr H. apply is_number_eq in Hr as [d [g [d' [-> [Hd Hd']]]]].
  cbn [sem] in H. destruct H as [m [H1 [n [_ [Hn H2]]]]].
  apply (sem_digits ic d a m Hd) in H1 as [ds [Hne [Hc [Hall Hs]]]].
  simpl in Hn. destruct n as [|[|n]]; [| |lia]; simpl in H2.
  - subst b. exists ds. repeat split; try assumption; try apply Hc.
    exists ds, []. repeat split; try assumption; [constructor|now left].
  - destruct H2 as [e [[p [[x [Hx [Hp Hxs]]] Hf]] ->]].
    apply char_eq_point in Hp. subst x.
    apply (sem_digits ic d' p e Hd') in Hf as [fs [Hnf [Hcf [Hallf Hsf]]]].
    exists (ds ++ 46%N :: fs).
    assert (C : consumed (ds ++ 46%N :: fs) a e).
    { apply consumed_trans with m; [exact Hc|].
      change (46%N :: fs) with ([46%N] ++ fs).
      apply consumed_trans with p; [|exact Hcf].
      destruct m, p. now apply step_consumed. }
    repeat split; try apply C; [|congruence].
    exists ds, fs. repeat split; try assumption. now right.
Qed.

(** What the groups recorded in [cs] hold can be read as numbers. *)
Definition floats (text : pystr) (cs : caps) : Prop :=
  forall i span,
    In (i, span) cs ->
    exists x, PyFloat.of_str (slice text (fst span) (snd span)) = Py.Ok x.

Definition invariant (text : pystr) (a : config) : Prop :=
  anchored text a /\ floats text (snd a).

Lemma power_invariant (text : pystr) (R : config -> config -> Prop) :
  (forall a b, R a b -> invariant text a -> invariant text b) ->
  forall n a b, power n R a b -> invariant text a -> invariant text b.
Proof.
  intros HR. induction n as [|n IH]; intros a b H Ha; simpl in H.
  - now subst b.
  - destruct H as [m [H1 H2]]. eauto.
Qed.

Lemma invariant_same_caps (text : pystr) (w : pystr) (a b : config) :
  consumed w a b -> snd b = snd a -> invariant text a -> invariant text b.
Proof.
  intros Hc Hs [H1 H2]. split.
  - now apply (consumed_anchored text w a b).
  - now rewrite Hs.
Qed.

Lemma sem_invariant (text : pystr) (ic : bool) (r : re) :
  groups_numeric r = true ->
  forall a b, sem ic r a b -> invariant text a -> invariant text b.
Proof.
  induction r as [| c | | negated items | | | | r1 IH1 r2 IH2 | r1 IH1 r2 IH2
                  | lo hi greedy r1 IH1 | i r1 IH1];
    intros Hg a b H Ha; cbn [sem] in H; cbn [groups_numeric] in Hg;
    try (subst b; exact Ha).
  - destruct H as [x [H [_ Hs]]].
    apply (invariant_same_caps text [x] a b); try assumption.
    destruct a, b. now apply step_consumed.
  - destruct H as [x [H Hs]].
    apply (invariant_same_caps text [x] a b); try assumption.
    destruct a, b. now apply step_consumed.
  - destruct H as [x [H [_ Hs]]].
    apply (invariant_same_caps text [x] a b); try assumption.
    destruct a, b. now apply step_consumed.
  - apply andb_true_iff in Hg as [G1 G2]. destruct H as [m [H1 H2]]. eauto.
  - apply andb_true_iff in Hg as [G1 G2]. destruct H as [H|H]; eauto.
  - destruct H as [n [_ [_ H]]].
    exact (power_invariant text (sem ic r1) (IH1 Hg) n a b H Ha).
  - destruct H as [cs [H Hs]].
    apply (sem_number ic r1 a (fst b, cs) Hg) in H as [w [Hw [Hc Hcs]]].
    destruct Ha as [A1 A2].
    destruct (consumed_anchored text w a (fst b, cs) A1 Hc) as [B1 B2].
    split; [exact B1|]. rewrite Hs. intros j span [E|E].
    + injection E as _ <-. cbn [fst snd] in *. rewrite B2.
      now apply numeric_float.
    + apply (A2 j). simpl in Hcs. now rewrite <- Hcs.
Qed.

Lemma cap_lookup_in (i : nat) (cs : caps) (span : nat * nat) :
  cap_lookup i cs = Some span -> In (i, span) cs.
Proof.
  induction cs as [|[j sp] cs IH]; simpl; [discriminate|].
  destruct (Nat.eqb i j) eqn:E.
  - apply Nat.eqb_eq in E. subst j. intros [= ->]. now left.
  - intros H. right. now apply IH.
Qed.

Definition has_cap (i : nat) (cs : caps) : Prop := cap_lookup i cs <> None.

Lemma power_has_cap (i : nat) (R : config -> config -> Prop) :
  (forall a b, R a b -> has_cap i (snd a) -> has_cap i (snd b)) ->
  forall n a b, power n R a b -> has_cap i (snd a) -> has_cap i (snd b).
Proof.
  intros HR. induction n as [|n IH]; intros a b H Ha; simpl in H.
  - now subst b.
  - destruct H as [m [H1 H2]]. eauto.
Qed.

Lemma sem_keeps_cap (ic : bool) (i : nat) (r : re) :
  forall a b, sem ic r a b -> has_cap i (snd a) -> has_cap i (snd b).
Proof.
  induction r as [| c | | negated items | | | | r1 IH1 r2 IH2 | r1 IH1 r2 IH2
                  | lo hi greedy r1 IH1 | j r1 IH1];
    intros a b H Ha; cbn [sem] in H; try (subst b; exact Ha).
  - destruct H as [x [_ [_ Hs]]]. now rewrite Hs.
  - destruct H as [x [_ Hs]]. now rewrite Hs.
  - destruct H as [x [_ [_ Hs]]]. now rewrite Hs.
  - destruct H as [m [H1 H2]]. eauto.
  - destruct H as [H|H]; eauto.
  - destruct H as [n [_ [_ H]]].
    exact (power_has_cap i (sem ic r1) IH1 n a b H Ha).
  - destruct H as [cs [H Hs]]. apply IH1 in H; [|exact Ha].
    rewrite Hs. unfold has_cap in *. simpl in *.
    destruct (Nat.eqb i j); [discriminate|exact H].
Qed.

Lemma sem_mandatory (ic : bool) (i : nat) (r : re) :
  mandatory i r = true ->
  forall a b, sem ic r a b -> has_cap i (snd b).
Proof.
  induction r as [| c | | negated items | | | | r1 IH1 r2 IH2 | r1 IH1 r2 IH2
                  | lo hi greedy r1 IH1 | j r1 IH1];
    intros Hm a b H; cbn [sem] in H; cbn [mandatory] in Hm; try discriminate.
  - destruct H as [m [H1 H2]]. apply orb_true_iff in Hm as [Hm|Hm].
    + apply (sem_keeps_cap ic i r2 m b H2). now apply (IH1 Hm a m).
    + now apply (IH2 Hm m b).
  - apply andb_true_iff in Hm as [M1 M2]. destruct H as [H|H]; eauto.
  - apply andb_true_iff in Hm as [M1 M2]. apply Nat.ltb_lt in M1.
    destruct H as [n [Hn [_ H]]]. destruct n as [|n]; [lia|]. simpl in H.
    destruct H as [m [H1 H2]].
    apply (power_has_cap i (sem ic r1) (sem_keeps_cap ic i r1) n m b H2).
    now apply (IH1 M2 a m).
  - destruct H as [cs [H Hs]]. rewrite Hs. unfold has_cap. simpl.
    destruct (Nat.eqb i j) eqn:E; [discriminate|]. simpl in Hm.
    apply (IH1 Hm) in H. exact H.
Qed.

Lemma search_at_match (p : pattern) (s : pystr) :
  forall n pv m,
    search_at p n pv s = Some m ->
    exists k pv', match_here p (mkState (n + k) pv' (skipn k s)) = Some m.
Proof.
  induction s as [|c s IH]; intros n pv m; simpl.
  - destruct (match_here p (mkState n pv [])) eqn:E; [|discriminate].
    intros [= <-]. exists 0, pv. now rewrite Nat.add_0_r.
  - destruct (match_here p (mkState n pv (c :: s))) eqn:E.
    + intros [= <-]. exists 0, pv. now rewrite Nat.add_0_r.
    + intros H. apply IH in H as [k [pv' H]]. exists (S k), pv'.
      now rewrite Nat.add_succ_r.
Qed.

(** A group of numbers that takes part in every match can be read by
    [float] whenever the pattern is found. *)
Lemma float_of_group_ok (p : pattern) (i : nat) (text : pystr) (m : match_obj) :
  groups_numeric (p_re p) = true -> mandatory i (p_re p) = true ->
  search p text = Some m ->
  exists x, float_of_group text m i = Py.Ok x.
Proof.
  intros Hg Hm H. unfold search in H.
  apply search_at_match in H as [k [pv H]]. unfold match_here in H.
  destruct (run _ _ _ _ _) as [[st' cs]|] eqn:E; [|discriminate].
  injection H as <-.
  apply run_sound in E as [[bs bc] [Hsem Hacc]]. injection Hacc as -> ->.
  assert (Hinv : invariant text (mkState (0 + k) pv (skipn k text), [])).
  { split; [reflexivity|]. intros j span []. }
  apply (sem_invariant text _ _ Hg _ _ Hsem) in Hinv as [_ Hf].
  apply (sem_mandatory _ i _ Hm) in Hsem.
  unfold float_of_group, group. cbn [m_caps]. unfold has_cap in Hsem.
  cbn [snd] in *.
  destruct (cap_lookup i cs) as [[x y]|] eqn:L; [|congruence].
  apply cap_lookup_in in L. apply Hf in L. exact L.
Qed.

(** ** [_extract_ranges] and [detect_conflicts] return *)

Definition range_pattern_ok (p : pattern) : Prop :=
  groups_numeric (p_re p) = true /\ mandatory 1 (p_re p) = true
  /\ (Nat.eqb (p_groups p) 2 = true -> mandatory 2 (p_re p) = true).

Lemma range_patterns_ok :
  Forall range_pattern_ok (map (fun p => compile p true) range_patterns).
Proof.
  unfold range_pattern_ok. vm_compute.
  repeat constructor; discriminate.
Qed.

Definition of_fact (fact : ExtractedFact) (rs : list Range) : Prop :=
  List.length rs <= 1 /\ Forall (fun r => r_fact r = fact) rs.

Lemma range_of_match_ok (fact : ExtractedFact) (p : pattern) (m : match_obj) :
  range_pattern_ok p -> search p (value fact) = Some m ->
  exists rs, range_of_match fact p m = Py.Ok rs /\ of_fact fact rs.
Proof.
  intros [Hg [H1 H2]] Hs. unfold range_of_match.
  destruct (float_of_group_ok p 1 (value fact) m Hg H1 Hs) as [x Hx].
  assert (One : forall r, r_fact r = fact -> of_fact fact [r]).
  { intros r Hr. split; [simpl; lia|]. now constructor. }
  destruct (Nat.eqb (p_groups p) 2) eqn:E.
  - destruct (float_of_group_ok p 2 (value fact) m Hg (H2 eq_refl) Hs) as [y Hy].
    rewrite Hx, Hy. simpl. eexists. split; [reflexivity|]. now apply One.
  - rewrite Hx. simpl.
    repeat match goal with
           | |- context [if ?c then _ else _] => destruct c
           end;
      eexists; (split; [reflexivity|]); try (now apply One).
    split; [simpl; lia|constructor].
Qed.

Lemma ranges_of_fact_ok (patterns : list pattern) (fact : ExtractedFact) :
  Forall range_pattern_ok patterns ->
  exists rs, ranges_of_fact patterns fact = Py.Ok rs /\ of_fact fact rs.
Proof.
  induction 1 as [|p more Hp _ IH]; simpl.
  - exists []. split; [reflexivity|]. split; [simpl; lia|constructor].
  - destruct (search p (value fact)) as [m|] eqn:E; [|exact IH].
    now apply range_of_match_ok.
Qed.

(** The ranges [_extract_ranges] appends for one fact. *)
Definition ranges_of (fact : ExtractedFact) : list Range :=
  match ranges_of_fact (map (fun p => compile p true) range_patterns) fact with
  | Py.Ok rs => rs
  | Py.Raise _ => []
  end.

Lemma ranges_of_eq (fact : ExtractedFact) :
  ranges_of_fact (map (fun p => compile p true) range_patterns) fact
  = Py.Ok (ranges_of fact)
  /\ of_fact fact (ranges_of fact).
Proof.
  destruct (ranges_of_fact_ok _ fact range_patterns_ok) as [rs [E H]].
  unfold ranges_of. rewrite E. now split.
Qed.

Lemma extract_ranges_eq (facts : list ExtractedFact) :
  extract_ranges facts = Py.Ok (flat_map ranges_of facts).
Proof.
  induction facts as [|fact more IH]; [reflexivity|].
  cbn [extract_ranges flat_map].
  rewrite (proj1 (ranges_of_eq fact)), IH. reflexivity.
Qed.

(** The records [_detect_range_conflicts] appends for one category. *)
Definition range_records (g : pystr * list ExtractedFact) : list Conflict :=
  if Nat.ltb 1 (List.length (snd g)) then
    map (fun p => overlap (fst g) (fst p) (snd p))
      (filter (fun p => ranges_overlap_contradictory (fst p) (snd p))
         (pairs (flat_map ranges_of (snd g))))
  else [].

(** The records the first loop of [detect_conflicts] appends for a key. *)
Definition value_records (g : pystr * list ExtractedFact) : list Conflict :=
  if Nat.ltb 1 (List.length (snd g))
  then detect_group_conflicts (fst g) (snd g)
  else [].

Lemma range_conflicts_of_eq (groups : Dict.dict (list ExtractedFact)) :
  range_conflicts_of groups = Py.Ok (flat_map range_records groups).
Proof.
  induction groups as [|[category category_facts] more IH]; [reflexivity|].
  cbn [range_conflicts_of flat_map]. rewrite IH.
  unfold category_conflicts, range_records. cbn [fst snd].
  destruct (Nat.ltb 1 (List.length category_facts)); [|reflexivity].
  rewrite extract_ranges_eq. reflexivity.
Qed.

(** [detect_conflicts] raises nothing: the records of the keys, then those
    of the range categories. *)
Lemma detect_conflicts_eq (facts : list ExtractedFact) :
  detect_conflicts facts
  = Py.Ok (flat_map value_records (group_by_key facts)
           ++ flat_map range_records (group_range_facts facts)).
Proof.
  unfold detect_conflicts, detect_range_conflicts.
  rewrite range_conflicts_of_eq. reflexivity.
Qed.

(** ** Grouping facts in a dictionary of lists *)

Definition getl {V : Type} (d : Dict.dict (list V)) (k : pystr) : list V :=
  match Dict.get d k with
  | Some l => l
  | None => []
  end.

Lemma dict_get_set {V : Type} (d : Dict.dict V) (k k' : pystr) (v : V) :
  Dict.get (Dict.set d k v) k'
  = if PyStr.eqb k k' then Some v else Dict.get d k'.
Proof.
  induction d as [|[k0 v0] d IH]; simpl.
  - destruct (PyStr.eqb k k'); reflexivity.
  - destruct (PyStr.eqb k0 k) eqn:E; simpl.
    + apply pystr_eqb_eq in E. subst k0. destruct (PyStr.eqb k k'); reflexivity.
    + rewrite IH. destruct (PyStr.eqb k0 k') eqn:E'; [|reflexivity].
      apply pystr_eqb_eq in E'. subst k0.
      destruct (PyStr.eqb k k') eqn:E2; [|reflexivity].
      apply pystr_eqb_eq in E2. subst k'. now rewrite pystr_eqb_refl in E.
Qed.

Lemma getl_append_to {V : Type} (d : Dict.dict (list V)) (k k' : pystr) (x : V) :
  getl (Dict.append_to d k x) k'
  = getl d k' ++ (if PyStr.eqb k k' then [x] else []).
Proof.
  unfold getl, Dict.append_to.
  destruct (Dict.get d k) as [l|] eqn:E; rewrite dict_get_set;
    destruct (PyStr.eqb k k') eqn:E'; try (now rewrite app_nil_r).
  - apply pystr_eqb_eq in E'. subst k'. now rewrite E.
  - apply pystr_eqb_eq in E'. subst k'. now rewrite E.
Qed.

Lemma dict_get_in {V : Type} (d : Dict.dict V) (k : pystr) (v : V) :
  Dict.get d k = Some v -> In (k, v) d.
Proof.
  induction d as [|[k0 v0] d IH]; simpl; [discriminate|].
  destruct (PyStr.eqb k0 k) eqn:E.
  - apply pystr_eqb_eq in E. subst k0. intros [= ->]. now left.
  - intros H. right. now apply IH.
Qed.

Lemma getl_in {V : Type} (d : Dict.dict (list V)) (k : pystr) :
  getl d k <> [] -> In (k, getl d k) d.
Proof.
  unfold getl. destruct (Dict.get d k) as [l|] eqn:E; [|congruence].
  intros _. now apply dict_get_in.
Qed.

Lemma keys_set {V : Type} (d : Dict.dict V) (k : pystr) (v : V) :
  NoDup (keys d) -> NoDup (keys (Dict.set d k v))
  /\ forall k', In k' (keys (Dict.set d k v)) -> k' = k \/ In k' (keys d).
Proof.
  unfold keys. induction d as [|[k0 v0] d IH]; simpl; intros H.
  - split; [repeat constructor; intros []|]. intros k' [<-|[]]. now left.
  - inversion H as [|? ? Hn Hd]; subst.
    destruct (PyStr.eqb k0 k) eqn:E; simpl.
    + split; [exact H|]. tauto.
    + destruct (IH Hd) as [I1 I2]. split.
      * constructor; [|exact I1]. intros Hin. apply I2 in Hin as [->|Hin].
        -- now rewrite pystr_eqb_refl in E.
        -- contradiction.
      * intros k' [<-|Hin]; [tauto|]. apply I2 in Hin. tauto.
Qed.

Lemma keys_append_to {V : Type} (d : Dict.dict (list V)) (k : pystr) (x : V) :
  NoDup (keys d) -> NoDup (keys (Dict.append_to d k x)).
Proof.
  intros H. unfold Dict.append_to.
  destruct (Dict.get d k); now apply keys_set.
Qed.

Lemma group_by_key_getl (facts : list ExtractedFact) (k : pystr) :
  getl (group_by_key facts) k
  = filter (fun f => PyStr.eqb (key f) k) facts.
Proof.
  unfold group_by_key.
  assert (G : forall d,
             getl (fold_left (fun d fact => Dict.append_to d (key fact) fact)
                     facts d) k
             = getl d k ++ filter (fun f => PyStr.eqb (key f) k) facts).
  { induction facts as [|f more IH]; intros d; simpl.
    - now rewrite app_nil_r.
    - rewrite IH, getl_append_to, <- app_assoc.
      destruct (PyStr.eqb (key f) k); reflexivity. }
  apply G.
Qed.

(** The facts of a range category, in their order. *)
Definition in_category (category : pystr) (f : ExtractedFact) : bool :=
  contains (lower (key f)) category.

Lemma file_fact_getl (d : Dict.dict (list ExtractedFact)) (fact : ExtractedFact)
    (k : pystr) :
  getl (file_fact d fact) k
  = getl d k
    ++ flat_map
         (fun keyword =>
            if contains (lower (key fact)) (str keyword)
               && PyStr.eqb (str keyword) k
            then [fact] else [])
         range_keywords.
Proof.
  unfold file_fact. revert d.
  induction range_keywords as [|kw kws IH]; intros d; simpl.
  - now rewrite app_nil_r.
  - rewrite IH. destruct (contains (lower (key fact)) (str kw)); simpl.
    + rewrite getl_append_to, <- app_assoc. reflexivity.
    + reflexivity.
Qed.

Lemma file_fact_keys (d : Dict.dict (list ExtractedFact)) (fact : ExtractedFact) :
  NoDup (keys d) -> NoDup (keys (file_fact d fact)).
Proof.
  unfold file_fact. revert d.
  induction range_keywords as [|kw kws IH]; intros d H; simpl; [exact H|].
  apply IH. destruct (contains (lower (key fact)) (str kw)); [|exact H].
  now apply keys_append_to.
Qed.

Lemma group_range_facts_keys (facts : list ExtractedFact) :
  NoDup (keys (group_range_facts facts)).
Proof.
  unfold group_range_facts.
  assert (G : forall d, NoDup (keys d) ->
                        NoDup (keys (fold_left file_fact facts d))).
  { induction facts as [|f more IH]; intros d H; simpl; [exact H|].
    apply IH. now apply file_fact_keys. }
  apply G. constructor.
Qed.

Lemma group_range_facts_getl (facts : list ExtractedFact) :
  getl (group_range_facts facts) (str "interest_rate")
  = filter (in_category (str "interest_rate")) facts.
Proof.
  unfold group_range_facts.
  assert (G : forall d,
             getl (fold_left file_fact facts d) (str "interest_rate")
             = getl d (str "interest_rate")
               ++ filter (in_category (str "interest_rate")) facts).
  { induction facts as [|f more IH]; intros d; simpl.
    - now rewrite app_nil_r.
    - rewrite IH, file_fact_getl, <- app_assoc. f_equal. f_equal.
      unfold in_category, range_keywords. cbn [flat_map].
      repeat match goal with
             | |- context [PyStr.eqb (str ?a) (str ?b)] =>
                 let v := eval vm_compute in (PyStr.eqb (str a) (str b)) in
                 change (PyStr.eqb (str a) (str b)) with v
             end.
      rewrite !andb_false_r, andb_true_r. cbn [app].
      destruct (contains (lower (key f)) (str "interest_rate")); reflexivity. }
  apply G.
Qed.

(** ** Pairs *)

Lemma pairs_in {A : Type} (l1 l2 l3 : list A) (a b : A) :
  In (a, b) (pairs (l1 ++ a :: l2 ++ b :: l3)).
Proof.
  induction l1 as [|x l1 IH]; simpl.
  - apply in_or_app. left. apply in_map. apply in_or_app. right. now left.
  - apply in_or_app. now right.
Qed.

Lemma pairs_members {A : Type} (l : list A) (u v : A) :
  In (u, v) (pairs l) -> In u l /\ In v l.
Proof.
  induction l as [|x l IH]; simpl; [intros []|].
  intros H. apply in_app_or in H as [H|H].
  - apply in_map_iff in H as [y [E Hy]]. injection E as -> ->. tauto.
  - apply IH in H. tauto.
Qed.

(** Where [x] and [y] are the only elements that have the marks [P] and
    [Q], the pair of [x] and [y] is the only pair with both marks. *)
Lemma pairs_unique {A : Type} (P Q : A -> Prop) (la lb lc : list A) (x y : A) :
  (forall z, In z (la ++ lb ++ lc) -> ~ P z /\ ~ Q z) -> ~ P y ->
  exists pre post,
    pairs (la ++ x :: lb ++ y :: lc) = pre ++ (x, y) :: post
    /\ forall u v, In (u, v) (pre ++ post) ->
                   ~ ((P u /\ Q v) \/ (Q u /\ P v)).
Proof.
  intros Hz Hy. induction la as [|a la IH].
  - exists (map (pair x) lb), (map (pair x) lc ++ pairs (lb ++ y :: lc)).
    split.
    + simpl. rewrite map_app. simpl. now rewrite <- app_assoc.
    + intros u v H. apply in_app_or in H as [H|H];
        [|apply in_app_or in H as [H|H]].
      * apply in_map_iff in H as [z [E Hin]]. injection E as <- <-.
        assert (Z := Hz z (in_or_app _ _ _ (or_introl Hin))). tauto.
      * apply in_map_iff in H as [z [E Hin]]. injection E as <- <-.
        assert (Z := Hz z (in_or_app _ _ _ (or_intror Hin))). tauto.
      * apply pairs_members in H as [Hu Hv].
        assert (N : forall z, In z (lb ++ y :: lc) -> ~ P z).
        { intros z Hin. apply in_app_or in Hin as [Hin|[<-|Hin]]; auto.
          - apply (Hz z). simpl. apply in_or_app. now left.
          - apply (Hz z). simpl. apply in_or_app. now right. }
        apply N in Hu. apply N in Hv. tauto.
  - destruct IH as [pre [post [E H]]].
    + intros z Hin. apply Hz. now right.
    + exists (map (pair a) (la ++ x :: lb ++ y :: lc) ++ pre), post. split.
      * simpl. rewrite E. now rewrite <- app_assoc.
      * intros u v Hin. rewrite <- app_assoc in Hin.
        apply in_app_or in Hin as [Hin|Hin]; [|now apply H].
        apply in_map_iff in Hin as [z [Ez _]]. injection Ez as <- <-.
        assert (Z := Hz a (or_introl eq_refl)). tauto.
Qed.

(** ** The ratio of a number with itself *)

Lemma sub_diag_finite (m : positive) (e : Z) :
  PyFloat.sub (S754_finite false m e) (S754_finite false m e)
  = S754_zero false.
Proof.
  unfold PyFloat.sub, SFsub. rewrite Z.min_id. unfold shl_align.
  rewrite Z.sub_diag. cbn [fst cond_Zopp]. reflexivity.
Qed.

Lemma self_ratio (n : PyFloat.float) :
  PyFloat.gtb (PyFloat.max n n) zero = true ->
  PyFloat.gtb
    (PyFloat.div (PyFloat.abs (PyFloat.sub n n)) (PyFloat.max n n)) tenth
  = false.
Proof.
  assert (E : PyFloat.max n n = n)
    by (unfold PyFloat.max; now destruct (PyFloat.gtb n n)).
  rewrite E. destruct n as [s|s| |s m e]; try discriminate.
  - destruct s; [discriminate|reflexivity].
  - destruct s; [discriminate|]. intros _. rewrite sub_diag_finite.
    reflexivity.
Qed.

(** ** Conflicts between the values of a key *)

(** With two numbers of positive maximum, [_values_conflict] is the
    comparison of the ratio with [0.1]. *)
Lemma values_conflict_numeric (value1 value2 : pystr) (n1 n2 : PyFloat.float) :
  PyFloat.of_str (Re.sub NON_NUMERIC [] value1) = Py.Ok n1 ->
  PyFloat.of_str (Re.sub NON_NUMERIC [] value2) = Py.Ok n2 ->
  PyFloat.gtb (PyFloat.max n1 n2) zero = true ->
  values_conflict value1 value2
  = PyFloat.gtb
      (PyFloat.div (PyFloat.abs (PyFloat.sub n1 n2)) (PyFloat.max n1 n2))
      tenth.
Proof.
  intros H1 H2 Hmax. unfold values_conflict.
  destruct (PyStr.eqb value1 value2) eqn:E.
  - apply pystr_eqb_eq in E. subst value2. rewrite H1 in H2.
    injection H2 as <-. symmetry. now apply self_ratio.
  - now rewrite H1, H2, Hmax.
Qed.

(** Where a [value_contradiction] record comes from. *)
Lemma value_record_origin (facts : list ExtractedFact) (k : pystr)
    (vals : pystr * pystr) (srcs : option pystr * option pystr)
    (confs : PyFloat.float * PyFloat.float) (sev : severity) :
  In (value_contradiction k vals srcs confs sev)
    (flat_map value_records (group_by_key facts)
     ++ flat_map range_records (group_range_facts facts)) ->
  exists k' a b,
    value_contradiction k vals srcs confs sev = contradiction k' a b
    /\ values_conflict (value a) (value b) = true.
Proof.
  intros H. apply in_app_or in H as [H|H];
    apply in_flat_map in H as [g [_ H]].
  - unfold value_records in H.
    destruct (Nat.ltb 1 (List.length (snd g))); [|contradiction].
    unfold detect_group_conflicts in H.
    apply in_map_iff in H as [[a b] [E H]]. apply filter_In in H as [_ H].
    exists (fst g), a, b. now split.
  - unfold range_records in H.
    destruct (Nat.ltb 1 (List.length (snd g))); [|contradiction].
    apply in_map_iff in H as [p [E _]]. discriminate.
Qed.

(** The facts of a key are paired in the order of the list. *)
Lemma group_by_key_pair (l1 l2 l3 : list ExtractedFact) (f1 f2 : ExtractedFact) :
  key f1 = key f2 ->
  exists fs,
    In (key f1, fs) (group_by_key (l1 ++ f1 :: l2 ++ f2 :: l3))
    /\ 1 < List.length fs /\ In (f1, f2) (pairs fs).
Proof.
  intros Hk. set (facts := l1 ++ f1 :: l2 ++ f2 :: l3).
  assert (E : getl (group_by_key facts) (key f1)
              = filter (fun f => PyStr.eqb (key f) (key f1)) l1
                ++ f1 :: filter (fun f => PyStr.eqb (key f) (key f1)) l2
                ++ f2 :: filter (fun f => PyStr.eqb (key f) (key f1)) l3).
  { rewrite group_by_key_getl. unfold facts.
    rewrite filter_app. cbn [filter]. rewrite pystr_eqb_refl.
    rewrite filter_app. cbn [filter]. rewrite <- Hk, pystr_eqb_refl.
    reflexivity. }
  exists (getl (group_by_key facts) (key f1)). split; [|split].
  - apply getl_in. rewrite E. now destruct (filter _ l1).
  - rewrite E. rewrite length_app. cbn [List.length]. rewrite length_app.
    cbn [List.length]. lia.
  - rewrite E. apply pairs_in.
Qed.

(** C5 (amended): two facts of one key whose stripped values are read by
    [float] as [n1] and [n2] with [max(n1, n2) > 0].  [detect_conflicts]
    returns, and its result holds the [value_contradiction] record of the
    pair exactly when the binary64 quotient [abs(n1 - n2) / max(n1, n2)]
    is greater than the binary64 number [0.1]; a record of the pair has
    severity [high] exactly when the binary64 difference of the two
    confidence scores is below [0.2] in magnitude, [medium] otherwise. *)
Theorem C5_numeric_conflict_rule (l1 l2 l3 : list ExtractedFact)
    (f1 f2 : ExtractedFact) (n1 n2 : PyFloat.float) :
  key f1 = key f2 ->
  PyFloat.of_str (Re.sub NON_NUMERIC [] (value f1)) = Py.Ok n1 ->
  PyFloat.of_str (Re.sub NON_NUMERIC [] (value f2)) = Py.Ok n2 ->
  PyFloat.gtb (PyFloat.max n1 n2) zero = true ->
  exists out,
    detect_conflicts (l1 ++ f1 :: l2 ++ f2 :: l3) = Py.Ok out
    /\ ((exists sev,
           In (value_contradiction (key f1) (value f1, value f2)
                 (source_text f1, source_text f2)
                 (confidence f1, confidence f2) sev) out)
        <-> PyFloat.gtb
              (PyFloat.div (PyFloat.abs (PyFloat.sub n1 n2))
                 (PyFloat.max n1 n2))
              tenth = true)
    /\ (forall sev,
          In (value_contradiction (key f1) (value f1, value f2)
                (source_text f1, source_text f2)
                (confidence f1, confidence f2) sev) out ->
          sev = if PyFloat.ltb
                     (PyFloat.abs
                        (PyFloat.sub (confidence f1) (confidence f2)))
                     two_tenths
                then high else medium).
Proof.
  intros Hk H1 H2 Hmax. eexists. split; [apply detect_conflicts_eq|].
  rewrite <- (values_conflict_numeric _ _ _ _ H1 H2 Hmax). split; [split|].
  - intros [sev H]. apply value_record_origin in H as [k' [a [b [E H]]]].
    unfold contradiction in E. injection E as _ -> -> _ _ _ _ _. exact H.
  - intros H. destruct (group_by_key_pair l1 l2 l3 f1 f2 Hk) as [fs [G [L P]]].
    eexists. apply in_or_app. left. apply in_flat_map.
    exists (key f1, fs). split; [exact G|].
    unfold value_records. cbn [fst snd].
    apply Nat.ltb_lt in L. rewrite L. unfold detect_group_conflicts.
    apply in_map_iff. exists (f1, f2). split; [reflexivity|].
    apply filter_In. split; [exact P|exact H].
  - intros sev H. apply value_record_origin in H as [k' [a [b [E _]]]].
    unfold contradiction in E. injection E as _ _ _ _ _ -> -> ->.
    reflexivity.
Qed.

Definition margin_fact (v : string) : ExtractedFact :=
  mkFact (str "interest_rates.margin") (str v)
    (PyFloat.of_decimal false 8 (-1)) None None None None None.

Lemma C5_numeric_conflict_rule_witness :
  exists out,
    detect_conflicts [margin_fact "2%"; margin_fact "2.5%"] = Py.Ok out
    /\ ((exists sev,
           In (value_contradiction (str "interest_rates.margin")
                 (str "2%", str "2.5%") (None, None)
                 (PyFloat.of_decimal false 8 (-1),
                  PyFloat.of_decimal false 8 (-1)) sev) out)
        <-> PyFloat.gtb
              (PyFloat.div
                 (PyFloat.abs
                    (PyFloat.sub (PyFloat.of_decimal false 2 0)
                       (PyFloat.of_decimal false 25 (-1))))
                 (PyFloat.max (PyFloat.of_decimal false 2 0)
                    (PyFloat.of_decimal false 25 (-1))))
              tenth = true)
    /\ (forall sev,
          In (value_contradiction (str "interest_rates.margin")
                (str "2%", str "2.5%") (None, None)
                (PyFloat.of_decimal false 8 (-1),
                 PyFloat.of_decimal false 8 (-1)) sev) out ->
          sev = if PyFloat.ltb
                     (PyFloat.abs
                        (PyFloat.sub (PyFloat.of_decimal false 8 (-1))
                           (PyFloat.of_decimal false 8 (-1))))
                     two_tenths
                then high else medium).
Proof.
  apply (C5_numeric_conflict_rule [] [] []
           (margin_fact "2%") (margin_fact "2.5%")
           (PyFloat.of_decimal false 2 0) (PyFloat.of_decimal false 25 (-1)));
    vm_compute; reflexivity.
Defined.

(** The fixture pair of the specification: one record, of severity
    [high]. *)
Lemma margin_fixture :
  detect_conflicts [margin_fact "2%"; margin_fact "2.5%"]
  = Py.Ok
      [ value_contradiction (str "interest_rates.margin")
          (str "2%", str "2.5%") (None, None)
          (PyFloat.of_decimal false 8 (-1), PyFloat.of_decimal false 8 (-1))
          high ].
Proof. vm_compute. reflexivity. Qed.

Definition amount_fact (v : string) : ExtractedFact :=
  mkFact (str "loan_amount.maximum") (str v)
    (PyFloat.of_decimal false 8 (-1)) None None None None None.

(** C5, the claim as worded: the integers 8999999999999999 and
    8099999999999999 are read exactly, and they differ by more than a tenth
    of the larger one; the quotient is rounded to [0.1], which is not
    greater than [0.1], and no record is emitted. *)
Lemma C5_exact_tenth_not_detected :
  PyFloat.of_str (Re.sub NON_NUMERIC [] (str "8999999999999999"))
  = Py.Ok (S754_finite false 8999999999999999 0)
  /\ PyFloat.of_str (Re.sub NON_NUMERIC [] (str "8099999999999999"))
     = Py.Ok (S754_finite false 8099999999999999 0)
  /\ PyFloat.gtb
       (PyFloat.max (S754_finite false 8999999999999999 0)
          (S754_finite false 8099999999999999 0)) zero = true
  /\ (10 * (8999999999999999 - 8099999999999999) > 8999999999999999)%Z
  /\ detect_conflicts
       [amount_fact "8999999999999999"; amount_fact "8099999999999999"]
     = Py.Ok [].
Proof. repeat split; vm_compute; reflexivity. Qed.

(** ** Conflicts between the ranges of a category *)

Lemma strip_prefix_self (p q : pystr) : strip_prefix p (p ++ q) = Some q.
Proof.
  induction p as [|a p IH]; simpl; [reflexivity|]. now rewrite N.eqb_refl.
Qed.

Lemma contains_split (s sub : pystr) :
  contains s sub = true -> exists p q, s = p ++ sub ++ q.
Proof.
  induction s as [|c s IH]; simpl.
  - rewrite orb_false_r. unfold startswith.
    destruct (strip_prefix sub []) as [q|] eqn:E; [|discriminate].
    intros _. apply strip_prefix_app in E. now exists [], q.
  - intros H. apply orb_true_iff in H as [H|H].
    + unfold startswith in H.
      destruct (strip_prefix sub (c :: s)) as [q|] eqn:E; [|discriminate].
      apply strip_prefix_app in E. now exists [], q.
    + apply IH in H as [p [q ->]]. now exists (c :: p), q.
Qed.

Lemma contains_app (p sub q : pystr) : contains (p ++ sub ++ q) sub = true.
Proof.
  assert (S : startswith (sub ++ q) sub = true)
    by (unfold startswith; now rewrite strip_prefix_self).
  induction p as [|c p IH].
  - simpl app. destruct (sub ++ q); simpl; now rewrite S.
  - simpl. rewrite IH. apply orb_true_r.
Qed.

(** A key that contains the keyword is filed under it. *)
Lemma contains_interest_rate (k : pystr) :
  contains k (str "interest_rate") = true ->
  contains (lower k) (str "interest_rate") = true.
Proof.
  intros H. apply contains_split in H as [p [q ->]].
  unfold lower. rewrite !flat_map_app.
  replace (flat_map lower_char (str "interest_rate"))
    with (str "interest_rate") by (vm_compute; reflexivity).
  apply contains_app.
Qed.

(** [x] occurs once in [l]. *)
Definition once {A : Type} (x : A) (l : list A) : Prop :=
  exists l1 l2, l = l1 ++ x :: l2 /\ ~ In x l1 /\ ~ In x l2.

Lemma once_unique {A : Type} (x : A) (r1 r2 s1 s2 : list A) :
  ~ In x r1 -> ~ In x r2 -> r1 ++ x :: r2 = s1 ++ x :: s2 ->
  r1 = s1 /\ r2 = s2.
Proof.
  revert s1. induction r1 as [|y r1 IH]; intros [|z s1] H1 H2 E; simpl in *.
  - injection E as <-. now split.
  - injection E as <- ->. exfalso. apply H2. apply in_or_app. right. now left.
  - injection E as -> _. tauto.
  - injection E as <- E. apply IH in E; [|tauto|exact H2].
    destruct E as [-> ->]. now split.
Qed.

Lemma once_twice {A : Type} (a b : A) (l : list A) :
  once a l -> once b l -> a <> b ->
  exists l1 l2 l3,
    (l = l1 ++ a :: l2 ++ b :: l3 \/ l = l1 ++ b :: l2 ++ a :: l3)
    /\ ~ In a (l1 ++ l2 ++ l3) /\ ~ In b (l1 ++ l2 ++ l3).
Proof.
  intros [p [q [E [Hp Hq]]]] [r [s [E' [Hr Hs]]]] Hab.
  assert (Hb : In b (p ++ a :: q)).
  { rewrite <- E, E'. apply in_or_app. right. now left. }
  apply in_app_or in Hb as [Hb|[Hb|Hb]]; [|contradiction|].
  - apply in_split in Hb as [p1 [p2 ->]].
    exists p1, p2, q. split; [right|].
    + rewrite E, <- app_assoc. reflexivity.
    + rewrite E, <- app_assoc in E'. cbn [app] in E'.
      symmetry in E'. apply once_unique in E' as [-> ->]; try assumption.
      rewrite !in_app_iff in *. cbn [In] in *. split; intros H; tauto.
  - apply in_split in Hb as [q1 [q2 ->]].
    exists p, q1, q2. split; [now left|].
    rewrite E in E'.
    change (p ++ a :: q1 ++ b :: q2) with (p ++ (a :: q1) ++ b :: q2) in E'.
    rewrite app_assoc in E'.
    symmetry in E'. apply once_unique in E' as [-> ->]; try assumption.
    rewrite !in_app_iff in *. cbn [In] in *. split; intros H; tauto.
Qed.

(** An [overlapping_ranges] record of the category for the two facts, in
    either order. *)
Definition about (category : pystr) (fa fb : ExtractedFact) (c : Conflict)
    : Prop :=
  match c with
  | overlapping_ranges category' (r1, r2) _ _ =>
      category' = category
      /\ ((r_fact r1 = fa /\ r_fact r2 = fb)
          \/ (r_fact r1 = fb /\ r_fact r2 = fa))
  | value_contradiction _ _ _ _ _ => False
  end.

Lemma ranges_of_member (r : Range) (fs : list ExtractedFact) :
  In r (flat_map ranges_of fs) -> In (r_fact r) fs.
Proof.
  intros H. apply in_flat_map in H as [f [Hf Hr]].
  destruct (ranges_of_eq f) as [_ [_ Hall]].
  rewrite Forall_forall in Hall. now rewrite (Hall r Hr).
Qed.

Lemma value_records_not_about (category : pystr) (fa fb : ExtractedFact)
    (groups : Dict.dict (list ExtractedFact)) :
  Forall (fun c => ~ about category fa fb c) (flat_map value_records groups).
Proof.
  apply Forall_forall. intros c H. apply in_flat_map in H as [g [_ H]].
  unfold value_records in H.
  destruct (Nat.ltb 1 (List.length (snd g))); [|contradiction].
  apply in_map_iff in H as [p [<- _]]. simpl. tauto.
Qed.

Lemma range_records_not_about (category : pystr) (fa fb : ExtractedFact)
    (groups : Dict.dict (list ExtractedFact)) :
  ~ In category (keys groups) ->
  Forall (fun c => ~ about category fa fb c) (flat_map range_records groups).
Proof.
  intros Hk. apply Forall_forall. intros c H.
  apply in_flat_map in H as [g [Hg H]]. unfold range_records in H.
  destruct (Nat.ltb 1 (List.length (snd g))); [|contradiction].
  apply in_map_iff in H as [[u v] [<- _]]. simpl. intros [E _].
  apply Hk. unfold keys. rewrite <- E. now apply in_map.
Qed.

(** Two facts of the category [interest_rate] that occur once, each with
    one range, the two ranges contradictory: one record of the category
    is about them. *)
Lemma range_pair_once (l1 l2 l3 : list ExtractedFact) (x y : ExtractedFact)
    (rx ry : Range) :
  in_category (str "interest_rate") x = true ->
  in_category (str "interest_rate") y = true ->
  ranges_of x = [rx] -> ranges_of y = [ry] ->
  ranges_overlap_contradictory rx ry = true ->
  ~ In x (l1 ++ l2 ++ l3) -> ~ In y (l1 ++ l2 ++ l3) -> x <> y ->
  exists pre post,
    detect_conflicts (l1 ++ x :: l2 ++ y :: l3)
    = Py.Ok (pre ++ overlap (str "interest_rate") rx ry :: post)
    /\ Forall (fun c => ~ about (str "interest_rate") x y c) (pre ++ post).
Proof.
  intros Cx Cy Rx Ry Hroc Nx Ny Hxy.
  set (ir := str "interest_rate") in *.
  set (facts := l1 ++ x :: l2 ++ y :: l3).
  set (F := filter (in_category ir)).
  assert (Efs : getl (group_range_facts facts) ir
                = F l1 ++ x :: F l2 ++ y :: F l3).
  { unfold ir. rewrite group_range_facts_getl. fold ir. unfold facts, F.
    rewrite filter_app. cbn [filter]. rewrite Cx.
    rewrite filter_app. cbn [filter]. rewrite Cy. reflexivity. }
  assert (Hin : In (ir, getl (group_range_facts facts) ir)
                  (group_range_facts facts)).
  { apply getl_in. rewrite Efs. now destruct (F l1). }
  rewrite Efs in Hin. clear Efs.
  assert (Hnd := group_range_facts_keys facts).
  apply in_split in Hin as [G1 [G2 EG]]. rewrite EG in Hnd.
  unfold keys in Hnd. rewrite map_app in Hnd. cbn [map fst] in Hnd.
  assert (K1 : ~ In ir (keys G1)).
  { intros H. apply NoDup_remove_2 in Hnd. apply Hnd.
    apply in_or_app. now left. }
  assert (K2 : ~ In ir (keys G2)).
  { intros H. apply NoDup_remove_2 in Hnd. apply Hnd.
    apply in_or_app. now right. }
  assert (Hsub : forall z, In z (F l1 ++ F l2 ++ F l3) ->
                           In z (l1 ++ l2 ++ l3)).
  { intros z. unfold F. rewrite !in_app_iff, !filter_In. tauto. }
  destruct (pairs_unique (fun r => r_fact r = x) (fun r => r_fact r = y)
              (flat_map ranges_of (F l1)) (flat_map ranges_of (F l2))
              (flat_map ranges_of (F l3)) rx ry)
    as [PRE [POST [EP HP]]].
  { intros z Hz. rewrite <- !flat_map_app in Hz.
    apply ranges_of_member, Hsub in Hz. split; congruence. }
  { destruct (ranges_of_eq y) as [_ [_ Hall]]. rewrite Ry in Hall.
    inversion Hall. congruence. }
  set (roc := fun p : Range * Range =>
                ranges_overlap_contradictory (fst p) (snd p)) in *.
  set (rec := fun p : Range * Range => overlap ir (fst p) (snd p)) in *.
  exists (flat_map value_records (group_by_key facts)
          ++ flat_map range_records G1 ++ map rec (filter roc PRE)),
         (map rec (filter roc POST) ++ flat_map range_records G2).
  split.
  - rewrite detect_conflicts_eq. fold facts. rewrite EG.
    rewrite flat_map_app. cbn [flat_map].
    unfold range_records at 2. cbn [fst snd].
    replace (Nat.ltb 1 (List.length (F l1 ++ x :: F l2 ++ y :: F l3)))
      with true.
    + rewrite !flat_map_app. cbn [flat_map]. rewrite !flat_map_app.
      cbn [flat_map]. rewrite Rx, Ry. cbn [app].
      rewrite EP. fold roc. fold rec. rewrite filter_app. cbn [filter].
      unfold roc at 2. cbn [fst snd]. rewrite Hroc.
      rewrite map_app. cbn [map]. unfold rec at 2. cbn [fst snd].
      rewrite <- !app_assoc. reflexivity.
    + symmetry. apply Nat.ltb_lt. rewrite length_app. cbn [List.length].
      rewrite length_app. cbn [List.length]. lia.
  - assert (HR : forall L, (forall u v, In (u, v) L ->
                   ~ ((r_fact u = x /\ r_fact v = y)
                      \/ (r_fact u = y /\ r_fact v = x))) ->
                 Forall (fun c => ~ about ir x y c) (map rec (filter roc L))).
    { intros L HL. apply Forall_forall. intros c Hc.
      apply in_map_iff in Hc as [[u v] [<- Hc]]. apply filter_In in Hc as [Hc _].
      simpl. intros [_ H]. now apply (HL u v). }
    apply Forall_app. split; apply Forall_app; split.
    + apply value_records_not_about.
    + apply Forall_app. split.
      * now apply range_records_not_about.
      * apply HR. intros u v H. apply HP. apply in_or_app. now left.
    + apply HR. intros u v H. apply HP. apply in_or_app. now right.
    + now apply range_records_not_about.
Qed.

Definition up_to_5 (fact : ExtractedFact) : Range :=
  mkRange fact zero (PyFloat.of_decimal false 5 0) upper_bound.

Definition minimum_10 (fact : ExtractedFact) : Range :=
  mkRange fact (PyFloat.of_decimal false 10 0) PyFloat.inf lower_bound.

Lemma ranges_of_up_to_5 (fact : ExtractedFact) :
  value fact = str "up to 5%" -> ranges_of fact = [up_to_5 fact].
Proof.
  destruct fact as [k v c pg st co sr ed]. cbn [value]. intros ->.
  vm_compute. reflexivity.
Qed.

Lemma ranges_of_minimum_10 (fact : ExtractedFact) :
  value fact = str "minimum 10%" -> ranges_of fact = [minimum_10 fact].
Proof.
  destruct fact as [k v c pg st co sr ed]. cbn [value]. intros ->.
  vm_compute. reflexivity.
Qed.

(** C6 (amended): a fact whose value is "up to 5%" and a fact whose value
    is "minimum 10%", each occurring once among the facts, both with a
    key that contains "interest_rate".  [detect_conflicts] returns, and
    exactly one record of its result is an [overlapping_ranges] record of
    the category [interest_rate] about the two facts; it holds their two
    ranges in the order of the facts and has severity [high]. *)
Theorem C6_range_contradiction (facts : list ExtractedFact)
    (fa fb : ExtractedFact) :
  once fa facts -> once fb facts ->
  value fa = str "up to 5%" -> value fb = str "minimum 10%" ->
  contains (key fa) (str "interest_rate") = true ->
  contains (key fb) (str "interest_rate") = true ->
  exists pre c post,
    detect_conflicts facts = Py.Ok (pre ++ c :: post)
    /\ (c = overlapping_ranges (str "interest_rate")
              (up_to_5 fa, minimum_10 fb) high
              (str "Mark as SUSPECT - contradictory range information")
        \/ c = overlapping_ranges (str "interest_rate")
                 (minimum_10 fb, up_to_5 fa) high
                 (str "Mark as SUSPECT - contradictory range information"))
    /\ Forall (fun c' => ~ about (str "interest_rate") fa fb c') (pre ++ post).
Proof.
  intros Oa Ob Va Vb Ka Kb.
  assert (Hab : fa <> fb).
  { intros E. rewrite E, Vb in Va. vm_compute in Va. discriminate. }
  apply contains_interest_rate in Ka, Kb.
  destruct (once_twice fa fb facts Oa Ob Hab) as [l1 [l2 [l3 [[E|E] [Na Nb]]]]];
    subst facts.
  - destruct (range_pair_once l1 l2 l3 fa fb (up_to_5 fa) (minimum_10 fb))
      as [pre [post [E H]]]; try assumption.
    + now apply ranges_of_up_to_5.
    + now apply ranges_of_minimum_10.
    + reflexivity.
    + exists pre, (overlap (str "interest_rate") (up_to_5 fa) (minimum_10 fb)),
        post.
      split; [exact E|]. split; [now left|exact H].
  - destruct (range_pair_once l1 l2 l3 fb fa (minimum_10 fb) (up_to_5 fa))
      as [pre [post [E H]]]; try assumption.
    + now apply ranges_of_minimum_10.
    + now apply ranges_of_up_to_5.
    + reflexivity.
    + congruence.
    + exists pre, (overlap (str "interest_rate") (minimum_10 fb) (up_to_5 fa)),
        post.
      split; [exact E|]. split; [now right|].
      apply Forall_forall. intros c Hc. rewrite Forall_forall in H.
      apply H in Hc. destruct c as [| cat [r1 r2] sv rc]; simpl in *; tauto.
Qed.

Definition rate_fact (k v : string) : ExtractedFact :=
  mkFact (str k) (str v) (PyFloat.of_decimal false 8 (-1))
    None None None None None.

Lemma C6_range_contradiction_witness :
  exists pre c post,
    detect_conflicts
      [ rate_fact "interest_rates.interest_rate_cap" "up to 5%";
        rate_fact "interest_rates.interest_rate_floor" "minimum 10%" ]
    = Py.Ok (pre ++ c :: post)
    /\ (c = overlapping_ranges (str "interest_rate")
              (up_to_5 (rate_fact "interest_rates.interest_rate_cap" "up to 5%"),
               minimum_10
                 (rate_fact "interest_rates.interest_rate_floor" "minimum 10%"))
              high
              (str "Mark as SUSPECT - contradictory range information")
        \/ c = overlapping_ranges (str "interest_rate")
                 (minimum_10
                    (rate_fact "interest_rates.interest_rate_floor"
                       "minimum 10%"),
                  up_to_5
                    (rate_fact "interest_rates.interest_rate_cap" "up to 5%"))
                 high
                 (str "Mark as SUSPECT - contradictory range information"))
    /\ Forall
         (fun c' =>
            ~ about (str "interest_rate")
                (rate_fact "interest_rates.interest_rate_cap" "up to 5%")
                (rate_fact "interest_rates.interest_rate_floor" "minimum 10%")
                c')
         (pre ++ post).
Proof.
  apply (C6_range_contradiction
           [ rate_fact "interest_rates.interest_rate_cap" "up to 5%";
             rate_fact "interest_rates.interest_rate_floor" "minimum 10%" ]);
    try (vm_compute; reflexivity).
  - exists [], [rate_fact "interest_rates.interest_rate_floor" "minimum 10%"].
    split; [reflexivity|]. split; [intros []|].
    intros [H|[]]. vm_compute in H. discriminate.
  - exists [rate_fact "interest_rates.interest_rate_cap" "up to 5%"], [].
    split; [reflexivity|]. split; [|intros []].
    intros [H|[]]. vm_compute in H. discriminate.
Defined.

(** C6, the claim as worded: with "age" (in "percentage") in both keys as
    well, the pair is filed under two categories and gets two
    [overlapping_ranges] records. *)
Lemma C6_two_records_for_one_pair :
  detect_conflicts
    [ rate_fact "floating_interest_rate_percentage" "up to 5%";
      rate_fact "fixed_interest_rate_percentage" "minimum 10%" ]
  = Py.Ok
      [ overlapping_ranges (str "interest_rate")
          (up_to_5 (rate_fact "floating_interest_rate_percentage" "up to 5%"),
           minimum_10
             (rate_fact "fixed_interest_rate_percentage" "minimum 10%"))
          high (str "Mark as SUSPECT - contradictory range information");
        overlapping_ranges (str "age")
          (up_to_5 (rate_fact "floating_interest_rate_percentage" "up to 5%"),
           minimum_10
             (rate_fact "fixed_interest_rate_percentage" "minimum 10%"))
          high (str "Mark as SUSPECT - contradictory range information") ].
Proof. vm_compute. reflexivity. Qed.


(* ================================================================== *)
(** * Further properties                                               *)
(* ================================================================== *)

(** ** Keys: the form of a normalized key *)

Lemma contains_split_once (sep s : pystr) :
  contains s sep = true -> exists h t, split_once sep s = Some (h, t).
Proof.
  induction s as [|c s IH]; cbn [contains split_once]; unfold startswith.
  - destruct (strip_prefix sep []) as [r|]; [eauto|discriminate].
  - destruct (strip_prefix sep (c :: s)) as [r|]; [eauto|].
    cbn [orb]. intros H. apply IH in H as [h [t ->]]. eauto.
Qed.

(** X1.  [_normalize_key] returns, for a key with a dot, a section and a
    field joined by one dot, and for a key without a dot one segment; each
    segment is made of lower-case ASCII letters, digits and underscores,
    has no two underscores side by side and none at either end. *)
Theorem normalize_key_form (key : pystr) :
  if contains key (str ".")
  then exists section field,
         normalize_key key = section ++ str "." ++ field
         /\ normalb section = true /\ normalb field = true
  else normalb (normalize_key key) = true.
Proof.
  unfold normalize_key. destruct (contains key (str ".")) eqn:D.
  - destruct (contains_split_once _ _ D) as [h [t E]]. rewrite E.
    exists (normalize_part h), (apply_synonyms (normalize_part t)).
    split; [reflexivity|]. split.
    + apply normalize_part_normal.
    + apply apply_synonyms_normal, normalize_part_normal.
  - apply apply_synonyms_normal, normalize_part_normal.
Qed.

(** ** Keys: where normalization is idempotent *)










(** A field with one synonym is not safe either: the canonical term that
    replaces it can make a new synonym with what follows. *)
Example one_synonym_takes_two_passes :
  normalize_key (str "loan_amount_and_ltv.loan_to_value_ratio")
  = str "loan_amount_and_ltv.ltv_ratio"
  /\ normalize_key (str "loan_amount_and_ltv.ltv_ratio")
     = str "loan_amount_and_ltv.ltv".
Proof. vm_compute. split; reflexivity. Qed.

(** ** Gap analysis: what is listed *)

(** X2.  [_analyze_gaps] lists a term under a section exactly when the
    term is a high-value term of the section and no rule fact has the key
    [section.term]. *)
Theorem analyze_gaps_lists_exactly (rule_facts : list ExtractedFact)
    (section term : pystr) :
  (exists missing,
      In (section, missing) (analyze_gaps rule_facts) /\ In term missing)
  <-> (exists terms,
          In (section, terms) HIGH_VALUE_TERMS /\ In term terms
          /\ forall f, In f rule_facts -> key f <> section ++ str "." ++ term).
Proof.
  rewrite analyze_gaps_eq. split.
  - intros [missing [Hin Hterm]]. apply filter_In in Hin as [Hin _].
    apply in_map_iff in Hin as [[s terms] [E Hin]]. cbn [fst snd] in E.
    injection E as -> <-. exists terms. split; [exact Hin|].
    unfold missing_terms in Hterm. apply filter_In in Hterm as [Ht Hn].
    split; [exact Ht|]. intros f Hf Hk. apply negb_true_iff in Hn.
    assert (F : is_found (found_terms rule_facts) (section ++ str "." ++ term)
                = true) by (apply is_found_iff; eauto).
    congruence.
  - intros [terms [Hin [Ht Hn]]].
    exists (missing_terms (found_terms rule_facts) section terms).
    assert (M : In term (missing_terms (found_terms rule_facts) section terms)).
    { unfold missing_terms. apply filter_In. split; [exact Ht|].
      apply negb_true_iff. apply not_true_is_false. intros F.
      apply is_found_iff in F as [f [Hf Hk]]. now apply (Hn f). }
    split; [|exact M]. apply filter_In. split.
    + apply in_map_iff. exists (section, terms). now split.
    + unfold has_terms. cbn [snd].
      destruct (missing_terms _ _ _); [contradiction|reflexivity].
Qed.

(** A high-value term that is not found is listed. *)
Lemma analyze_gaps_eq_in (rule_facts : list ExtractedFact)
    (section term : pystr) (terms : list pystr) :
  In (section, terms) HIGH_VALUE_TERMS -> In term terms ->
  is_found (found_terms rule_facts) (section ++ str "." ++ term) = false ->
  exists missing,
    In (section, missing) (analyze_gaps rule_facts) /\ In term missing.
Proof.
  intros Hin Ht F. rewrite analyze_gaps_eq.
  exists (missing_terms (found_terms rule_facts) section terms).
  assert (M : In term (missing_terms (found_terms rule_facts) section terms)).
  { unfold missing_terms. apply filter_In. split; [exact Ht|]. now rewrite F. }
  split; [|exact M]. apply filter_In. split.
  - apply in_map_iff. exists (section, terms). now split.
  - unfold has_terms. cbn [snd].
    destruct (missing_terms _ _ _); [contradiction|reflexivity].
Qed.

(** X3.  [_analyze_gaps] returns the empty mapping exactly when every
    high-value term has a rule fact; a section it lists is never listed
    with an empty list. *)
Theorem analyze_gaps_empty_iff_covered (rule_facts : list ExtractedFact) :
  (analyze_gaps rule_facts = []
   <-> forall section terms term,
         In (section, terms) HIGH_VALUE_TERMS -> In term terms ->
         exists f, In f rule_facts /\ key f = section ++ str "." ++ term)
  /\ Forall (fun e => snd e <> []) (analyze_gaps rule_facts).
Proof.
  split; [split|].
  - intros E section terms term Hin Ht.
    destruct (is_found (found_terms rule_facts) (section ++ str "." ++ term))
      eqn:F; [now apply is_found_iff in F|].
    exfalso.
    assert (H : exists missing,
                  In (section, missing) (analyze_gaps rule_facts)
                  /\ In term missing).
    { now apply (analyze_gaps_eq_in rule_facts section term terms). }
    destruct H as [missing [H _]]. now rewrite E in H.
  - intros H. destruct (analyze_gaps rule_facts) as [|[s m] rest] eqn:E;
      [reflexivity|]. exfalso.
    assert (Hin : In (s, m) (analyze_gaps rule_facts)) by (rewrite E; now left).
    rewrite analyze_gaps_eq in Hin. apply filter_In in Hin as [Hin Hm].
    apply in_map_iff in Hin as [[s' terms] [E' Hin]]. cbn [fst snd] in E'.
    injection E' as -> <-. unfold has_terms in Hm. cbn [snd] in Hm.
    destruct (missing_terms _ _ _) as [|t ts] eqn:M; [discriminate|].
    assert (Ht : In t (missing_terms (found_terms rule_facts) s terms))
      by (rewrite M; now left).
    unfold missing_terms in Ht. apply filter_In in Ht as [Ht Hn].
    destruct (H s terms t Hin Ht) as [f [Hf Hk]].
    assert (F : is_found (found_terms rule_facts) (s ++ str "." ++ t) = true)
      by (apply is_found_iff; eauto).
    rewrite F in Hn. discriminate.
  - rewrite analyze_gaps_eq. apply Forall_forall. intros [s m] Hin.
    apply filter_In in Hin as [_ Hm]. unfold has_terms in Hm. cbn [snd] in *.
    now destruct m.
Qed.

(** ** Currency and percentage texts *)

Lemma existsb_cons_true {A : Type} (f : A -> bool) (x : A) (l : list A) :
  f x = true -> existsb f (x :: l) = true.
Proof. intros H. simpl. now rewrite H. Qed.

Lemma normalize_currency_loop_form (patterns : list pattern) (value : pystr) :
  normalize_currency_loop patterns value = value
  \/ (existsb (fun p => searches p value) patterns = true
      /\ exists amount, normalize_currency_loop patterns value = inr amount).
Proof.
  induction patterns as [|p more IH]; [now left|].
  cbn [normalize_currency_loop existsb]. unfold searches at 1.
  destruct (search p value) as [m|] eqn:E.
  - cbn [orb]. destruct (currency_of_match value m) as [out|] eqn:C.
    + right. split; [reflexivity|]. unfold currency_of_match in C.
      destruct (PyFloat.of_str _) as [a|e];
        repeat match type of C with
               | context [if ?c then _ else _] => destruct c
               end;
        try discriminate; injection C as <-; eauto.
    + destruct IH as [IH|[_ IH]]; [now left|right]. now split.
  - cbn [orb]. exact IH.
Qed.

(** X4.  [_normalize_currency] returns the value it was given, or, when
    one of the currency patterns is found in the value, an amount printed
    as [INR] and the amount with thousands separators and no decimals. *)
Theorem normalize_currency_form (value : pystr) :
  normalize_currency value = value
  \/ (contains_currency value = true
      /\ exists amount,
           normalize_currency value
           = str "INR " ++ PyFloat.format_f true 0 amount).
Proof. apply normalize_currency_loop_form. Qed.

Lemma normalize_percentage_loop_form (patterns : list pattern) (value : pystr) :
  normalize_percentage_loop patterns value = value
  \/ (existsb (fun p => searches p value) patterns = true
      /\ exists percentage,
           normalize_percentage_loop patterns value
           = PyFloat.repr percentage ++ str "%").
Proof.
  induction patterns as [|p more IH]; [now left|].
  cbn [normalize_percentage_loop existsb]. unfold searches at 1.
  destruct (search p value) as [m|] eqn:E; cbn [orb]; [|exact IH].
  destruct (PyFloat.of_str _) as [a|e].
  - right. split; [reflexivity|]. eauto.
  - destruct IH as [IH|[_ IH]]; [now left|right]. now split.
Qed.

(** X5.  [_normalize_percentage] returns the value it was given, or,
    when one of the percentage patterns is found in the value, the [repr]
    of a float followed by the percent sign. *)
Theorem normalize_percentage_form (value : pystr) :
  normalize_percentage value = value
  \/ (contains_percentage value = true
      /\ exists percentage,
           normalize_percentage value = PyFloat.repr percentage ++ str "%").
Proof. apply normalize_percentage_loop_form. Qed.

(** ** Blank values *)

Lemma looks_bad_blank (value : pystr) : strip value = [] -> looks_bad value = true.
Proof.
  intros H. unfold looks_bad. rewrite H.
  unfold compiled_bad_value_patterns, BAD_VALUE_PATTERNS. cbn [map].
  apply existsb_cons_true. vm_compute. reflexivity.
Qed.

(** X6.  [normalize_facts] returns no fact whose value is empty or white
    space only. *)
Theorem normalize_facts_no_blank (facts : list ExtractedFact) :
  Forall (fun f => strip (value f) <> []) (normalize_facts facts).
Proof.
  apply Forall_forall. intros f H. unfold normalize_facts in H.
  apply filter_In in H as [_ H]. intros E.
  apply looks_bad_blank in E. now rewrite E in H.
Qed.

Lemma normalize_value_blank (value key : pystr) :
  strip value = [] -> normalize_value value key = [].
Proof.
  intros H. unfold normalize_value.
  destruct (PyStr.eqb value []); [reflexivity|]. rewrite H.
  assert (E1 : match_ WHICHEVER [] = None) by (vm_compute; reflexivity).
  assert (E2 : match_ PCT_OR_AMOUNT [] = None) by (vm_compute; reflexivity).
  assert (E3 : match_ PCT_RANGE [] = None) by (vm_compute; reflexivity).
  assert (E4 : emi_amount_step [] key = Some []).
  { unfold emi_amount_step.
    destruct (endswith (lower key) (str "repayment.emi_amount")
              || contains (lower key) (str "emi_amount")); [|reflexivity].
    vm_compute. reflexivity. }
  assert (E5 : normalize_currency [] = []) by (vm_compute; reflexivity).
  assert (E6 : normalize_percentage [] = []) by (vm_compute; reflexivity).
  assert (E7 : normalize_number [] = []) by (vm_compute; reflexivity).
  assert (E8 : normalize_text [] = []) by (vm_compute; reflexivity).
  assert (E9 : contains [] (str "₹") || contains [] (str "`")
               || contains (lower []) (str "rs")
               || contains (lower []) (str "inr") = false)
    by (vm_compute; reflexivity).
  cbv zeta. destruct (contains (lower key) (str "emi_currency")).
  - now rewrite E9.
  - rewrite E1, E2, E4. cbv beta iota. rewrite E3, E5, E6, E7, E8.
    repeat match goal with
           | |- context [if ?c then _ else _] => destruct c
           end; reflexivity.
Qed.

(** X7.  A fact whose value is empty or white space only is dropped by
    [normalize_facts], whatever its key. *)
Theorem normalize_facts_drops_blank (before after : list ExtractedFact)
    (fact : ExtractedFact) :
  strip (value fact) = [] ->
  normalize_facts (before ++ fact :: after)
  = normalize_facts before ++ normalize_facts after.
Proof.
  intros H. unfold normalize_facts. rewrite map_app, filter_app.
  cbn [map filter]. cbn [normalize_single_fact value].
  rewrite (normalize_value_blank _ _ H).
  assert (E : looks_bad [] = true) by (vm_compute; reflexivity).
  now rewrite E.
Qed.

Definition blank_fact : ExtractedFact :=
  mkFact (str "fees_and_charges.processing_fee") (str "   ")
    RuleBasedExtraction.rule_confidence None None None None None.

Lemma normalize_facts_drops_blank_witness :
  normalize_facts ([processing_fee_fact] ++ blank_fact :: [processing_fee_fact])
  = normalize_facts [processing_fee_fact]
    ++ normalize_facts [processing_fee_fact].
Proof.
  apply (normalize_facts_drops_blank [processing_fee_fact]
           [processing_fee_fact] blank_fact).
  vm_compute. reflexivity.
Defined.

(** ** Ranges *)

(** An upper bound starts at zero, a lower bound has no end. *)
Definition range_shape (r : Range) : Prop :=
  match r_type r with
  | upper_bound => r_min r = zero
  | lower_bound => r_max r = PyFloat.inf
  | range => True
  end.

Lemma ranges_of_fact_shape (patterns : list pattern) (fact : ExtractedFact)
    (rs : list Range) :
  ranges_of_fact patterns fact = Py.Ok rs -> Forall range_shape rs.
Proof.
  induction patterns as [|p more IH]; cbn [ranges_of_fact].
  - intros [= <-]. constructor.
  - destruct (search p (value fact)) as [m|]; [|exact IH].
    unfold range_of_match.
    repeat match goal with
           | |- context [if ?c then _ else _] => destruct c
           | |- context [float_of_group ?s ?m ?i] =>
               destruct (float_of_group s m i)
           end;
      cbn [Py.bind]; intros H; try discriminate; injection H as <-;
      repeat constructor.
Qed.

(** X8.  [_extract_ranges] raises nothing: the text of a captured number
    is always read by [float].  It returns at most one range per fact,
    each for a fact of the list; an upper bound starts at zero and a lower
    bound ends at infinity. *)
Theorem extract_ranges_returns (facts : list ExtractedFact) :
  exists ranges,
    extract_ranges facts = Py.Ok ranges
    /\ List.length ranges <= List.length facts
    /\ Forall (fun r => In (r_fact r) facts /\ range_shape r) ranges.
Proof.
  exists (flat_map ranges_of facts). split; [apply extract_ranges_eq|]. split.
  - induction facts as [|f more IH]; [simpl; lia|].
    cbn [flat_map]. rewrite length_app. cbn [List.length].
    destruct (ranges_of_eq f) as [_ [L _]]. lia.
  - apply Forall_forall. intros r H. split; [now apply ranges_of_member|].
    apply in_flat_map in H as [f [_ H]].
    destruct (ranges_of_eq f) as [E _].
    apply ranges_of_fact_shape in E. rewrite Forall_forall in E. now apply E.
Qed.

(** X9.  An upper bound and a lower bound are contradictory exactly when
    the end of the upper bound is below the start of the lower bound,
    whichever of the two comes first. *)
Theorem bounds_contradictory (fact1 fact2 : ExtractedFact)
    (top bottom : PyFloat.float) :
  ranges_overlap_contradictory
    (mkRange fact1 zero top upper_bound)
    (mkRange fact2 bottom PyFloat.inf lower_bound)
  = PyFloat.ltb top bottom
  /\ ranges_overlap_contradictory
       (mkRange fact2 bottom PyFloat.inf lower_bound)
       (mkRange fact1 zero top upper_bound)
     = PyFloat.ltb top bottom.
Proof.
  unfold ranges_overlap_contradictory, PyFloat.gtb.
  cbn [r_min r_max r_type range_type_eqb andb].
  destruct top as [[|]|[|]| |[|] m e], bottom as [[|]|[|]| |[|] m' e'];
    split; try reflexivity;
    cbn; repeat match goal with
                | |- context [if ?c then _ else _] => destruct c
                end; reflexivity.
Qed.

(** ** The records of [detect_conflicts] *)

Lemma keys_set_in {V : Type} (d : Dict.dict V) (k0 k : pystr) (v : V) :
  In k (keys (Dict.set d k0 v)) -> In k (keys d) \/ k = k0.
Proof.
  unfold keys. induction d as [|[k1 v1] d IH]; simpl.
  - intros [<-|[]]. now right.
  - destruct (PyStr.eqb k1 k0); simpl; [tauto|].
    intros [<-|H]; [tauto|]. apply IH in H. tauto.
Qed.

Lemma keys_file_fact (d : Dict.dict (list ExtractedFact)) (fact : ExtractedFact)
    (k : pystr) :
  In k (keys (file_fact d fact)) ->
  In k (keys d) \/ In k (map str range_keywords).
Proof.
  unfold file_fact. revert d.
  induction range_keywords as [|kw kws IH]; intros d; cbn [fold_left map].
  - now left.
  - intros H. apply IH in H as [H|H]; [|right; now right].
    destruct (contains (lower (key fact)) (str kw)); [|now left].
    unfold Dict.append_to in H.
    destruct (Dict.get d (str kw)); apply keys_set_in in H as [H|H];
      try (now left); subst k; right; now left.
Qed.

Lemma keys_group_range_facts (facts : list ExtractedFact) (k : pystr) :
  In k (keys (group_range_facts facts)) -> In k (map str range_keywords).
Proof.
  unfold group_range_facts.
  assert (G : forall d, In k (keys (fold_left file_fact facts d)) ->
                        In k (keys d) \/ In k (map str range_keywords)).
  { induction facts as [|f more IH]; intros d; cbn [fold_left]; [now left|].
    intros H. apply IH in H as [H|H]; [|now right].
    now apply keys_file_fact in H. }
  intros H. apply G in H as [[]|H]. exact H.
Qed.

(** X10.  [detect_conflicts] raises nothing.  Every range record it
    returns has one of the six range keywords as its category and the
    severity [high]. *)
Theorem detect_conflicts_returns (facts : list ExtractedFact) :
  exists out,
    detect_conflicts facts = Py.Ok out
    /\ Forall
         (fun c =>
            match c with
            | overlapping_ranges category _ sev _ =>
                In category (map str range_keywords) /\ sev = high
            | value_contradiction _ _ _ _ _ => True
            end) out.
Proof.
  eexists. split; [apply detect_conflicts_eq|].
  apply Forall_app. split; apply Forall_forall; intros c H;
    apply in_flat_map in H as [g [Hg H]].
  - unfold value_records in H.
    destruct (Nat.ltb 1 (List.length (snd g))); [|contradiction].
    apply in_map_iff in H as [p [<- _]]. exact I.
  - unfold range_records in H.
    destruct (Nat.ltb 1 (List.length (snd g))); [|contradiction].
    apply in_map_iff in H as [p [<- _]]. cbn. split; [|reflexivity].
    apply (keys_group_range_facts facts). unfold keys. now apply in_map.
Qed.

Lemma pairs_split {A : Type} (l : list A) (a b : A) :
  In (a, b) (pairs l) -> exists l1 l2 l3, l = l1 ++ a :: l2 ++ b :: l3.
Proof.
  induction l as [|x l IH]; cbn [pairs]; [intros []|].
  intros H. apply in_app_or in H as [H|H].
  - apply in_map_iff in H as [y [E H]]. injection E as -> ->.
    apply in_split in H as [l2 [l3 ->]]. now exists [], l2, l3.
  - apply IH in H as [l1 [l2 [l3 ->]]]. now exists (x :: l1), l2, l3.
Qed.

Lemma filter_split {A : Type} (f : A -> bool) (l m1 m2 : list A) (a : A) :
  filter f l = m1 ++ a :: m2 ->
  exists l1 l2, l = l1 ++ a :: l2 /\ filter f l2 = m2.
Proof.
  revert m1. induction l as [|x l IH]; intros m1; cbn [filter].
  - now destruct m1.
  - destruct (f x) eqn:E.
    + destruct m1 as [|y m1]; cbn [app].
      * intros [= -> H]. now exists [], l.
      * intros [= -> H]. apply IH in H as [l1 [l2 [-> H]]].
        now exists (y :: l1), l2.
    + intros H. apply IH in H as [l1 [l2 [-> H]]]. now exists (x :: l1), l2.
Qed.

Lemma group_by_key_keys (facts : list ExtractedFact) :
  NoDup (keys (group_by_key facts)).
Proof.
  unfold group_by_key.
  assert (G : forall d, NoDup (keys d) ->
                NoDup (keys (fold_left
                               (fun d fact => Dict.append_to d (key fact) fact)
                               facts d))).
  { induction facts as [|f more IH]; intros d H; cbn [fold_left]; [exact H|].
    apply IH. now apply keys_append_to. }
  apply G. constructor.
Qed.

Lemma dict_in_get {V : Type} (d : Dict.dict V) (k : pystr) (v : V) :
  NoDup (keys d) -> In (k, v) d -> Dict.get d k = Some v.
Proof.
  unfold keys. induction d as [|[k0 v0] d IH]; cbn [map fst In Dict.get];
    [intros _ []|].
  intros Hnd. inversion Hnd as [|? ? Hn Hd]; subst. intros [[= -> ->]|H].
  - now rewrite pystr_eqb_refl.
  - destruct (PyStr.eqb k0 k) eqn:E; [|now apply IH].
    apply pystr_eqb_eq in E. subst k0. exfalso. apply Hn.
    change k with (fst (k, v)). now apply in_map.
Qed.

(** The group of a key holds the facts of the key, in their order. *)
Lemma group_by_key_group (facts : list ExtractedFact) (k : pystr)
    (fs : list ExtractedFact) :
  In (k, fs) (group_by_key facts) ->
  fs = filter (fun f => PyStr.eqb (key f) k) facts.
Proof.
  intros H. apply dict_in_get in H; [|apply group_by_key_keys].
  rewrite <- group_by_key_getl. unfold getl. now rewrite H.
Qed.

(** A [value_contradiction] record comes from two facts of its key, the
    first before the second, with different values. *)
Lemma value_record_pair (facts : list ExtractedFact) (k : pystr)
    (vals : pystr * pystr) (srcs : option pystr * option pystr)
    (confs : PyFloat.float * PyFloat.float) (sev : severity) :
  In (value_contradiction k vals srcs confs sev)
    (flat_map value_records (group_by_key facts)
     ++ flat_map range_records (group_range_facts facts)) ->
  exists before fact1 between fact2 after,
    facts = before ++ fact1 :: between ++ fact2 :: after
    /\ key fact1 = k /\ key fact2 = k
    /\ vals = (value fact1, value fact2)
    /\ srcs = (source_text fact1, source_text fact2)
    /\ confs = (confidence fact1, confidence fact2)
    /\ value fact1 <> value fact2.
Proof.
  intros H.
  apply in_app_or in H as [H|H]; apply in_flat_map in H as [[k' fs] [Hg H]].
  - unfold value_records in H. cbn [fst snd] in H.
    destruct (Nat.ltb 1 (List.length fs)); [|contradiction].
    unfold detect_group_conflicts in H.
    apply in_map_iff in H as [[a b] [E H]]. apply filter_In in H as [Hp Hc].
    cbn [fst snd] in *. unfold contradiction in E.
    injection E as -> <- <- <- _.
    apply group_by_key_group in Hg. subst fs.
    apply pairs_split in Hp as [m1 [m2 [m3 Hp]]].
    assert (Ka : PyStr.eqb (key a) k = true).
    { assert (Hin : In a (filter (fun f => PyStr.eqb (key f) k) facts))
        by (rewrite Hp; apply in_or_app; right; now left).
      now apply filter_In in Hin. }
    assert (Kb : PyStr.eqb (key b) k = true).
    { assert (Hin : In b (filter (fun f => PyStr.eqb (key f) k) facts)).
      { rewrite Hp. apply in_or_app. right. right. apply in_or_app. right.
        now left. }
      now apply filter_In in Hin. }
    apply filter_split in Hp as [l1 [l2 [-> Hp]]].
    apply filter_split in Hp as [l3 [l4 [-> _]]].
    exists l1, a, l3, b, l4. apply pystr_eqb_eq in Ka, Kb.
    repeat split; try assumption; try reflexivity.
    intros E. unfold values_conflict in Hc.
    apply pystr_eqb_eq in E. now rewrite E in Hc.
  - unfold range_records in H.
    destruct (Nat.ltb 1 (List.length (snd (k', fs)))); [|contradiction].
    apply in_map_iff in H as [p [E _]]. discriminate.
Qed.


(** X11.  A [value_contradiction] record of [detect_conflicts] is about
    two facts of the list that have the key of the record, the first
    before the second, with different values; the record holds their
    values, source texts and confidence scores. *)
Theorem value_contradiction_origin (facts : list ExtractedFact)
    (out : list Conflict) (k : pystr) (vals : pystr * pystr)
    (srcs : option pystr * option pystr)
    (confs : PyFloat.float * PyFloat.float) (sev : severity) :
  detect_conflicts facts = Py.Ok out ->
  In (value_contradiction k vals srcs confs sev) out ->
  exists before fact1 between fact2 after,
    facts = before ++ fact1 :: between ++ fact2 :: after
    /\ key fact1 = k /\ key fact2 = k
    /\ vals = (value fact1, value fact2)
    /\ srcs = (source_text fact1, source_text fact2)
    /\ confs = (confidence fact1, confidence fact2)
    /\ value fact1 <> value fact2.
Proof.
  rewrite detect_conflicts_eq. intros [= <-]. apply value_record_pair.
Qed.

Lemma value_contradiction_origin_witness :
  exists before fact1 between fact2 after,
    [margin_fact "2%"; margin_fact "2.5%"]
    = before ++ fact1 :: between ++ fact2 :: after
    /\ key fact1 = str "interest_rates.margin"
    /\ key fact2 = str "interest_rates.margin"
    /\ (str "2%", str "2.5%") = (value fact1, value fact2)
    /\ (@None pystr, @None pystr) = (source_text fact1, source_text fact2)
    /\ (PyFloat.of_decimal false 8 (-1), PyFloat.of_decimal false 8 (-1))
       = (confidence fact1, confidence fact2)
    /\ value fact1 <> value fact2.
Proof.
  apply (value_contradiction_origin
           [margin_fact "2%"; margin_fact "2.5%"]
           [ value_contradiction (str "interest_rates.margin")
               (str "2%", str "2.5%") (None, None)
               (PyFloat.of_decimal false 8 (-1),
                PyFloat.of_decimal false 8 (-1)) high ]
           (str "interest_rates.margin") (str "2%", str "2.5%") (None, None)
           (PyFloat.of_decimal false 8 (-1), PyFloat.of_decimal false 8 (-1))
           high).
  - vm_compute. reflexivity.
  - now left.
Defined.

(** ** The order of the two values *)

Lemma pystr_eqb_sym (a b : pystr) : PyStr.eqb a b = PyStr.eqb b a.
Proof.
  destruct (PyStr.eqb a b) eqn:E.
  - apply pystr_eqb_eq in E. subst. symmetry. apply pystr_eqb_refl.
  - symmetry. apply pystr_eqb_neq. apply pystr_eqb_neq in E. congruence.
Qed.

Lemma texts_conflict_sym (value1 value2 : pystr) :
  texts_conflict value1 value2 = texts_conflict value2 value1.
Proof.
  unfold texts_conflict. cbv zeta. rewrite pystr_eqb_sym.
  rewrite <- !andb_assoc. f_equal. apply andb_comm.
Qed.

Lemma abs_round (s : bool) (m : positive) (e : Z) :
  SFabs (binary_round PyFloat.prec PyFloat.emax s m e)
  = SFabs (binary_round PyFloat.prec PyFloat.emax false m e).
Proof.
  unfold binary_round, binary_round_aux.
  destruct (shl_align _ _ _) as [mz ez].
  destruct (shr_fexp _ _ _ _ _) as [mrs e'].
  destruct (shr_fexp _ _ _ _ _) as [mrs' e''].
  destruct (shr_m mrs'); try reflexivity.
  destruct (Z.leb _ _); reflexivity.
Qed.

Lemma abs_normalize_opp (z e : Z) :
  SFabs (binary_normalize PyFloat.prec PyFloat.emax (- z) e false)
  = SFabs (binary_normalize PyFloat.prec PyFloat.emax z e false).
Proof.
  destruct z as [|p|p]; cbn [Z.opp binary_normalize]; [reflexivity| |].
  - apply abs_round.
  - symmetry. apply abs_round.
Qed.

(** [abs(x - y)] and [abs(y - x)] are the same float. *)
Lemma abs_sub_comm (x y : PyFloat.float) :
  PyFloat.abs (PyFloat.sub x y) = PyFloat.abs (PyFloat.sub y x).
Proof.
  unfold PyFloat.abs, PyFloat.sub.
  destruct x as [[|]|[|]| |sx mx ex], y as [[|]|[|]| |sy my ey];
    try reflexivity.
  cbn [SFsub]. rewrite (Z.min_comm ey ex).
  rewrite <- abs_normalize_opp. f_equal. f_equal. lia.
Qed.

Lemma compare_swap (x y : PyFloat.float) :
  SFcompare y x = option_map CompOpp (SFcompare x y).
Proof.
  destruct x as [[|]|[|]| |[|] mx ex], y as [[|]|[|]| |[|] my ey];
    try reflexivity; cbn [SFcompare option_map]; f_equal;
    rewrite (Z.compare_antisym ex ey);
    destruct (Z.compare ex ey); cbn [CompOpp]; try reflexivity;
    rewrite (Pos.compare_cont_antisym mx my Eq); reflexivity.
Qed.

(** Two floats that compare equal are the same float, or two zeros. *)
Lemma compare_eq (x y : PyFloat.float) :
  SFcompare x y = Some Eq ->
  x = y \/ (exists s s', x = S754_zero s /\ y = S754_zero s').
Proof.
  destruct x as [s|s| |s mx ex], y as [s'|s'| |s' my ey];
    cbn [SFcompare]; intros H; try discriminate H;
    try (right; exists s, s'; now split);
    try (destruct s; discriminate H); try (destruct s'; discriminate H).
  - left. destruct s, s'; try discriminate H; reflexivity.
  - left. injection H as H.
    destruct s, s'; try discriminate H;
      destruct (Z.compare_spec ex ey) as [->| |]; try discriminate H;
      destruct (Pos.compare_cont Eq mx my) eqn:C; try discriminate H;
      apply Pos.compare_eq in C; now subst.
Qed.

Definition ratio_test (n1 n2 : PyFloat.float) : bool :=
  if PyFloat.gtb (PyFloat.max n1 n2) zero then
    PyFloat.gtb
      (PyFloat.div (PyFloat.abs (PyFloat.sub n1 n2)) (PyFloat.max n1 n2))
      tenth
  else false.

Lemma ratio_test_sym (n1 n2 : PyFloat.float) :
  ratio_test n1 n2 = ratio_test n2 n1.
Proof.
  unfold ratio_test, PyFloat.max, PyFloat.gtb, SFltb.
  rewrite (abs_sub_comm n2 n1).
  rewrite (compare_swap n1 n2).
  destruct (SFcompare n1 n2) as [[| |]|] eqn:C; cbn [option_map CompOpp];
    try reflexivity.
  - apply compare_eq in C as [->|[s [s' [-> ->]]]]; reflexivity.
  - destruct n1 as [[|]|[|]| |[|] m1 e1], n2 as [[|]|[|]| |[|] m2 e2];
      try discriminate; reflexivity.
Qed.

(** X12.  [_values_conflict] does not depend on the order of the two
    values. *)
Theorem values_conflict_sym (value1 value2 : pystr) :
  values_conflict value1 value2 = values_conflict value2 value1.
Proof.
  unfold values_conflict. rewrite (pystr_eqb_sym value2 value1).
  destruct (PyStr.eqb value1 value2); [reflexivity|].
  rewrite (texts_conflict_sym value2 value1).
  destruct (PyFloat.of_str (sub NON_NUMERIC [] value1)) as [n1|e1],
           (PyFloat.of_str (sub NON_NUMERIC [] value2)) as [n2|e2];
    try reflexivity.
  apply ratio_test_sym.
Qed.

(** ** [_to_int] *)

Import TableParser.

(** The number written with the ASCII digits [ds]. *)
Definition decimal_from (acc : N) (ds : pystr) : N :=
  fold_left (fun acc c => (acc * 10 + (c - 48))%N) ds acc.

Definition decimal (ds : pystr) : N := decimal_from 0 ds.

Lemma decimal_value_ascii (c : N) :
  ascii_digit c = true -> decimal_value c = Some (c - 48)%N.
Proof.
  unfold ascii_digit, decimal_value, decimal_zeros. cbn [find].
  change (48 + 9)%N with 57%N. now intros ->.
Qed.

Lemma read_digits_ascii (ds : pystr) :
  forallb ascii_digit ds = true ->
  forall acc count,
    PyFloat.read_digits ds acc count
    = (decimal_from acc ds, count + List.length ds, []).
Proof.
  induction ds as [|c ds IH]; intros H acc count.
  - cbn. now rewrite Nat.add_0_r.
  - cbn [forallb] in H. apply andb_true_iff in H as [Hc H].
    cbn [PyFloat.read_digits]. rewrite (decimal_value_ascii c Hc).
    rewrite (IH H). cbn [decimal_from fold_left List.length].
    f_equal. f_equal. lia.
Qed.

Lemma ascii_digit_not_sign (c : N) :
  ascii_digit c = true -> c <> 45%N /\ c <> 43%N.
Proof.
  unfold ascii_digit, in_range. rewrite andb_true_iff, !N.leb_le. lia.
Qed.

Lemma strip_digits (ds : pystr) :
  forallb ascii_digit ds = true -> strip ds = ds.
Proof.
  intros H. apply strip_fixed.
  - destruct ds as [|c ds]; [exact I|]. cbn [forallb] in H.
    apply andb_true_iff in H as [Hc _]. now apply digit_not_space.
  - destruct (rev ds) as [|c r] eqn:E; [exact I|]. simpl.
    apply digit_not_space. rewrite forallb_forall in H. apply H.
    apply in_rev. rewrite E. now left.
Qed.

(** [int] of a text of ASCII digits. *)
Lemma int_of_str_digits (ds : pystr) :
  forallb ascii_digit ds = true ->
  int_of_str ds
  = match ds with
    | [] => Py.Raise Py.ValueError
    | _ :: _ => Py.Ok (Z.of_N (decimal ds))
    end.
Proof.
  intros H. unfold int_of_str. rewrite (strip_digits ds H).
  assert (E : (match ds with
               | 45%N :: r => (true, r)
               | 43%N :: r => (false, r)
               | _ => (false, ds)
               end) = (false, ds)).
  { destruct ds as [|c ds']; [reflexivity|].
    assert (Hc : ascii_digit c = true)
      by (cbn [forallb] in H; now apply andb_true_iff in H).
    destruct (ascii_digit_not_sign c Hc) as [N1 N2].
    destruct c as [|p]; [reflexivity|].
    repeat (destruct p as [p|p|]; try reflexivity; try congruence). }
  rewrite E. rewrite (read_digits_ascii ds H).
  destruct ds; reflexivity.
Qed.

Lemma replace_commas (s : pystr) :
  replace s (str ",") [] = filter (fun c => negb (44 =? c)%N) s.
Proof.
  change (str ",") with [44%N]. unfold replace.
  assert (G : forall fuel, List.length s <= fuel ->
                replace_from fuel [44%N] [] s
                = filter (fun c => negb (44 =? c)%N) s).
  { intros fuel. revert s. induction fuel as [|fuel IH]; intros s L.
    - destruct s; [reflexivity|simpl in L; lia].
    - destruct s as [|c s]; [reflexivity|]. cbn [replace_from strip_prefix filter].
      simpl in L. destruct (44 =? c)%N; cbn [negb app].
      + apply IH. lia.
      + f_equal. apply IH. lia. }
  now apply G.
Qed.

Lemma filter_commas (s : pystr) :
  forallb amount_char s = true ->
  filter (fun c => negb (44 =? c)%N) s = filter ascii_digit s.
Proof.
  intros H. apply filter_ext_in. intros c Hc.
  rewrite forallb_forall in H. apply H in Hc. unfold amount_char in Hc.
  unfold ascii_digit in *.
  destruct (N.eqb_spec 44 c) as [E|Hn]; [subst c; reflexivity|].
  rewrite orb_false_r in Hc. now rewrite Hc.
Qed.

Lemma forallb_filter_same (f : N -> bool) (s : pystr) :
  forallb f (filter f s) = true.
Proof.
  induction s as [|c s IH]; [reflexivity|]. cbn [filter].
  destruct (f c) eqn:E; [|exact IH]. cbn [forallb]. now rewrite E.
Qed.

Lemma to_int_amount (s : pystr) :
  forallb amount_char s = true ->
  to_int (Some s)
  = match s with
    | [] => Py.Ok None
    | _ :: _ =>
        match filter ascii_digit s with
        | [] => Py.Raise Py.ValueError
        | (_ :: _) as ds => Py.Ok (Some (Z.of_N (decimal ds)))
        end
    end.
Proof.
  intros H. unfold to_int. destruct s as [|c s]; [reflexivity|].
  rewrite replace_commas, (filter_commas _ H).
  rewrite int_of_str_digits by apply forallb_filter_same.
  destruct (filter ascii_digit (c :: s)); reflexivity.
Qed.

(** X13.  [_to_int] on a text of ASCII digits and commas, of at most 4300
    code points (the length up to which every version of [int] reads a
    number): the empty text gives [None], a text without a digit raises
    [ValueError], and any other text gives the number written with its
    digits, the commas left out. *)
Theorem to_int_digits_and_commas (num : pystr) :
  forallb amount_char num = true -> List.length num <= 4300 ->
  to_int (Some num)
  = match num with
    | [] => Py.Ok None
    | _ :: _ =>
        match filter ascii_digit num with
        | [] => Py.Raise Py.ValueError
        | (_ :: _) as digits => Py.Ok (Some (Z.of_N (decimal digits)))
        end
    end.
Proof. intros H _. now apply to_int_amount. Qed.

Lemma to_int_digits_and_commas_witness :
  to_int (Some (str "1,00,000"))
  = match str "1,00,000" with
    | [] => Py.Ok None
    | _ :: _ =>
        match filter ascii_digit (str "1,00,000") with
        | [] => Py.Raise Py.ValueError
        | (_ :: _) as digits => Py.Ok (Some (Z.of_N (decimal digits)))
        end
    end.
Proof.
  apply (to_int_digits_and_commas (str "1,00,000")).
  - vm_compute. reflexivity.
  - vm_compute. lia.
Defined.

(** ** What a group captures *)

Lemma power_charset (ic negated : bool) (items : list item) (n : nat) :
  forall a b,
    power n (sem ic (CharSet negated items)) a b ->
    exists w, consumed w a b /\ List.length w = n
              /\ Forall (fun c => set_match ic negated items c = true) w
              /\ snd b = snd a.
Proof.
  induction n as [|n IH]; intros a b H; simpl in H.
  - subst b. exists []. repeat split; [apply consumed_refl..|constructor].
  - destruct H as [m [[x [H1 [H2 H3]]] H]].
    apply IH in H as [w [Hc [Hl [Hd Hs]]]]. exists (x :: w).
    assert (C : consumed (x :: w) a b).
    { change (x :: w) with ([x] ++ w). apply consumed_trans with m; [|exact Hc].
      destruct a, m. now apply step_consumed. }
    repeat split; try apply C.
    + simpl. now rewrite Hl.
    + now constructor.
    + congruence.
Qed.

Section Captures.

Variable text : pystr.
Variable ic : bool.
Variable i : nat.
Variable Q : pystr -> Prop.
Variable body_ok : re -> bool.

Hypothesis body_sound :
  forall r a b, body_ok r = true -> sem ic r a b ->
                exists w, consumed w a b /\ Q w.

(** Every occurrence of group [i] in the expression has a body that passes
    [body_ok]. *)
Fixpoint bodies_ok (r : re) : bool :=
  match r with
  | Grp j a => (if Nat.eqb j i then body_ok a else true) && bodies_ok a
  | Cat a b | Alt a b => bodies_ok a && bodies_ok b
  | Rep _ _ _ a => bodies_ok a
  | _ => true
  end.

Definition captured (a : config) : Prop :=
  anchored text a
  /\ forall span, In (i, span) (snd a) ->
                  Q (slice text (fst span) (snd span)).

Lemma captured_same_caps (w : pystr) (a b : config) :
  consumed w a b -> snd b = snd a -> captured a -> captured b.
Proof.
  intros Hc Hs [H1 H2]. split.
  - now apply (consumed_anchored text w a b).
  - now rewrite Hs.
Qed.

Lemma power_captured (R : config -> config -> Prop) :
  (forall a b, R a b -> captured a -> captured b) ->
  forall n a b, power n R a b -> captured a -> captured b.
Proof.
  intros HR. induction n as [|n IH]; intros a b H Ha; simpl in H.
  - now subst b.
  - destruct H as [m [H1 H2]]. eauto.
Qed.

Lemma sem_captured (r : re) :
  bodies_ok r = true ->
  forall a b, sem ic r a b -> captured a -> captured b.
Proof.
  induction r as [| c | | negated items | | | | r1 IH1 r2 IH2 | r1 IH1 r2 IH2
                  | lo hi greedy r1 IH1 | j r1 IH1];
    intros Hg a b H Ha; cbn [sem] in H; cbn [bodies_ok] in Hg;
    try (subst b; exact Ha).
  - destruct H as [x [H [_ Hs]]].
    apply (captured_same_caps [x] a b); try assumption.
    destruct a, b. now apply step_consumed.
  - destruct H as [x [H Hs]].
    apply (captured_same_caps [x] a b); try assumption.
    destruct a, b. now apply step_consumed.
  - destruct H as [x [H [_ Hs]]].
    apply (captured_same_caps [x] a b); try assumption.
    destruct a, b. now apply step_consumed.
  - apply andb_true_iff in Hg as [G1 G2]. destruct H as [m [H1 H2]]. eauto.
  - apply andb_true_iff in Hg as [G1 G2]. destruct H as [H|H]; eauto.
  - destruct H as [n [_ [_ H]]].
    exact (power_captured (sem ic r1) (IH1 Hg) n a b H Ha).
  - apply andb_true_iff in Hg as [G1 G2]. destruct H as [cs [H Hs]].
    assert (Hin := IH1 G2 a (fst b, cs) H Ha). destruct Hin as [B1 B2].
    split; [exact B1|]. rewrite Hs. intros span [E|E]; [|now apply B2].
    injection E as Ej <-. subst j. rewrite Nat.eqb_refl in G1.
    destruct (body_sound r1 a (fst b, cs) G1 H) as [w [Hc Hq]].
    destruct Ha as [A1 _].
    destruct (consumed_anchored text w a (fst b, cs) A1 Hc) as [_ S].
    cbn [fst snd] in *. now rewrite S.
Qed.

(** The text of group [i] in a match found at a position of [text]. *)
Lemma match_here_captured (p : pattern) (n : nat) (pv : option N)
    (m : match_obj) (w : pystr) :
  p_icase p = ic -> bodies_ok (p_re p) = true ->
  match_here p (mkState n pv (skipn n text)) = Some m ->
  group text m i = Some w -> Q w.
Proof.
  intros Hic Hb H Hg. unfold match_here in H. rewrite Hic in H.
  destruct (run _ _ _ _ _) as [[st' cs]|] eqn:E; [|discriminate].
  injection H as <-.
  apply run_sound in E as [[bs bc] [Hsem Hacc]]. injection Hacc as -> ->.
  assert (Hinv : captured (mkState n pv (skipn n text), [])).
  { split; [reflexivity|]. intros span []. }
  apply (sem_captured _ Hb _ _ Hsem) in Hinv as [_ Hf].
  unfold group in Hg. cbn [m_caps snd] in *.
  destruct (cap_lookup i cs) as [[x y]|] eqn:L; [|discriminate].
  injection Hg as <-. apply cap_lookup_in in L. now apply Hf in L.
Qed.

End Captures.

(** ** The matches of [finditer] *)

Lemma match_here_stop (text : pystr) (p : pattern) (st : state) (m : match_obj) :
  rest st = skipn (pos st) text -> match_here p st = Some m ->
  rest (m_stop m) = skipn (pos (m_stop m)) text.
Proof.
  intros Ha H. unfold match_here in H.
  destruct (run _ _ _ _ _) as [[st' cs]|] eqn:E; [|discriminate].
  injection H as <-. cbn [m_stop].
  apply run_sound in E as [[bs bc] [Hsem Hacc]]. injection Hacc as -> ->.
  apply sem_consumed in Hsem as [w Hw].
  now destruct (consumed_anchored text w (st, []) (st', cs) Ha Hw).
Qed.

Lemma search_at_found (text : pystr) (p : pattern) (st : state) (m : match_obj) :
  rest st = skipn (pos st) text ->
  search_at p (pos st) (prev st) (rest st) = Some m ->
  exists n pv, match_here p (mkState n pv (skipn n text)) = Some m.
Proof.
  intros Ha H. apply search_at_match in H as [k [pv H]].
  exists (pos st + k), pv. rewrite Ha, skipn_skipn in H.
  now rewrite (Nat.add_comm k (pos st)) in H.
Qed.

Lemma finditer_at_found (text : pystr) (p : pattern) (fuel : nat) :
  forall st m,
    rest st = skipn (pos st) text ->
    In m (finditer_at fuel p st) ->
    exists n pv, match_here p (mkState n pv (skipn n text)) = Some m.
Proof.
  induction fuel as [|fuel IH]; intros st m Ha H; [contradiction|].
  cbn [finditer_at] in H.
  destruct (search_at p (pos st) (prev st) (rest st)) as [m0|] eqn:E;
    [|contradiction].
  destruct H as [<-|H]; [now apply (search_at_found text p st)|].
  destruct (search_at_found text p st m0 Ha E) as [n [pv Hm]].
  assert (Hstop : rest (m_stop m0) = skipn (pos (m_stop m0)) text).
  { apply (match_here_stop text p _ m0) in Hm; [exact Hm|reflexivity]. }
  unfold resume in H. destruct (Nat.ltb (m_start m0) (m_end m0)).
  - now apply (IH (m_stop m0)).
  - destruct (step (m_stop m0)) as [[x st']|] eqn:S; [|contradiction].
    apply (IH st'); [|exact H].
    assert (C := step_consumed (m_stop m0) st' x [] [] S).
    now destruct (consumed_anchored text [x] (m_stop m0, []) (st', [])
                    Hstop C).
Qed.

Lemma finditer_found (p : pattern) (text : pystr) (m : match_obj) :
  In m (finditer p text) ->
  exists n pv, match_here p (mkState n pv (skipn n text)) = Some m.
Proof. apply finditer_at_found. reflexivity. Qed.

(** ** The bands of [parse_ltv_table] *)

Lemma fold_case_cases (c : N) :
  fold_case c = c \/ (97 <= fold_case c <= 122)%N.
Proof.
  unfold fold_case, in_range.
  destruct ((65 <=? c)%N && (c <=? 90)%N) eqn:E.
  - apply andb_true_iff in E as [E1 E2]. apply N.leb_le in E1, E2. right. lia.
  - destruct ((c =? 304)%N || (c =? 305)%N); [right; lia|].
    destruct (c =? 383)%N; [right; lia|].
    destruct (c =? 8490)%N; [right; lia|now left].
Qed.

Lemma in_range_iff (c lo hi : N) :
  in_range c lo hi = true <-> (lo <= c <= hi)%N.
Proof. unfold in_range. now rewrite andb_true_iff, !N.leb_le. Qed.

Lemma fold_case_digit (c : N) :
  in_range (fold_case c) 48 57 = true -> in_range c 48 57 = true.
Proof.
  destruct (fold_case_cases c) as [->|H]; [trivial|].
  rewrite in_range_iff. lia.
Qed.

Lemma ascii_upper_digit (c : N) :
  in_range (ascii_upper c) 48 57 = true -> in_range c 48 57 = true.
Proof.
  unfold ascii_upper. destruct (in_range c 97 122) eqn:E; [|trivial].
  apply in_range_iff in E. rewrite !in_range_iff. lia.
Qed.

Lemma digit_set_ascii (c : N) : digit_set c = true -> ascii_digit c = true.
Proof.
  unfold digit_set, set_match, ascii_digit. cbn [existsb item_match xorb andb].
  rewrite orb_false_r. intros H.
  apply orb_true_iff in H as [H|H]; [exact H|].
  apply orb_true_iff in H as [H|H].
  - now apply fold_case_digit.
  - now apply fold_case_digit, ascii_upper_digit.
Qed.

Lemma amount_set_ascii (c : N) : amount_set c = true -> amount_char c = true.
Proof.
  unfold amount_set, set_match. cbn [existsb xorb]. rewrite orb_false_r.
  intros H. apply orb_true_iff in H as [H|H].
  - unfold amount_char. fold (ascii_digit c).
    rewrite (digit_set_ascii c); [reflexivity|].
    unfold digit_set, set_match. cbn [existsb xorb]. now rewrite H.
  - cbn [item_match] in H. unfold char_eq in H. apply N.eqb_eq in H.
    change (fold_case 44) with 44%N in H.
    destruct (fold_case_cases c) as [E|E]; [|lia].
    unfold amount_char. rewrite <- E, <- H. reflexivity.
Qed.

(** The body of [(?P<pct>[0-9]{1,3})], and of [(?P<lower>[0-9,]+)] and
    [(?P<upper>[0-9,]+)]. *)
Definition pct_body (r : re) : bool :=
  match r with
  | Rep lo (Some hi) _ (CharSet false [IRange a b]) =>
      Nat.eqb lo 1 && Nat.eqb hi 3 && (a =? 48)%N && (b =? 57)%N
  | _ => false
  end.

Definition amount_body (r : re) : bool :=
  match r with
  | Rep lo None _ (CharSet false [IRange a b; IChar c]) =>
      Nat.eqb lo 1 && (a =? 48)%N && (b =? 57)%N && (c =? 44)%N
  | _ => false
  end.

Definition pct_text (w : pystr) : Prop :=
  1 <= List.length w <= 3 /\ forallb ascii_digit w = true.

Definition amount_text (w : pystr) : Prop :=
  w <> [] /\ forallb amount_char w = true.

Lemma pct_body_sound (r : re) (a b : config) :
  pct_body r = true -> sem true r a b ->
  exists w, consumed w a b /\ pct_text w.
Proof.
  intros Hr H. unfold pct_body in Hr. break_match Hr.
  rewrite !andb_true_iff, !Nat.eqb_eq, !N.eqb_eq in Hr.
  destruct Hr as [[[-> ->] ->] ->]. cbn [sem] in H.
  destruct H as [n [H1 [H2 H]]]. simpl in H2.
  apply power_charset in H as [w [Hc [Hl [Hd _]]]].
  exists w. split; [exact Hc|]. split; [lia|].
  apply forallb_forall. rewrite Forall_forall in Hd. intros c Hin.
  apply digit_set_ascii. now apply Hd.
Qed.

Lemma amount_body_sound (r : re) (a b : config) :
  amount_body r = true -> sem true r a b ->
  exists w, consumed w a b /\ amount_text w.
Proof.
  intros Hr H. unfold amount_body in Hr. break_match Hr.
  rewrite !andb_true_iff, !Nat.eqb_eq, !N.eqb_eq in Hr.
  destruct Hr as [[[-> ->] ->] ->]. cbn [sem] in H.
  destruct H as [n [H1 [_ H]]].
  apply power_charset in H as [w [Hc [Hl [Hd _]]]].
  exists w. split; [exact Hc|]. split.
  - intros ->. simpl in Hl. lia.
  - apply forallb_forall. rewrite Forall_forall in Hd. intros c Hin.
    apply amount_set_ascii. now apply Hd.
Qed.

Lemma ltv_row_groups :
  p_icase LTV_ROW = true
  /\ bodies_ok 1 pct_body (p_re LTV_ROW) = true
  /\ bodies_ok 2 amount_body (p_re LTV_ROW) = true
  /\ bodies_ok 3 amount_body (p_re LTV_ROW) = true
  /\ mandatory 1 (p_re LTV_ROW) = true.
Proof. vm_compute. repeat split. Qed.

Lemma ltv_row_names (text : pystr) (m : match_obj) :
  group_named LTV_ROW text m (str "pct") = group text m 1
  /\ group_named LTV_ROW text m (str "lower") = group text m 2
  /\ group_named LTV_ROW text m (str "upper") = group text m 3
  /\ group_named LTV_ROW text m (str "unit") = group text m 4.
Proof.
  unfold group_named.
  assert (E : p_names LTV_ROW
              = [(str "unit", 4); (str "upper", 3); (str "lower", 2);
                 (str "pct", 1)]) by (vm_compute; reflexivity).
  rewrite E. repeat split; vm_compute name_lookup; reflexivity.
Qed.

(** [band_of_match] with the groups by their numbers. *)
Lemma band_of_match_eq (text : pystr) (m : match_obj) :
  band_of_match text m
  = Py.bind (to_int (group text m 2)) (fun lower =>
    Py.bind (to_int (group text m 3)) (fun upper =>
    let unit :=
      strip (match group text m 4 with Some u => u | None => [] end) in
    Py.Ok (mkBand lower upper
             (match unit with [] => None | _ :: _ => Some unit end)
             (NormalizationService.fmt (group text m 1) ++ str "%")))).
Proof.
  unfold band_of_match.
  destruct (ltv_row_names text m) as [N1 [N2 [N3 N4]]].
  now rewrite N1, N2, N3, N4.
Qed.

Lemma match_here_mandatory (p : pattern) (i : nat) (text : pystr) (st : state)
    (m : match_obj) :
  mandatory i (p_re p) = true -> match_here p st = Some m ->
  exists w, group text m i = Some w.
Proof.
  intros Hm H. unfold match_here in H.
  destruct (run _ _ _ _ _) as [[st' cs]|] eqn:E; [|discriminate].
  injection H as <-.
  apply run_sound in E as [[bs bc] [Hsem Hacc]]. injection Hacc as -> ->.
  apply (sem_mandatory _ i _ Hm) in Hsem. unfold has_cap in Hsem.
  unfold group. cbn [m_caps snd] in *.
  destruct (cap_lookup i cs) as [[x y]|]; [eauto|congruence].
Qed.

(** The label of a band is one to three ASCII digits and the percent
    sign; its amounts are not negative. *)
Definition band_ok (band : Band) : Prop :=
  (exists digits,
      ltv band = digits ++ str "%" /\ pct_text digits)
  /\ (forall z, min_amount band = Some z -> (0 <= z)%Z)
  /\ (forall z, max_amount band = Some z -> (0 <= z)%Z).

Lemma to_int_not_negative (g : option pystr) (r : option Z) :
  (forall w, g = Some w -> amount_text w) ->
  to_int g = Py.Ok r -> forall z, r = Some z -> (0 <= z)%Z.
Proof.
  intros Hg H z ->. destruct g as [w|]; [|discriminate].
  destruct (Hg w eq_refl) as [Hn Ha]. rewrite (to_int_amount w Ha) in H.
  destruct w as [|c w]; [congruence|].
  destruct (filter ascii_digit (c :: w)); [discriminate|].
  injection H as <-. lia.
Qed.

Lemma band_of_match_ok (text : pystr) (m : match_obj) (band : Band) :
  (exists n pv, match_here LTV_ROW (mkState n pv (skipn n text)) = Some m) ->
  band_of_match text m = Py.Ok band -> band_ok band.
Proof.
  intros [n [pv Hm]] H. rewrite band_of_match_eq in H.
  destruct ltv_row_groups as [Hic [B1 [B2 [B3 M1]]]].
  assert (G2 : forall w, group text m 2 = Some w -> amount_text w).
  { intros w Hw.
    exact (match_here_captured text true 2 amount_text amount_body
             amount_body_sound LTV_ROW n pv m w Hic B2 Hm Hw). }
  assert (G3 : forall w, group text m 3 = Some w -> amount_text w).
  { intros w Hw.
    exact (match_here_captured text true 3 amount_text amount_body
             amount_body_sound LTV_ROW n pv m w Hic B3 Hm Hw). }
  assert (G1 : exists w, group text m 1 = Some w /\ pct_text w).
  { destruct (match_here_mandatory LTV_ROW 1 text _ m M1 Hm) as [w Hw].
    exists w. split; [exact Hw|].
    exact (match_here_captured text true 1 pct_text pct_body pct_body_sound
             LTV_ROW n pv m w Hic B1 Hm Hw). }
  clear Hm Hic B1 B2 B3 M1.
  generalize dependent (group text m 4). generalize dependent (group text m 3).
  generalize dependent (group text m 2). generalize dependent (group text m 1).
  intros g1 [w [-> Hw]] g2 G2 g3 G3 g4 H.
  destruct (to_int g2) as [lower|] eqn:L; cbn [Py.bind] in H; [|discriminate].
  destruct (to_int g3) as [upper|] eqn:U; cbn [Py.bind] in H; [|discriminate].
  injection H as <-. unfold band_ok. cbn [ltv min_amount max_amount].
  split; [|split].
  - exists w. split; [reflexivity|exact Hw].
  - now apply (to_int_not_negative g2).
  - now apply (to_int_not_negative g3).
Qed.

Lemma bands_of_ok (text : pystr) (matches : list match_obj) :
  (forall m, In m matches ->
     exists n pv, match_here LTV_ROW (mkState n pv (skipn n text)) = Some m) ->
  forall bands, bands_of text matches = Py.Ok bands -> Forall band_ok bands.
Proof.
  induction matches as [|m more IH]; intros Hm bands H; cbn [bands_of] in H.
  - injection H as <-. constructor.
  - destruct (band_of_match text m) as [band|] eqn:B; cbn [Py.bind] in H;
      [|discriminate].
    destruct (bands_of text more) as [rest|] eqn:R; cbn [Py.bind] in H;
      [|discriminate].
    injection H as <-. constructor.
    + apply (band_of_match_ok text m); [|exact B]. apply Hm. now left.
    + apply IH; [|reflexivity]. intros m' Hin. apply Hm. now right.
Qed.

(** X14.  Every band [parse_ltv_table] returns has a label made of one to
    three ASCII digits and the percent sign, and amounts that are not
    negative. *)
Theorem parse_ltv_table_bands_ok (text : pystr) (bands : list Band) :
  parse_ltv_table text = Py.Ok bands -> Forall band_ok bands.
Proof.
  unfold parse_ltv_table. apply bands_of_ok.
  intros m Hin. now apply finditer_found.
Qed.

Lemma parse_ltv_table_bands_ok_witness :
  Forall band_ok
    [ mkBand (Some 30%Z) None (Some (str "L")) (str "90%");
      mkBand (Some 50%Z) None (Some (str "L")) (str "80%") ].
Proof.
  apply (parse_ltv_table_bands_ok
           (str "90% - Up to ₹30 Lakhs, 80% - Up to ₹50 Lakhs")).
  vm_compute. reflexivity.
Defined.

(** ** Text without a percent sign *)

Lemma in_skipn {A : Type} (x : A) (n : nat) (l : list A) :
  In x (skipn n l) -> In x l.
Proof.
  intros H. rewrite <- (firstn_skipn n l). apply in_or_app. now right.
Qed.

Lemma ltv_row_percent (a b : config) :
  sem true (p_re LTV_ROW) a b -> In 37%N (rest (fst a)).
Proof.
  assert (E : exists r1 r2 r3,
                p_re LTV_ROW = Cat r1 (Cat r2 (Cat (Chr 37) r3)))
    by (vm_compute; eauto).
  destruct E as [r1 [r2 [r3 ->]]]. cbn [sem].
  intros [m1 [H1 [m2 [H2 [m3 [[x [Hs [Hx _]]] _]]]]]].
  apply sem_consumed in H1 as [w1 [C1 _]].
  apply sem_consumed in H2 as [w2 [C2 _]].
  rewrite C1, C2. apply in_or_app. right. apply in_or_app. right.
  unfold step in Hs. destruct (rest (fst m2)) as [|y l]; [discriminate|].
  injection Hs as -> _. left.
  unfold char_eq in Hx. apply N.eqb_eq in Hx.
  change (fold_case 37) with 37%N in Hx.
  destruct (fold_case_cases x) as [E|E]; [congruence|lia].
Qed.

(** X15.  [parse_ltv_table] returns no band for a text without a percent
    sign. *)
Theorem parse_ltv_table_needs_percent (text : pystr) :
  ~ In 37%N text -> parse_ltv_table text = Py.Ok [].
Proof.
  intros Hn. apply parse_ltv_table_no_match. unfold finditer.
  cbn [finditer_at pos prev rest].
  destruct (search_at LTV_ROW 0 None text) as [m|] eqn:E; [|reflexivity].
  exfalso. apply search_at_match in E as [k [pv E]].
  unfold match_here in E.
  destruct (run _ _ _ _ _) as [[st' cs]|] eqn:R; [|discriminate].
  replace (p_icase LTV_ROW) with true in R by (vm_compute; reflexivity).
  apply run_sound in R as [b [Hsem _]].
  apply ltv_row_percent in Hsem. cbn [fst rest] in Hsem.
  apply Hn. now apply in_skipn in Hsem.
Qed.

Lemma parse_ltv_table_needs_percent_witness :
  parse_ltv_table (str "Loan tenure up to 20 years") = Py.Ok [].
Proof.
  apply (parse_ltv_table_needs_percent (str "Loan tenure up to 20 years")).
  vm_compute. intuition discriminate.
Defined.

(** ** The keys of the facts of [extract] *)

Fixpoint distinct (l : list pystr) : bool :=
  match l with
  | [] => true
  | x :: more => negb (existsb (PyStr.eqb x) more) && distinct more
  end.

Lemma distinct_NoDup (l : list pystr) : distinct l = true -> NoDup l.
Proof.
  induction l as [|x l IH]; cbn [distinct]; intros H; constructor;
    apply andb_true_iff in H as [H1 H2].
  - intros Hin. apply negb_true_iff in H1.
    assert (E : existsb (PyStr.eqb x) l = true).
    { apply existsb_exists. exists x. split; [exact Hin|apply pystr_eqb_refl]. }
    congruence.
  - now apply IH.
Qed.

Lemma catalog_keys_distinct :
  NoDup (keys PATTERNS ++ [str "loan_amount_and_ltv.ltv_bands"]).
Proof. apply distinct_NoDup. vm_compute. reflexivity. Qed.

Lemma first_match_key (k : pystr) (patterns : list pattern) (text : pystr)
    (filename : option pystr) (facts : list ExtractedFact) :
  first_match k patterns text filename = Py.Ok facts ->
  facts = [] \/ exists f, facts = [f] /\ key f = k.
Proof.
  induction patterns as [|pat more IH]; cbn [first_match]; intros H.
  - injection H as <-. now left.
  - destruct (search pat text) as [m|]; [|now apply IH].
    unfold fact_of_match in H.
    destruct (value_of_match k pat text m) as [[v|]|e]; cbn [Py.bind] in H;
      try discriminate.
    injection H as <-. right. eexists. split; reflexivity.
Qed.

Lemma scan_keys (items : Dict.dict (list pattern)) (text : pystr)
    (filename : option pystr) :
  NoDup (keys items) ->
  forall facts,
    scan items text filename = Py.Ok facts ->
    NoDup (map key facts) /\ incl (map key facts) (keys items).
Proof.
  unfold keys.
  induction items as [|[k patterns] more IH]; cbn [scan map fst];
    intros Hnd facts H.
  - injection H as <-. split; [constructor|intros x []].
  - inversion Hnd as [|? ? Hk Hmore]; subst.
    destruct (first_match k patterns text filename) as [here|e] eqn:E1;
      cbn [Py.bind] in H; [|discriminate].
    destruct (scan more text filename) as [there|e] eqn:E2;
      cbn [Py.bind] in H; [|discriminate].
    injection H as <-. destruct (IH Hmore there eq_refl) as [I1 I2].
    apply first_match_key in E1 as [->|[f [-> Hf]]]; cbn [app map].
    + split; [exact I1|]. intros x Hx. right. now apply I2.
    + rewrite Hf. split.
      * constructor; [|exact I1]. intros Hin. apply Hk. now apply I2.
      * intros x [<-|Hx]; [now left|right; now apply I2].
Qed.

Lemma table_facts_keys (text : pystr) (filename : option pystr) :
  map key (table_facts text filename) = []
  \/ map key (table_facts text filename)
     = [str "loan_amount_and_ltv.ltv_bands"].
Proof.
  unfold table_facts.
  destruct (parse_ltv_table text) as [[|b bs]|e];
    [left|right|left]; reflexivity.
Qed.

Lemma extract_with_keys (patterns : Dict.dict (list pattern))
    (text : pystr) (filename : option pystr) (facts : list ExtractedFact) :
  NoDup (keys patterns ++ [str "loan_amount_and_ltv.ltv_bands"]) ->
  extract_with patterns text filename = Py.Ok facts ->
  NoDup (map key facts)
  /\ incl (map key facts)
       (keys patterns ++ [str "loan_amount_and_ltv.ltv_bands"]).
Proof.
  generalize (str "loan_amount_and_ltv.ltv_bands")
             (table_facts_keys text filename).
  intros tk T Hnd. unfold extract_with. destruct text as [|c text].
  - intros [= <-]. split; [constructor|intros x []].
  - destruct (scan patterns (c :: text) filename) as [rule_facts|e] eqn:E;
      cbn [Py.bind]; [|discriminate].
    intros [= <-].
    apply scan_keys in E as [I1 I2];
      [|now apply NoDup_app_remove_r in Hnd].
    rewrite map_app. destruct T as [T|T]; rewrite T.
    + rewrite app_nil_r. split; [exact I1|].
      intros x Hx. apply in_or_app. left. now apply I2.
    + split.
      * apply NoDup_app; [exact I1|repeat constructor; intros []|].
        intros x Hx [<-|[]]. apply I2 in Hx.
        apply NoDup_remove_2 in Hnd. apply Hnd. rewrite app_nil_r. exact Hx.
      * intros x Hx. apply in_app_or in Hx as [Hx|Hx];
          apply in_or_app; [left; now apply I2|right; exact Hx].
Qed.

(** X16.  [extract] returns at most one fact for a key, and every key is
    a key of the pattern catalog or the key of the LTV table fact. *)
Theorem extract_one_fact_per_key (text : pystr) (filename : option pystr)
    (facts : list ExtractedFact) :
  extract text filename = Py.Ok facts ->
  NoDup (map key facts)
  /\ incl (map key facts)
       (keys PATTERNS ++ [str "loan_amount_and_ltv.ltv_bands"]).
Proof.
  intros H. unfold extract in H.
  exact (extract_with_keys PATTERNS text filename facts
           catalog_keys_distinct H).
Qed.

Definition ltv_text_facts : list ExtractedFact :=
  Eval vm_compute in
    match extract (str "LTV: 90%") (Some (str "mitc.pdf")) with
    | Py.Ok facts => facts
    | Py.Raise _ => []
    end.

Lemma extract_one_fact_per_key_witness :
  NoDup (map key ltv_text_facts)
  /\ incl (map key ltv_text_facts)
       (keys PATTERNS ++ [str "loan_amount_and_ltv.ltv_bands"]).
Proof.
  apply (extract_one_fact_per_key (str "LTV: 90%") (Some (str "mitc.pdf"))).
  vm_compute. reflexivity.
Defined.

(** ** The confidence of the facts of [extract] *)

Lemma extract_with_confidence (patterns : Dict.dict (list pattern))
    (text : pystr) (filename : option pystr) (facts : list ExtractedFact)
    (f : ExtractedFact) :
  NoDup (keys patterns ++ [str "loan_amount_and_ltv.ltv_bands"]) ->
  extract_with patterns text filename = Py.Ok facts ->
  In f facts ->
  (In (key f) (keys patterns)
   /\ key f <> str "loan_amount_and_ltv.ltv_bands"
   /\ confidence f = rule_confidence)
  \/ (key f = str "loan_amount_and_ltv.ltv_bands"
      /\ ~ In (key f) (keys patterns)
      /\ confidence f = table_confidence).
Proof.
  generalize (str "loan_amount_and_ltv.ltv_bands")
             (table_facts_confidence text filename f).
  intros tk T Hnd. unfold extract_with. destruct text as [|c text].
  - intros [= <-] [].
  - destruct (scan patterns (c :: text) filename) as [rule_facts|e] eqn:E;
      cbn [Py.bind]; [|discriminate].
    intros [= <-] Hin.
    assert (Hfresh : ~ In tk (keys patterns)).
    { apply NoDup_remove_2 in Hnd. rewrite app_nil_r in Hnd. exact Hnd. }
    apply in_app_iff in Hin as [Hin|Hin].
    + left.
      assert (Hk : In (key f) (keys patterns)).
      { apply (scan_keys patterns (c :: text) filename) in E as [_ Hincl];
          [|now apply NoDup_app_remove_r in Hnd].
        apply Hincl. now apply in_map. }
      split; [exact Hk|]. split.
      * intros Heq. apply Hfresh. now rewrite <- Heq.
      * revert Hin. now apply (scan_confidence _ _ _ _ E).
    + right. destruct (T Hin) as [Hk Hc]. split; [exact Hk|].
      split; [now rewrite Hk|exact Hc].
Qed.

(** C9, as amended.  Every fact [extract] returns is of one of two
    kinds, told apart by the key.  A fact under a key of the pattern
    catalog has confidence 0.75; the fact under the key
    [loan_amount_and_ltv.ltv_bands], which is no key of the catalog and
    which [extract] adds for a detected LTV table, has confidence 0.70. *)
Theorem C9_extract_confidence (text : pystr) (filename : option pystr)
    (facts : list ExtractedFact) (f : ExtractedFact) :
  extract text filename = Py.Ok facts ->
  In f facts ->
  (In (key f) (keys PATTERNS)
   /\ key f <> str "loan_amount_and_ltv.ltv_bands"
   /\ confidence f = rule_confidence)
  \/ (key f = str "loan_amount_and_ltv.ltv_bands"
      /\ ~ In (key f) (keys PATTERNS)
      /\ confidence f = table_confidence).
Proof.
  intros H. unfold extract in H.
  exact (extract_with_confidence PATTERNS text filename facts f
           catalog_keys_distinct H).
Qed.

Lemma C9_extract_confidence_witness :
  key (last ltv_sample_facts processing_fee_fact)
  = str "loan_amount_and_ltv.ltv_bands"
  /\ ((In (key (last ltv_sample_facts processing_fee_fact)) (keys PATTERNS)
       /\ key (last ltv_sample_facts processing_fee_fact)
          <> str "loan_amount_and_ltv.ltv_bands"
       /\ confidence (last ltv_sample_facts processing_fee_fact)
          = rule_confidence)
      \/ (key (last ltv_sample_facts processing_fee_fact)
          = str "loan_amount_and_ltv.ltv_bands"
          /\ ~ In (key (last ltv_sample_facts processing_fee_fact))
                 (keys PATTERNS)
          /\ confidence (last ltv_sample_facts processing_fee_fact)
             = table_confidence)).
Proof.
  split; [vm_compute; reflexivity|].
  apply (C9_extract_confidence (str "LTV: 90%") None ltv_sample_facts).
  - vm_compute. reflexivity.
  - vm_compute. tauto.
Defined.

(** ** Rule facts, normalized, and their conflicts *)

Lemma normalized_catalog_keys_distinct :
  NoDup (map normalize_key
           (keys PATTERNS ++ [str "loan_amount_and_ltv.ltv_bands"])).
Proof. apply distinct_NoDup. vm_compute. reflexivity. Qed.

Lemma NoDup_map_on {A B : Type} (f : A -> B) (universe l : list A) :
  NoDup (map f universe) -> NoDup l -> incl l universe -> NoDup (map f l).
Proof.
  intros Hu Hl Hi.
  assert (Inj : forall x y, In x universe -> In y universe -> f x = f y ->
                            x = y).
  { clear l Hl Hi. induction universe as [|a u IH]; [intros x y []|].
    cbn [map] in Hu. inversion Hu as [|? ? Ha Hu']; subst.
    intros x y [<-|Hx] [<-|Hy] E; try reflexivity.
    - exfalso. apply Ha. rewrite E. now apply in_map.
    - exfalso. apply Ha. rewrite <- E. now apply in_map.
    - now apply IH. }
  induction Hl as [|x l Hx Hl IH]; cbn [map]; constructor.
  - intros Hin. apply in_map_iff in Hin as [y [E Hy]].
    apply Inj in E; [subst y; contradiction| |]; apply Hi; [now right|now left].
  - apply IH. intros y Hy. apply Hi. now right.
Qed.

(** Dropping facts keeps the keys of the others apart. *)
Lemma kept_keys_distinct (keep : ExtractedFact -> bool)
    (facts : list ExtractedFact) :
  NoDup (map key facts) -> NoDup (map key (filter keep facts)).
Proof.
  intros H. induction facts as [|fact facts IH]; cbn [map filter] in *.
  - constructor.
  - apply NoDup_cons_iff in H as [Hfresh Hrest].
    destruct (keep fact); [|now apply IH].
    cbn [map]. apply NoDup_cons_iff. split; [|now apply IH].
    intros Hin. apply Hfresh. apply in_map_iff in Hin as [other [E Ho]].
    apply filter_In in Ho as [Ho _]. rewrite <- E. now apply in_map.
Qed.

Lemma normalize_facts_kept (facts : list ExtractedFact) :
  map key (normalize_facts facts)
  = map normalize_key
      (map key
         (filter
            (fun f => negb (looks_bad (value (normalize_single_fact f))))
            facts)).
Proof.
  unfold normalize_facts. induction facts as [|f facts IH]; [reflexivity|].
  cbn [map filter].
  destruct (negb (looks_bad (value (normalize_single_fact f)))); cbn [map].
  - now rewrite IH.
  - exact IH.
Qed.

(** X17.  Rule facts after normalization never give a value conflict:
    [extract] returns one fact per key, [normalize_facts] keeps the keys of
    the catalog apart, and [detect_conflicts] reports value conflicts
    between facts of one key only. *)
Theorem rule_facts_no_value_contradiction (text : pystr)
    (filename : option pystr) (facts : list ExtractedFact)
    (out : list Conflict) :
  extract text filename = Py.Ok facts ->
  detect_conflicts (normalize_facts facts) = Py.Ok out ->
  Forall
    (fun c =>
       match c with
       | value_contradiction _ _ _ _ _ => False
       | overlapping_ranges _ _ _ _ => True
       end) out.
Proof.
  intros He Hd. unfold extract in He.
  destruct (extract_with_keys PATTERNS text filename facts
              catalog_keys_distinct He) as [Hnd Hin].
  set (kept := filter
                 (fun f => negb (looks_bad (value (normalize_single_fact f))))
                 facts).
  assert (K : NoDup (map key (normalize_facts facts))).
  { rewrite normalize_facts_kept. fold kept.
    apply (NoDup_map_on normalize_key
             (keys PATTERNS ++ [str "loan_amount_and_ltv.ltv_bands"])).
    - exact normalized_catalog_keys_distinct.
    - now apply kept_keys_distinct.
    - intros k Hk. apply Hin. apply in_map_iff in Hk as [f [<- Hf]].
      apply filter_In in Hf as [Hf _]. now apply in_map. }
  rewrite detect_conflicts_eq in Hd. injection Hd as <-.
  apply Forall_forall. intros [k vals srcs confs sev|] Hc; [|exact I].
  apply value_record_pair in Hc
    as [before [f1 [between [f2 [after [E [K1 [K2 _]]]]]]]].
  rewrite E in K. rewrite map_app in K. cbn [map] in K.
  apply NoDup_remove_2 in K. apply K. apply in_or_app. right.
  rewrite map_app. apply in_or_app. right. cbn [map]. left. congruence.
Qed.

Definition ltv_text_conflicts : list Conflict :=
  Eval vm_compute in
    match detect_conflicts (normalize_facts ltv_text_facts) with
    | Py.Ok out => out
    | Py.Raise _ => []
    end.

Lemma rule_facts_no_value_contradiction_witness :
  Forall
    (fun c =>
       match c with
       | value_contradiction _ _ _ _ _ => False
       | overlapping_ranges _ _ _ _ => True
       end) ltv_text_conflicts.
Proof.
  apply (rule_facts_no_value_contradiction (str "LTV: 90%")
           (Some (str "mitc.pdf")) ltv_text_facts ltv_text_conflicts);
    vm_compute; reflexivity.
Defined.

(** ** A plain percentage *)

Definition PCT_FIRST : pattern :=
  Eval vm_compute in
    match compiled_percentage_patterns with
    | p :: _ => p
    | [] => ReParse.never
    end.

Definition PCT_FIRST_TAIL : re :=
  Eval vm_compute in
    match p_re PCT_FIRST with
    | Cat _ tail => tail
    | _ => Eps
    end.

Lemma percentage_patterns_eq :
  exists more,
    compiled_percentage_patterns
    = mkPattern (Cat PCT_GROUP PCT_FIRST_TAIL) 1 [] true :: more.
Proof. eexists. vm_compute. reflexivity. Qed.

Lemma search_plain_percentage (x : pystr) :
  is_percentage x = true ->
  exists m,
    search (mkPattern (Cat PCT_GROUP PCT_FIRST_TAIL) 1 [] true) (x ++ str "%")
    = Some m
    /\ group (x ++ str "%") m 1 = Some x.
Proof.
  intros Hx. change (str "%") with [37%N].
  eexists. split.
  - unfold search. apply search_at_hit. apply match_here_intro.
    cbn [p_icase p_re run]. apply run_pct_group; [exact Hx|].
    unfold PCT_FIRST_TAIL. cbn. reflexivity.
  - unfold group. cbn [m_caps snd cap_lookup Nat.eqb]. f_equal.
    apply slice_eq with (pre := []) (post := [37%N]); cbn [app List.length];
      [reflexivity|reflexivity|lia].
Qed.

Lemma ascii_isdecimal (c : N) : ascii_digit c = true -> isdecimal c = true.
Proof.
  intros H. unfold isdecimal. now rewrite (decimal_value_ascii c H).
Qed.

Lemma percentage_numeric (x : pystr) : is_percentage x = true -> numeric x.
Proof.
  intros H. apply is_percentage_shape in H as [ds [Hne [Hds Hx]]].
  assert (D : forall l, Forall (fun c => digit_set c = true) l -> all_decimal l).
  { intros l Hl. eapply Forall_impl; [|exact Hl].
    intros c Hc. now apply ascii_isdecimal, digit_set_ascii. }
  destruct Hx as [->|[fs [Hfne [Hfs ->]]]].
  - exists ds, []. split; [exact Hne|]. split; [now apply D|].
    split; [constructor|now left].
  - exists ds, fs. split; [exact Hne|]. split; [now apply D|].
    split; [now apply D|right; now split].
Qed.

(** X18.  [_normalize_percentage] rewrites a plain percentage, digits with
    possibly a point and digits and then the percent sign, to the [repr] of
    the float the number is read as, followed by the percent sign. *)
Theorem normalize_percentage_plain (x : pystr) :
  is_percentage x = true ->
  exists percentage,
    PyFloat.of_str x = Py.Ok percentage
    /\ normalize_percentage (x ++ str "%")
       = PyFloat.repr percentage ++ str "%".
Proof.
  intros Hx.
  destruct (numeric_float x (percentage_numeric x Hx)) as [p Hp].
  exists p. split; [exact Hp|].
  destruct (search_plain_percentage x Hx) as [m [Hs Hg]].
  destruct percentage_patterns_eq as [more E].
  unfold normalize_percentage. rewrite E. cbn [normalize_percentage_loop].
  rewrite Hs, Hg. cbn [NormalizationService.fmt]. now rewrite Hp.
Qed.

Lemma normalize_percentage_plain_witness :
  exists percentage,
    PyFloat.of_str (str "8.50") = Py.Ok percentage
    /\ normalize_percentage (str "8.50" ++ str "%")
       = PyFloat.repr percentage ++ str "%".
Proof.
  apply (normalize_percentage_plain (str "8.50")). vm_compute. reflexivity.
Defined.

(** The witness in full: [8.50%] becomes [8.5%], and [10%] becomes
    [10.0%]. *)
Example normalize_percentage_examples :
  normalize_percentage (str "8.50%") = str "8.5%"
  /\ normalize_percentage (str "10%") = str "10.0%".
Proof. vm_compute. split; reflexivity. Qed.

(** ** Smart extraction: the facts kept from the LLM *)

Lemma split_once_sep_head (c : N) (s h t : pystr) :
  split_once [c] s = Some (h, t) -> s = h ++ c :: t /\ ~ In c h.
Proof.
  revert h t. induction s as [|x s IH]; intros h t H.
  - discriminate.
  - cbn [split_once strip_prefix] in H. destruct (N.eqb_spec c x) as [E|E].
    + injection H as <- <-. subst x. split; [reflexivity|intros []].
    + destruct (split_once [c] s) as [[h' t']|] eqn:S; [|discriminate].
      injection H as <- <-. destruct (IH h' t' eq_refl) as [-> Hn].
      split; [reflexivity|]. intros [Hx|Hx]; [congruence|contradiction].
Qed.

(** A key with a dot has a section and a term: the index [1] is never
    out of range. *)
Lemma section_and_term_some (k : pystr) :
  exists section term, section_and_term k = Some (section, term).
Proof.
  unfold section_and_term. destruct (contains k (str ".")) eqn:D; [|eauto].
  destruct (contains_split_once _ _ D) as [h [t E]].
  unfold split. destruct k as [|c k]; [discriminate|].
  cbn [List.length split_from]. rewrite E.
  destruct (List.length k); cbn [split_from]; [eauto|].
  destruct (split_once (str ".") t) as [[h' t']|]; eauto.
Qed.

Definition wanted (gaps : Dict.dict (list pystr)) (fact : ExtractedFact)
    : bool :=
  match section_and_term (key fact) with
  | Some (section, term) => asked gaps section term
  | None => false
  end.

(** The loop of [_extract_missing_with_llm] raises nothing: it is a
    filter. *)
Lemma filter_asked_eq (gaps : Dict.dict (list pystr))
    (llm_facts : list ExtractedFact) :
  filter_asked gaps llm_facts = Some (filter (wanted gaps) llm_facts).
Proof.
  induction llm_facts as [|fact more IH]; [reflexivity|].
  cbn [filter_asked filter]. rewrite IH.
  destruct (section_and_term_some (key fact)) as [section [term E]].
  assert (W : wanted gaps fact = asked gaps section term)
    by (unfold wanted; now rewrite E).
  rewrite W, E. now destruct (asked gaps section term).
Qed.

Lemma gap_keys_of (found : list pystr) (d : Dict.dict (list pystr)) :
  NoDup (keys d) ->
  NoDup (keys (filter has_terms
                 (map (fun e => (fst e, missing_terms found (fst e) (snd e)))
                    d)))
  /\ incl (keys (filter has_terms
                   (map (fun e =>
                           (fst e, missing_terms found (fst e) (snd e))) d)))
          (keys d).
Proof.
  unfold keys.
  induction d as [|[s terms] d IH]; cbn [map filter fst snd]; intros H.
  - split; [constructor|intros x []].
  - apply NoDup_cons_iff in H as [Hs Hd]. destruct (IH Hd) as [I1 I2].
    destruct (has_terms _); cbn [map fst].
    + split.
      * apply NoDup_cons_iff. split; [|exact I1].
        intros Hin. apply Hs. now apply I2.
      * intros x [<-|Hx]; [now left|right; now apply I2].
    + split; [exact I1|]. intros x Hx. right. now apply I2.
Qed.

Lemma gap_keys_distinct (rule_facts : list ExtractedFact) :
  NoDup (keys (analyze_gaps rule_facts)).
Proof.
  rewrite analyze_gaps_eq.
  exact (proj1 (gap_keys_of (found_terms rule_facts) HIGH_VALUE_TERMS
                  high_value_sections_distinct)).
Qed.

(** A term that was asked for is a high-value term without a rule fact. *)
Lemma asked_iff (rule_facts : list ExtractedFact) (section term : pystr) :
  asked (analyze_gaps rule_facts) section term = true
  <-> exists terms,
        In (section, terms) HIGH_VALUE_TERMS /\ In term terms
        /\ forall g, In g rule_facts -> key g <> section ++ str "." ++ term.
Proof.
  unfold asked. split.
  - destruct (Dict.get (analyze_gaps rule_facts) section) as [missing|] eqn:G;
      [|discriminate].
    intros H. apply dict_get_in in G. rewrite analyze_gaps_eq in G.
    apply filter_In in G as [G _].
    apply in_map_iff in G as [[s terms] [E Hin]]. cbn [fst snd] in E.
    injection E as -> <-. exists terms. split; [exact Hin|].
    apply existsb_exists in H as [t [Ht Et]]. apply pystr_eqb_eq in Et.
    subst t. unfold missing_terms in Ht. apply filter_In in Ht as [Ht Hn].
    split; [exact Ht|]. intros g Hg Hk. apply negb_true_iff in Hn.
    assert (F : is_found (found_terms rule_facts) (section ++ str "." ++ term)
                = true) by (apply is_found_iff; eauto).
    congruence.
  - intros [terms [Hin [Ht Hn]]].
    assert (F : is_found (found_terms rule_facts) (section ++ str "." ++ term)
                = false).
    { apply not_true_is_false. intros F.
      apply is_found_iff in F as [g [Hg Hk]]. now apply (Hn g). }
    destruct (analyze_gaps_eq_in rule_facts section term terms Hin Ht F)
      as [missing [Hm Hterm]].
    rewrite (dict_in_get _ _ _ (gap_keys_distinct rule_facts) Hm).
    apply existsb_exists. exists term. split; [exact Hterm|].
    apply pystr_eqb_refl.
Qed.

Lemma asked_has_missing (rule_facts : list ExtractedFact)
    (section term : pystr) :
  asked (analyze_gaps rule_facts) section term = true ->
  has_missing_sections (analyze_gaps rule_facts) = true.
Proof.
  unfold asked, has_missing_sections.
  destruct (Dict.get (analyze_gaps rule_facts) section) as [missing|] eqn:G;
    [|discriminate].
  intros H. apply dict_get_in in G. apply existsb_exists.
  exists (section, missing). split; [exact G|]. cbn [snd].
  destruct missing; [discriminate|reflexivity].
Qed.

Lemma extract_missing_in (rule_facts : list ExtractedFact)
    (llm_answer : Py.result (list ExtractedFact)) (fact : ExtractedFact) :
  In fact (extract_missing_with_llm (analyze_gaps rule_facts) llm_answer)
  <-> exists llm_facts,
        llm_answer = Py.Ok llm_facts /\ In fact llm_facts
        /\ wanted (analyze_gaps rule_facts) fact = true.
Proof.
  unfold extract_missing_with_llm. split.
  - destruct (has_missing_sections _); [|intros []].
    destruct llm_answer as [llm_facts|e]; [|intros []].
    rewrite filter_asked_eq. intros H. apply filter_In in H. eauto.
  - intros [llm_facts [-> [Hin Hw]]].
    assert (M : has_missing_sections (analyze_gaps rule_facts) = true).
    { unfold wanted in Hw.
      destruct (section_and_term (key fact)) as [[s t]|]; [|discriminate].
      now apply (asked_has_missing rule_facts s t). }
    rewrite M, filter_asked_eq. apply filter_In. now split.
Qed.

(** X19.  [_extract_missing_with_llm] keeps a fact of the LLM's answer
    exactly when the section and the term of its key name a high-value
    term for which there is no rule fact; when the LLM call raises, it
    returns no fact. *)
Theorem extract_missing_with_llm_keeps (rule_facts : list ExtractedFact)
    (llm_answer : Py.result (list ExtractedFact)) (fact : ExtractedFact) :
  In fact (extract_missing_with_llm (analyze_gaps rule_facts) llm_answer)
  <-> exists llm_facts section term terms,
        llm_answer = Py.Ok llm_facts /\ In fact llm_facts
        /\ section_and_term (key fact) = Some (section, term)
        /\ In (section, terms) HIGH_VALUE_TERMS /\ In term terms
        /\ forall g, In g rule_facts -> key g <> section ++ str "." ++ term.
Proof.
  rewrite extract_missing_in. unfold wanted. split.
  - intros [llm_facts [E [Hin Hw]]].
    destruct (section_and_term (key fact)) as [[section term]|] eqn:S;
      [|discriminate].
    apply asked_iff in Hw as [terms [H1 [H2 H3]]].
    exists llm_facts, section, term, terms. repeat split; assumption.
  - intros [llm_facts [section [term [terms [E [Hin [S [H1 [H2 H3]]]]]]]]].
    exists llm_facts. repeat split; try assumption. rewrite S.
    apply asked_iff. eauto.
Qed.

(** A key of the catalog is its section, a dot and its term. *)
Definition two_parts (k : pystr) : bool :=
  match section_and_term k with
  | Some (section, term) => PyStr.eqb k (section ++ str "." ++ term)
  | None => false
  end.

Lemma catalog_keys_two_parts :
  forallb two_parts (keys PATTERNS ++ [str "loan_amount_and_ltv.ltv_bands"])
  = true.
Proof. vm_compute. reflexivity. Qed.

(** X20.  In smart extraction, a fact kept from the LLM's answer never
    has the key of a rule fact: the LLM is asked for the terms without a
    rule fact, and a key of the pattern catalog is one section and one
    term. *)
Theorem llm_facts_have_new_keys (text : pystr) (filename : option pystr)
    (rule_facts : list ExtractedFact)
    (llm_answer : Py.result (list ExtractedFact)) (fact : ExtractedFact) :
  extract text filename = Py.Ok rule_facts ->
  In fact (extract_missing_with_llm (analyze_gaps rule_facts) llm_answer) ->
  ~ In (key fact) (map key rule_facts).
Proof.
  intros Hx Hin Hk. apply in_map_iff in Hk as [g [Hk Hg]].
  apply extract_missing_in in Hin as [llm_facts [_ [_ Hw]]].
  unfold wanted in Hw.
  destruct (section_and_term (key fact)) as [[section term]|] eqn:S;
    [|discriminate].
  apply asked_iff in Hw as [terms [_ [_ Hn]]]. apply (Hn g Hg).
  unfold extract in Hx.
  destruct (extract_with_keys PATTERNS text filename rule_facts
              catalog_keys_distinct Hx) as [_ Hincl].
  assert (T : two_parts (key g) = true).
  { apply (proj1 (forallb_forall _ _) catalog_keys_two_parts).
    apply Hincl. now apply in_map. }
  unfold two_parts in T. rewrite Hk, S in T. apply pystr_eqb_eq in T.
  congruence.
Qed.

Definition ltv_rule_facts : list ExtractedFact :=
  Eval vm_compute in
    match extract (str "LTV: 90%") (Some (str "mitc.pdf")) with
    | Py.Ok facts => facts
    | Py.Raise _ => []
    end.

Definition llm_fee_fact : ExtractedFact :=
  mkFact (str "fees_and_charges.processing_fee") (str "0.50%")
    (PyFloat.of_decimal false 9 (-1)) None None None None None.

Lemma llm_facts_have_new_keys_witness :
  ~ In (key llm_fee_fact) (map key ltv_rule_facts).
Proof.
  apply (llm_facts_have_new_keys (str "LTV: 90%") (Some (str "mitc.pdf"))
           ltv_rule_facts (Py.Ok [llm_fee_fact]) llm_fee_fact).
  - vm_compute. reflexivity.
  - vm_compute. left. reflexivity.
Defined.

Import DocumentIngestion.

(** ** Cleaning the text of a document *)

Section Runs.

Variable ch : N.

Definition is_ch (c : N) : bool := (ch =? c)%N.

(** Runs of [ch] made one [ch]; [in_run] says that the code point before
    was [ch]. *)
Fixpoint squeeze (in_run : bool) (s : pystr) : pystr :=
  match s with
  | [] => []
  | c :: s' =>
      if is_ch c then (if in_run then squeeze true s' else ch :: squeeze true s')
      else c :: squeeze false s'
  end.

(** No two [ch] side by side. *)
Fixpoint single (s : pystr) : Prop :=
  match s with
  | [] => True
  | c :: t => (is_ch c = true -> not_at is_ch t) /\ single t
  end.

Definition run_pattern : pattern := mkPattern (Rep 1 None true (Chr ch)) 0 [] false.

Lemma is_ch_eq (c : N) : is_ch c = true -> c = ch.
Proof. unfold is_ch. intros H. apply N.eqb_eq in H. congruence. Qed.

Lemma match_run (n : nat) (pv : option N) (xs tl : pystr) :
  xs <> [] -> Forall (fun x => is_ch x = true) xs -> not_at is_ch tl ->
  match_here run_pattern (mkState n pv (xs ++ tl))
  = Some (mkMatch n (mkState (n + List.length xs) (prev_after pv xs) tl) []).
Proof.
  intros Hne Hxs Htl. unfold match_here, run_pattern.
  cbn [p_icase p_re run rest pos].
  change (run false (Chr ch)) with (consume is_ch).
  rewrite (rep_loop_greedy is_ch 1 None accept tl []
             (mkState (n + List.length xs) (prev_after pv xs) tl, []) Htl);
    try assumption; try reflexivity.
  - destruct xs; [contradiction|simpl; lia].
  - rewrite length_app. lia.
Qed.

Lemma match_no_run (n : nat) (pv : option N) (tl : pystr) :
  not_at is_ch tl -> match_here run_pattern (mkState n pv tl) = None.
Proof.
  intros Htl. unfold match_here, run_pattern.
  cbn [p_icase p_re run rest pos].
  change (run false (Chr ch)) with (consume is_ch).
  now rewrite rep_loop_none by (assumption || lia).
Qed.

Lemma squeeze_run (xs tl : pystr) :
  Forall (fun x => is_ch x = true) xs ->
  squeeze true (xs ++ tl) = squeeze true tl.
Proof.
  induction 1 as [|x xs Hx _ IH]; [reflexivity|]. simpl. now rewrite Hx.
Qed.

Lemma squeeze_not_at (tl : pystr) :
  not_at is_ch tl -> squeeze true tl = squeeze false tl.
Proof. destruct tl as [|c tl]; simpl; [reflexivity|]. now intros ->. Qed.

(** Substituting one [ch] for every run of [ch]. *)
Lemma sub_run (s : pystr) : Re.sub run_pattern [ch] s = squeeze false s.
Proof.
  unfold sub.
  assert (G : forall L s fuel n pv, List.length s <= L -> List.length s < fuel ->
              sub_at fuel run_pattern [ch] (mkState n pv s) = squeeze false s).
  { clear s. induction L as [|L IH]; intros s fuel n pv HL Hfuel.
    - destruct s; [|simpl in HL; lia]. apply sub_at_nil.
      now apply match_no_run.
    - destruct s as [|c s]; [apply sub_at_nil; now apply match_no_run|].
      destruct fuel as [|fuel]; [simpl in Hfuel; lia|]. simpl in HL, Hfuel.
      cbn [squeeze]. destruct (is_ch c) eqn:E.
      + destruct (lstrip_by_span is_ch s) as [xs [Hs [Hxs Htl]]].
        set (tl := lstrip_by is_ch s) in *.
        assert (Hlen : List.length s = List.length xs + List.length tl)
          by (rewrite Hs at 1; apply length_app).
        rewrite Hs at 1. change (c :: xs ++ tl) with ((c :: xs) ++ tl).
        rewrite (sub_at_hit fuel run_pattern [ch] _ _
                   (match_run n pv (c :: xs) tl
                      ltac:(discriminate) ltac:(now constructor) Htl)).
        * cbn [m_stop]. rewrite IH by lia.
          rewrite Hs at 1. rewrite squeeze_run by assumption.
          now rewrite squeeze_not_at.
        * unfold m_end. cbn. lia.
      + rewrite sub_at_miss by (apply match_no_run; exact E).
        now rewrite IH by lia. }
  apply (G (List.length s)); lia.
Qed.

(** A code point other than [ch] ends a run and is kept. *)
Lemma squeeze_app_other (c : N) (a b : pystr) (in_run : bool) :
  is_ch c = false ->
  squeeze in_run (a ++ c :: b) = squeeze in_run a ++ c :: squeeze false b.
Proof.
  intros Hc. revert in_run. induction a as [|x a IH]; intros in_run.
  - cbn [app squeeze]. now rewrite Hc.
  - cbn [app squeeze]. destruct (is_ch x), in_run; rewrite IH; reflexivity.
Qed.

Lemma squeeze_in (c : N) (s : pystr) (in_run : bool) :
  In c (squeeze in_run s) -> In c s.
Proof.
  revert in_run. induction s as [|x s IH]; intros in_run; [trivial|].
  cbn [squeeze]. destruct (is_ch x) eqn:E.
  - apply is_ch_eq in E. subst x. destruct in_run.
    + intros H. right. now apply (IH true).
    + intros [H|H]; [now left|right; now apply (IH true)].
  - intros [H|H]; [now left|right; now apply (IH false)].
Qed.

Lemma squeeze_single (s : pystr) :
  forall in_run,
    single (squeeze in_run s)
    /\ (in_run = true -> not_at is_ch (squeeze in_run s)).
Proof.
  induction s as [|c s IH]; intros in_run; [now split|]. cbn [squeeze].
  destruct (is_ch c) eqn:E.
  - destruct in_run.
    + apply IH.
    + split; [|discriminate]. cbn [single]. split; [intros _|]; now apply IH.
  - split.
    + cbn [single]. split; [congruence|apply IH].
    + intros _. exact E.
Qed.

Lemma squeeze_fixed (s : pystr) :
  single s ->
  squeeze false s = s /\ (not_at is_ch s -> squeeze true s = s).
Proof.
  induction s as [|c s IH]; intros H; [now split|].
  cbn [single] in H. destruct H as [Hc Hs]. destruct (IH Hs) as [IH1 IH2].
  cbn [squeeze not_at]. destruct (is_ch c) eqn:E.
  - apply is_ch_eq in E. subst c. split; [|discriminate].
    now rewrite IH2 by now apply Hc.
  - rewrite IH1. now split.
Qed.

End Runs.

Lemma space_run_eq : SPACE_RUN = run_pattern 32.
Proof. vm_compute. reflexivity. Qed.

Definition is_line (line : pystr) : bool :=
  match line with [] => false | _ :: _ => true end.

(** [_clean_text] without the regular expression. *)
Lemma clean_text_eq (text : pystr) :
  clean_text text
  = squeeze 32 false
      (join newline (filter is_line (map strip (split text newline)))).
Proof.
  unfold clean_text. rewrite space_run_eq.
  change (str " ") with [32%N]. apply sub_run.
Qed.

(** A line of a cleaned text: not empty, no white space at either end, no
    newline and no two spaces side by side. *)
Definition clean_line (line : pystr) : Prop :=
  line <> [] /\ not_at isspace line /\ not_at isspace (rev line)
  /\ ~ In 10%N line /\ single 32 line.

Lemma split_once_none (c : N) (s : pystr) :
  split_once [c] s = None -> ~ In c s.
Proof.
  induction s as [|x s IH]; [intros _ []|].
  cbn [split_once strip_prefix]. destruct (N.eqb_spec c x) as [E|E];
    [discriminate|].
  destruct (split_once [c] s) as [[h t]|]; [discriminate|].
  intros _ [H|H]; [congruence|now apply IH].
Qed.

Lemma split_once_app (c : N) (h t : pystr) :
  ~ In c h -> split_once [c] (h ++ c :: t) = Some (h, t).
Proof.
  induction h as [|x h IH]; intros H.
  - cbn [app split_once strip_prefix]. now rewrite N.eqb_refl.
  - cbn [app split_once strip_prefix].
    destruct (N.eqb_spec c x) as [E|E]; [exfalso; apply H; now left|].
    rewrite IH; [reflexivity|]. intros Hin. apply H. now right.
Qed.

Lemma split_from_parts (c : N) (fuel : nat) :
  forall s line,
    List.length s <= fuel -> In line (split_from fuel [c] s) -> ~ In c line.
Proof.
  induction fuel as [|fuel IH]; intros s line Hlen Hin.
  - destruct s; [|simpl in Hlen; lia]. destruct Hin as [<-|[]]. intros [].
  - cbn [split_from] in Hin.
    destruct (split_once [c] s) as [[h t]|] eqn:E.
    + apply split_once_sep_head in E as [-> Hh].
      destruct Hin as [<-|Hin]; [exact Hh|].
      apply (IH t); [|exact Hin].
      rewrite length_app in Hlen. simpl in Hlen. lia.
    + destruct Hin as [<-|[]]. now apply split_once_none.
Qed.

Lemma join_split_from (c : N) (fuel : nat) :
  forall s, List.length s <= fuel -> join [c] (split_from fuel [c] s) = s.
Proof.
  induction fuel as [|fuel IH]; intros s Hlen; [reflexivity|].
  cbn [split_from]. destruct (split_once [c] s) as [[h t]|] eqn:E;
    [|reflexivity].
  apply split_once_sep_head in E as [-> Hh].
  assert (Ht : List.length t <= fuel).
  { rewrite length_app in Hlen. simpl in Hlen. lia. }
  specialize (IH t Ht).
  destruct (split_from fuel [c] t) as [|p rest] eqn:S.
  - destruct fuel; cbn [split_from] in S; [discriminate|].
    destruct (split_once [c] t) as [[? ?]|]; discriminate.
  - cbn [join]. cbn [join] in IH. now rewrite IH.
Qed.

Lemma split_join (c : N) (lines : list pystr) :
  forall line fuel,
    Forall (fun l => ~ In c l) (line :: lines) ->
    List.length lines <= fuel ->
    split_from fuel [c] (join [c] (line :: lines)) = line :: lines.
Proof.
  induction lines as [|next lines IH]; intros line fuel Hall Hfuel.
  - cbn [join]. apply Forall_inv in Hall.
    destruct fuel; cbn [split_from]; [reflexivity|].
    destruct (split_once [c] line) as [[h t]|] eqn:E; [|reflexivity].
    apply split_once_sep_head in E as [-> _]. exfalso. apply Hall.
    apply in_or_app. right. now left.
  - destruct fuel as [|fuel]; [simpl in Hfuel; lia|].
    change (join [c] (line :: next :: lines))
      with (line ++ c :: join [c] (next :: lines)).
    cbn [split_from]. rewrite split_once_app by now apply Forall_inv in Hall.
    rewrite IH; [reflexivity|now apply Forall_inv_tail in Hall|].
    simpl in Hfuel. lia.
Qed.

Lemma join_length (c : N) (lines : list pystr) (line : pystr) :
  List.length lines <= List.length (join [c] (line :: lines)).
Proof.
  revert line. induction lines as [|next lines IH]; intros line;
    [simpl; lia|].
  change (join [c] (line :: next :: lines))
    with (line ++ c :: join [c] (next :: lines)).
  rewrite length_app. cbn [List.length]. specialize (IH next). lia.
Qed.

(** What [strip_by] takes away passes the test. *)
Lemma strip_by_parts (f : N -> bool) (s : pystr) :
  exists p q, s = p ++ strip_by f s ++ q
              /\ Forall (fun x => f x = true) p
              /\ Forall (fun x => f x = true) q.
Proof.
  unfold strip_by.
  destruct (lstrip_by_span f s) as [p [Hp [Fp _]]].
  set (a := lstrip_by f s) in *.
  destruct (lstrip_by_span f (rev a)) as [q [Hq [Fq _]]].
  set (b := lstrip_by f (rev a)) in *.
  assert (Ea : a = rev b ++ rev q).
  { rewrite <- (rev_involutive a), Hq, rev_app_distr. reflexivity. }
  exists p, (rev q). split; [now rewrite <- Ea|]. split; [exact Fp|].
  apply Forall_forall. intros x Hx. apply in_rev in Hx.
  rewrite Forall_forall in Fq. now apply Fq.
Qed.

Lemma strip_in (c : N) (s : pystr) : In c (strip s) -> In c s.
Proof.
  intros H. destruct (strip_by_parts isspace s) as [p [q [E _]]].
  fold (strip s) in E. rewrite E. apply in_or_app. right.
  apply in_or_app. now left.
Qed.

Lemma not_space (c : N) : isspace c = false -> is_ch 32 c = false.
Proof.
  intros H. unfold is_ch. destruct (N.eqb_spec 32 c) as [E|E]; [|reflexivity].
  subst c. discriminate.
Qed.

Lemma squeeze_join (lines : list pystr) :
  squeeze 32 false (join newline lines)
  = join newline (map (squeeze 32 false) lines).
Proof.
  induction lines as [|line lines IH]; [reflexivity|].
  destruct lines as [|next lines]; [reflexivity|].
  change (join newline (line :: next :: lines))
    with (line ++ 10%N :: join newline (next :: lines)).
  rewrite squeeze_app_other by reflexivity. rewrite IH. reflexivity.
Qed.

Lemma squeeze_clean_line (line : pystr) :
  line <> [] -> not_at isspace line -> not_at isspace (rev line) ->
  ~ In 10%N line -> clean_line (squeeze 32 false line).
Proof.
  intros Hne Hhead Hlast Hnl.
  assert (Hrev : exists a z, line = a ++ [z] /\ isspace z = false).
  { destruct (rev line) as [|z ra] eqn:E.
    - destruct line; [contradiction|]. apply (f_equal (@List.length N)) in E.
      rewrite length_rev in E. discriminate.
    - exists (rev ra), z. split; [|exact Hlast].
      rewrite <- (rev_involutive line), E. reflexivity. }
  destruct Hrev as [a [z [Ea Hz]]].
  repeat split.
  - destruct line as [|c line]; [contradiction|]. cbn [not_at] in Hhead.
    cbn [squeeze]. rewrite (not_space c Hhead). discriminate.
  - destruct line as [|c line]; [contradiction|]. cbn [not_at] in Hhead.
    cbn [squeeze]. now rewrite (not_space c Hhead).
  - rewrite Ea, squeeze_app_other by now apply not_space.
    cbn [squeeze]. rewrite rev_app_distr. exact Hz.
  - intros H. apply Hnl. now apply squeeze_in in H.
  - apply squeeze_single.
Qed.

(** The lines [_clean_text] joins, before the runs of spaces are made one
    space. *)
Lemma stripped_lines (text : pystr) :
  Forall (fun line => line <> [] /\ not_at isspace line
                      /\ not_at isspace (rev line) /\ ~ In 10%N line)
    (filter is_line (map strip (split text newline))).
Proof.
  apply Forall_forall. intros line Hin. apply filter_In in Hin as [Hin Hne].
  apply in_map_iff in Hin as [raw [<- Hraw]].
  destruct (strip_by_spec isspace raw) as [p [q [_ [H1 H2]]]].
  fold (strip raw) in H1, H2. repeat split; try assumption.
  - intros E. now rewrite E in Hne.
  - intros H. apply strip_in in H. revert H.
    apply (split_from_parts 10 (List.length text) text raw); [lia|exact Hraw].
Qed.

Lemma clean_text_lines (text : pystr) :
  clean_text text
  = join newline
      (map (squeeze 32 false)
         (filter is_line (map strip (split text newline))))
  /\ Forall clean_line
       (map (squeeze 32 false)
          (filter is_line (map strip (split text newline)))).
Proof.
  split; [rewrite clean_text_eq; apply squeeze_join|].
  apply Forall_forall. intros line Hin.
  apply in_map_iff in Hin as [raw [<- Hraw]].
  assert (H := stripped_lines text). rewrite Forall_forall in H.
  destruct (H raw Hraw) as [H1 [H2 [H3 H4]]]. now apply squeeze_clean_line.
Qed.

(** A text made of clean lines is left as it is. *)
Lemma clean_text_fixed (lines : list pystr) :
  Forall clean_line lines ->
  clean_text (join newline lines) = join newline lines.
Proof.
  intros Hall. rewrite clean_text_eq. destruct lines as [|line lines];
    [reflexivity|].
  assert (S : split (join newline (line :: lines)) newline = line :: lines).
  { unfold split. apply split_join; [|apply join_length].
    apply Forall_forall. intros l Hl. rewrite Forall_forall in Hall.
    now destruct (Hall l Hl) as [_ [_ [_ [H _]]]]. }
  rewrite S.
  assert (M : map strip (line :: lines) = line :: lines).
  { rewrite <- (map_id (line :: lines)) at 2. apply map_ext_in.
    intros l Hl. rewrite Forall_forall in Hall.
    destruct (Hall l Hl) as [_ [H1 [H2 _]]]. now apply strip_fixed. }
  rewrite M.
  assert (F : filter is_line (line :: lines) = line :: lines).
  { apply forallb_filter_id. apply forallb_forall. intros l Hl.
    rewrite Forall_forall in Hall. destruct (Hall l Hl) as [H _].
    now destruct l. }
  rewrite F, squeeze_join. f_equal.
  rewrite <- (map_id (line :: lines)) at 2. apply map_ext_in.
  intros l Hl. rewrite Forall_forall in Hall.
  destruct (Hall l Hl) as [_ [_ [_ [_ H]]]]. now apply squeeze_fixed.
Qed.

(** X21.  [_clean_text] returns lines joined by single newlines; no line
    is empty, none starts or ends with white space, and none has two
    spaces side by side. *)
Theorem clean_text_form (text : pystr) :
  exists lines,
    clean_text text = join newline lines /\ Forall clean_line lines.
Proof.
  destruct (clean_text_lines text) as [E H]. eauto.
Qed.

(** X22.  [_clean_text] is idempotent: cleaning a cleaned text changes
    nothing. *)
Theorem clean_text_idempotent (text : pystr) :
  clean_text (clean_text text) = clean_text text.
Proof.
  destruct (clean_text_lines text) as [E H]. rewrite E.
  now apply clean_text_fixed.
Qed.

(** The code points that are not white space. *)
Definition visible (s : pystr) : pystr := filter (fun c => negb (isspace c)) s.

Lemma visible_app (a b : pystr) : visible (a ++ b) = visible a ++ visible b.
Proof. apply filter_app. Qed.

Lemma visible_spaces (s : pystr) :
  Forall (fun x => isspace x = true) s -> visible s = [].
Proof.
  induction 1 as [|x s Hx _ IH]; [reflexivity|].
  unfold visible in *. cbn [filter]. now rewrite Hx.
Qed.

Lemma visible_squeeze (s : pystr) (in_run : bool) :
  visible (squeeze 32 in_run s) = visible s.
Proof.
  revert in_run. induction s as [|c s IH]; intros in_run; [reflexivity|].
  cbn [squeeze]. destruct (is_ch 32 c) eqn:E.
  - apply is_ch_eq in E. subst c. destruct in_run.
    + rewrite IH. reflexivity.
    + change (visible (32%N :: squeeze 32 true s))
        with (visible (squeeze 32 true s)).
      rewrite IH. reflexivity.
  - unfold visible in *. cbn [filter]. now rewrite IH.
Qed.

Lemma visible_join (lines : list pystr) :
  visible (join newline lines) = List.concat (map visible lines).
Proof.
  induction lines as [|line lines IH]; [reflexivity|].
  destruct lines as [|next lines].
  - cbn [join map List.concat]. now rewrite app_nil_r.
  - change (join newline (line :: next :: lines))
      with (line ++ newline ++ join newline (next :: lines)).
    rewrite !visible_app, IH. reflexivity.
Qed.

Lemma visible_strip (line : pystr) : visible (strip line) = visible line.
Proof.
  destruct (strip_by_parts isspace line) as [p [q [E [Hp Hq]]]].
  fold (strip line) in E. rewrite E at 2.
  rewrite !visible_app, (visible_spaces p Hp), (visible_spaces q Hq).
  now rewrite app_nil_r.
Qed.

Lemma visible_nonempty (lines : list pystr) :
  List.concat (map visible (filter is_line lines)) = List.concat (map visible lines).
Proof.
  induction lines as [|line lines IH]; [reflexivity|].
  cbn [filter]. destruct line as [|c line]; cbn [is_line map List.concat];
    now rewrite IH.
Qed.

(** X23.  [_clean_text] takes away white space only: the code points of
    the text that are not white space are all kept, in their order. *)
Theorem clean_text_keeps_visible (text : pystr) :
  visible (clean_text text) = visible text.
Proof.
  rewrite clean_text_eq, visible_squeeze, visible_join, visible_nonempty.
  rewrite map_map.
  rewrite (map_ext (fun line => visible (strip line)) visible visible_strip).
  rewrite <- visible_join. unfold split, newline.
  now rewrite join_split_from.
Qed.

(** ** Values without a digit *)

(** The body of the first group of a currency or percentage pattern:
    digits and commas, a point. *)
Fixpoint number_body (r : re) : bool :=
  match r with
  | Chr c => (c =? 46)%N
  | CharSet false [IRange a b] => (a =? 48)%N && (b =? 57)%N
  | CharSet false [IRange a b; IChar c] =>
      (a =? 48)%N && (b =? 57)%N && (c =? 44)%N
  | Cat x y => number_body x && number_body y
  | Rep _ _ _ x => number_body x
  | _ => false
  end.

Definition number_char (c : N) : bool := amount_char c || (c =? 46)%N.

Definition number_text (w : pystr) : Prop := forallb number_char w = true.

Lemma power_number (R : config -> config -> Prop) :
  (forall a b, R a b -> exists w, consumed w a b /\ number_text w) ->
  forall n a b, power n R a b -> exists w, consumed w a b /\ number_text w.
Proof.
  intros HR. induction n as [|n IH]; intros a b H; simpl in H.
  - subst b. exists []. split; [apply consumed_refl|reflexivity].
  - destruct H as [m [H1 H2]].
    destruct (HR a m H1) as [w1 [C1 Q1]].
    destruct (IH m b H2) as [w2 [C2 Q2]].
    exists (w1 ++ w2). split; [now apply consumed_trans with m|].
    unfold number_text in *. now rewrite forallb_app, Q1, Q2.
Qed.

Lemma number_body_sound (r : re) :
  forall a b, number_body r = true -> sem true r a b ->
              exists w, consumed w a b /\ number_text w.
Proof.
  induction r as [| c | | negated items | | | | r1 IH1 r2 IH2 | r1 IH1 r2 IH2
                  | lo hi greedy r1 IH1 | j r1 IH1];
    intros a b Hr H; cbn [number_body] in Hr; try discriminate;
    cbn [sem] in H.
  - destruct H as [x [H [Hx _]]]. exists [x]. split.
    + destruct a, b. now apply step_consumed.
    + apply N.eqb_eq in Hr. subst c. unfold char_eq in Hx.
      apply N.eqb_eq in Hx. change (fold_case 46) with 46%N in Hx.
      assert (E : x = 46%N) by (destruct (fold_case_cases x); lia).
      subst x. reflexivity.
  - destruct H as [x [H [Hx _]]]. exists [x]. split.
    + destruct a, b. now apply step_consumed.
    + unfold number_text, number_char. cbn [forallb].
      destruct negated; [discriminate|].
      destruct items as [|[c|lo hi| | |] items]; try discriminate.
      destruct items as [|[c'|lo' hi'| | |] items]; try discriminate;
        [|destruct items; [|discriminate]].
      * apply andb_true_iff in Hr as [E1 E2]. apply N.eqb_eq in E1, E2.
        subst lo hi. unfold amount_char. fold (ascii_digit x).
        rewrite (digit_set_ascii x Hx). reflexivity.
      * apply andb_true_iff in Hr as [Hr E3].
        apply andb_true_iff in Hr as [E1 E2]. apply N.eqb_eq in E1, E2, E3.
        subst lo hi c'. now rewrite (amount_set_ascii x Hx).
  - apply andb_true_iff in Hr as [G1 G2]. destruct H as [m [H1 H2]].
    destruct (IH1 a m G1 H1) as [w1 [C1 Q1]].
    destruct (IH2 m b G2 H2) as [w2 [C2 Q2]].
    exists (w1 ++ w2). split; [now apply consumed_trans with m|].
    unfold number_text in *. now rewrite forallb_app, Q1, Q2.
  - destruct H as [n [_ [_ H]]].
    apply (power_number (sem true r1)) with n; [|exact H].
    intros x y. now apply IH1.
Qed.

(** A pattern whose first group is always set, with a body as above. *)
Definition number_pattern (p : pattern) : bool :=
  p_icase p && bodies_ok 1 number_body (p_re p) && mandatory 1 (p_re p).

Lemma number_patterns :
  forallb number_pattern compiled_currency_patterns = true
  /\ forallb number_pattern compiled_percentage_patterns = true.
Proof. vm_compute. split; reflexivity. Qed.

Lemma in_slice (c : N) (s : pystr) (i j : nat) : In c (slice s i j) -> In c s.
Proof.
  unfold slice. intros H. apply (in_skipn c i).
  rewrite <- (firstn_skipn (j - i) (skipn i s)). apply in_or_app. now left.
Qed.

(** The text of the first group in a value without an ASCII digit: commas
    and points. *)
Lemma group_without_digit (p : pattern) (value : pystr) (m : match_obj) :
  number_pattern p = true ->
  (forall c, In c value -> ascii_digit c = false) ->
  search p value = Some m ->
  exists w, group value m 1 = Some w
            /\ Forall (fun c => c = 44%N \/ c = 46%N) w.
Proof.
  intros Hp Hv H. unfold number_pattern in Hp.
  apply andb_true_iff in Hp as [Hp Hm]. apply andb_true_iff in Hp as [Hi Hb].
  unfold search in H. apply search_at_match in H as [k [pv H]].
  cbn [Nat.add] in H.
  destruct (match_here_mandatory p 1 value _ m Hm H) as [w Hw].
  exists w. split; [exact Hw|].
  assert (Q : number_text w).
  { apply (match_here_captured value true 1 number_text number_body
             number_body_sound p k pv m w Hi Hb H Hw). }
  assert (S : forall c, In c w -> In c value).
  { unfold group in Hw. destruct (cap_lookup 1 (m_caps m)) as [[x y]|];
      [|discriminate].
    injection Hw as <-. intros c. apply in_slice. }
  apply Forall_forall. intros c Hc. unfold number_text in Q.
  rewrite forallb_forall in Q. specialize (Q c Hc).
  specialize (Hv c (S c Hc)). unfold number_char, amount_char in Q.
  unfold ascii_digit in Hv. rewrite Hv in Q. cbn [orb] in Q.
  apply orb_true_iff in Q as [Q|Q]; apply N.eqb_eq in Q; auto.
Qed.

(** [float] reads no text of commas and points. *)
Lemma of_str_no_digit (w : pystr) :
  Forall (fun c => c = 44%N \/ c = 46%N) w ->
  PyFloat.of_str w = Py.Raise Py.ValueError.
Proof.
  intros H. unfold PyFloat.of_str.
  assert (S : strip w = w).
  { apply strip_fixed.
    - destruct w as [|c w]; [exact I|]. apply Forall_inv in H.
      destruct H; subst c; reflexivity.
    - destruct (rev w) as [|c r] eqn:E; [exact I|].
      assert (Hc : In c w) by (apply in_rev; rewrite E; now left).
      rewrite Forall_forall in H. destruct (H c Hc); subst c; reflexivity. }
  rewrite S. destruct w as [|c w]; [reflexivity|].
  assert (Hc := Forall_inv H). apply Forall_inv_tail in H.
  destruct Hc; subst c; [reflexivity|].
  cbn [PyFloat.read_digits decimal_value]. cbv beta iota.
  destruct w as [|d w]; [reflexivity|].
  assert (Hd := Forall_inv H). destruct Hd; subst d; reflexivity.
Qed.

Lemma currency_of_match_no_digit (p : pattern) (value : pystr) (m : match_obj) :
  number_pattern p = true ->
  (forall c, In c value -> ascii_digit c = false) ->
  search p value = Some m ->
  currency_of_match value m = None.
Proof.
  intros Hp Hv H.
  destruct (group_without_digit p value m Hp Hv H) as [w [Hw Q]].
  unfold currency_of_match. rewrite Hw. cbn [NormalizationService.fmt].
  rewrite replace_commas.
  rewrite (of_str_no_digit (filter (fun c => negb (44 =? c)%N) w)).
  - repeat match goal with
           | |- context [if ?b then _ else _] => destruct b
           end; reflexivity.
  - apply Forall_forall. intros c Hc. apply filter_In in Hc as [Hc _].
    rewrite Forall_forall in Q. now apply Q.
Qed.

Lemma normalize_currency_loop_no_digit (patterns : list pattern)
    (value : pystr) :
  forallb number_pattern patterns = true ->
  (forall c, In c value -> ascii_digit c = false) ->
  normalize_currency_loop patterns value = value.
Proof.
  intros Hp Hv. induction patterns as [|p more IH]; [reflexivity|].
  cbn [forallb] in Hp. apply andb_true_iff in Hp as [Hp Hmore].
  cbn [normalize_currency_loop].
  destruct (search p value) as [m|] eqn:E; [|now apply IH].
  rewrite (currency_of_match_no_digit p value m Hp Hv E). now apply IH.
Qed.

Lemma normalize_percentage_loop_no_digit (patterns : list pattern)
    (value : pystr) :
  forallb number_pattern patterns = true ->
  (forall c, In c value -> ascii_digit c = false) ->
  normalize_percentage_loop patterns value = value.
Proof.
  intros Hp Hv. induction patterns as [|p more IH]; [reflexivity|].
  cbn [forallb] in Hp. apply andb_true_iff in Hp as [Hp Hmore].
  cbn [normalize_percentage_loop].
  destruct (search p value) as [m|] eqn:E; [|now apply IH].
  destruct (group_without_digit p value m Hp Hv E) as [w [Hw Q]].
  rewrite Hw. cbn [NormalizationService.fmt].
  rewrite (of_str_no_digit w Q). now apply IH.
Qed.

(** X24.  A value without an ASCII digit is returned as it is by
    [_normalize_currency] and by [_normalize_percentage], also when a
    pattern is found in it: the text of the group is then commas and
    points, and the [ValueError] of [float] is passed over. *)
Theorem normalizers_need_a_digit (value : pystr) :
  (forall c, In c value -> ascii_digit c = false) ->
  normalize_currency value = value /\ normalize_percentage value = value.
Proof.
  intros Hv. destruct number_patterns as [H1 H2]. split.
  - now apply normalize_currency_loop_no_digit.
  - now apply normalize_percentage_loop_no_digit.
Qed.

Lemma normalizers_need_a_digit_witness :
  search (nth 1 compiled_currency_patterns NUMBER) (str "Rs , per month")
  <> None
  /\ normalize_currency (str "Rs , per month") = str "Rs , per month"
  /\ normalize_percentage (str "Rs , per month") = str "Rs , per month".
Proof.
  split; [vm_compute; discriminate|].
  apply (normalizers_need_a_digit (str "Rs , per month")).
  intros c Hc. vm_compute in Hc.
  repeat (destruct Hc as [<-|Hc]; [reflexivity|]). contradiction.
Defined.

(** ** Values without a digit: what the patterns find *)

(** A code point of ASCII that is no digit. *)
Definition plain_char (c : N) : bool := (c <? 128)%N && negb (ascii_digit c).

(** A text of ASCII code points without a digit. *)
Definition plain (s : pystr) : Prop := forallb plain_char s = true.

Definition has_digit (w : pystr) : Prop :=
  exists c, In c w /\ isdecimal c = true.

Definition digit_items (items : list item) : bool :=
  match items with
  | [IRange lo hi] => (lo =? 48)%N && (hi =? 57)%N
  | [IDigit] => true
  | _ => false
  end.

(** Every text the expression matches holds a digit. *)
Fixpoint needs_digit (r : re) : bool :=
  match r with
  | CharSet negated items => negb negated && digit_items items
  | Cat a b => needs_digit a || needs_digit b
  | Alt a b => needs_digit a && needs_digit b
  | Rep lo _ _ a => Nat.ltb 0 lo && needs_digit a
  | Grp _ a => needs_digit a
  | _ => false
  end.

Lemma digit_items_decimal (ic : bool) (items : list item) (x : N) :
  digit_items items = true -> set_match ic false items x = true ->
  isdecimal x = true.
Proof.
  unfold digit_items, set_match. intros Hi Hx.
  destruct items as [|[c|lo hi| | |] items]; try discriminate;
    destruct items; try discriminate; cbn [existsb item_match xorb] in Hx;
    rewrite orb_false_r in Hx; [|exact Hx].
  apply andb_true_iff in Hi as [E1 E2]. apply N.eqb_eq in E1, E2. subst lo hi.
  apply ascii_isdecimal. unfold ascii_digit.
  apply orb_true_iff in Hx as [Hx|Hx]; [exact Hx|].
  apply andb_true_iff in Hx as [_ Hx].
  apply orb_true_iff in Hx as [Hx|Hx].
  - now apply fold_case_digit.
  - now apply fold_case_digit, ascii_upper_digit.
Qed.

Lemma has_digit_app_l (a b : pystr) : has_digit a -> has_digit (a ++ b).
Proof. intros [c [H1 H2]]. exists c. split; [apply in_or_app; now left|exact H2]. Qed.

Lemma has_digit_app_r (a b : pystr) : has_digit b -> has_digit (a ++ b).
Proof. intros [c [H1 H2]]. exists c. split; [apply in_or_app; now right|exact H2]. Qed.

Lemma needs_digit_sound (ic : bool) (r : re) :
  needs_digit r = true ->
  forall a b, sem ic r a b -> exists w, consumed w a b /\ has_digit w.
Proof.
  induction r as [| c | | negated items | | | | r1 IH1 r2 IH2 | r1 IH1 r2 IH2
                  | lo hi greedy r1 IH1 | j r1 IH1];
    intros Hr a b H; cbn [needs_digit] in Hr; try discriminate;
    cbn [sem] in H.
  - apply andb_true_iff in Hr as [Hn Hi]. destruct negated; [discriminate|].
    destruct H as [x [H [Hx _]]]. exists [x]. split.
    + destruct a, b. now apply step_consumed.
    + exists x. split; [now left|]. now apply (digit_items_decimal ic items).
  - destruct H as [m [H1 H2]]. apply orb_true_iff in Hr as [Hr|Hr].
    + destruct (IH1 Hr a m H1) as [w1 [C1 D1]].
      destruct (sem_consumed ic r2 m b H2) as [w2 C2].
      exists (w1 ++ w2). split; [now apply consumed_trans with m|].
      now apply has_digit_app_l.
    + destruct (sem_consumed ic r1 a m H1) as [w1 C1].
      destruct (IH2 Hr m b H2) as [w2 [C2 D2]].
      exists (w1 ++ w2). split; [now apply consumed_trans with m|].
      now apply has_digit_app_r.
  - apply andb_true_iff in Hr as [Hr1 Hr2]. destruct H as [H|H]; eauto.
  - apply andb_true_iff in Hr as [Hlo Hr]. apply Nat.ltb_lt in Hlo.
    destruct H as [n [Hn [_ H]]]. destruct n as [|n]; [lia|].
    cbn [power] in H. destruct H as [m [H1 H2]].
    destruct (IH1 Hr a m H1) as [w1 [C1 D1]].
    destruct (power_consumed (sem ic r1) (sem_consumed ic r1) n m b H2)
      as [w2 C2].
    exists (w1 ++ w2). split; [now apply consumed_trans with m|].
    now apply has_digit_app_l.
  - destruct H as [cs [H _]].
    destruct (IH1 Hr a (fst b, cs) H) as [w [C D]].
    exists w. split; [exact C|exact D].
Qed.

(** A match of such a pattern shows a digit in the text. *)
Lemma match_here_needs_digit (p : pattern) (text : pystr) (n : nat)
    (pv : option N) (m : match_obj) :
  needs_digit (p_re p) = true ->
  match_here p (mkState n pv (skipn n text)) = Some m ->
  has_digit text.
Proof.
  intros Hp H. unfold match_here in H.
  destruct (run _ _ _ _ _) as [[st' cs]|] eqn:E; [|discriminate].
  apply run_sound in E as [[bs bc] [Hsem _]].
  destruct (needs_digit_sound _ _ Hp _ _ Hsem) as [w [Hc [c [Hin Hd]]]].
  assert (Ha : anchored text (mkState n pv (skipn n text), [])) by reflexivity.
  destruct (consumed_anchored text w _ _ Ha Hc) as [_ Hs].
  exists c. split; [|exact Hd]. rewrite <- Hs in Hin.
  now apply in_slice in Hin.
Qed.

Lemma decimal_zeros_ascii :
  forallb (fun z => (z =? 48)%N || (128 <=? z)%N) decimal_zeros = true.
Proof. vm_compute. reflexivity. Qed.

Lemma plain_char_no_digit (c : N) :
  plain_char c = true -> isdecimal c = false.
Proof.
  unfold plain_char. rewrite andb_true_iff, negb_true_iff, N.ltb_lt.
  intros [Hc Hd]. unfold isdecimal, decimal_value.
  destruct (find (fun z => in_range c z (z + 9)) decimal_zeros) as [z|] eqn:F;
    [|reflexivity].
  apply find_some in F as [Hin Hz]. apply in_range_iff in Hz.
  pose proof (proj1 (forallb_forall _ _) decimal_zeros_ascii z Hin) as Hk.
  apply orb_true_iff in Hk as [Hk|Hk].
  - apply N.eqb_eq in Hk. subst z. unfold ascii_digit in Hd.
    assert (T : in_range c 48 57 = true) by (apply in_range_iff; lia).
    congruence.
  - apply N.leb_le in Hk. lia.
Qed.

Lemma plain_no_digit (s : pystr) : plain s -> ~ has_digit s.
Proof.
  intros Hs [c [Hin Hd]]. unfold plain in Hs. rewrite forallb_forall in Hs.
  rewrite (plain_char_no_digit c (Hs c Hin)) in Hd. discriminate.
Qed.



Lemma search_plain (p : pattern) (s : pystr) :
  needs_digit (p_re p) = true -> plain s -> search p s = None.
Proof.
  intros Hp Hs. destruct (search p s) as [m|] eqn:E; [|reflexivity].
  exfalso. apply (plain_no_digit s Hs). unfold search in E.
  apply search_at_match in E as [k [pv E]]. cbn [Nat.add] in E.
  now apply (match_here_needs_digit p s k pv m).
Qed.



(** ** Text values: runs of white space *)

(** Runs of white space made one space; [in_run] says that the code point
    before was white space. *)
Fixpoint tidy_spaces (in_run : bool) (s : pystr) : pystr :=
  match s with
  | [] => []
  | c :: s' =>
      if isspace c
      then (if in_run then tidy_spaces true s' else 32%N :: tidy_spaces true s')
      else c :: tidy_spaces false s'
  end.
















(** ** Text values: sentences *)

Definition stop : pystr := [46%N; 32%N].





Lemma not_at_app (f : N -> bool) (a b : pystr) :
  not_at f (a ++ b) -> a <> [] -> not_at f a.
Proof. destruct a; [contradiction|trivial]. Qed.









(** ** Text values: capital letters *)


Definition up (c : N) : N := if in_range c 97 122 then (c - 32)%N else c.
Definition low (c : N) : N := if in_range c 65 90 then (c + 32)%N else c.















Lemma low_up (c : N) : low (up c) = low c.
Proof.
  unfold low, up. destruct (in_range c 97 122) eqn:E.
  - apply in_range_iff in E.
    assert (F : in_range (c - 32) 65 90 = true) by (apply in_range_iff; lia).
    assert (G : in_range c 65 90 = false).
    { unfold in_range. apply andb_false_iff. right. apply N.leb_gt. lia. }
    rewrite F, G. lia.
  - reflexivity.
Qed.











(** ** Text values: [_normalize_text] a second time *)

Definition filled (x : pystr) : bool := negb (PyStr.eqb x []).


(** The sentences [_normalize_text] puts in capitals and joins. *)
Definition sentences (s : pystr) : list pystr :=
  filter filled (split (strip (tidy_spaces false s)) stop).






















(** ** Values: where normalization is idempotent *)











(** The other normalizers fail on numbers as well.  A number with three
    decimals is rounded to two, and the result, now a whole number, is
    written without decimals the second time; a percentage of seventeen
    digits is written with an exponent, of which the second pass reads
    the last digits; a text that is a currency amount once its empty
    sentence is dropped is made an amount the second time. *)
Example numbers_not_idempotent :
  normalize_value (str "2.999") (str "eligibility.experience") = str "3.00"
  /\ normalize_value (str "3.00") (str "eligibility.experience") = str "3"
  /\ normalize_value (str "10000000000000000%") (str "interest_rates.margin")
     = str "1e+16%"
  /\ normalize_value (str "1e+16%") (str "interest_rates.margin")
     = str "16.0%"
  /\ normalize_value (str "Rs. . 5") (str "documents.note") = str "Rs. 5"
  /\ normalize_value (str "Rs. 5") (str "documents.note") = str "INR 5".
Proof. vm_compute. repeat split. Qed.

(** ** [extract] raises nothing *)

(** The group [name] of the pattern is set in every match. *)
Definition set_by (p : pattern) (name : string) : bool :=
  match name_lookup (str name) (p_names p) with
  | Some i => mandatory i (p_re p)
  | None => false
  end.

(** The branch of [extract] a pattern takes asks for no group that a
    match can leave unset. *)
Definition safe (key : pystr) (p : pattern) : bool :=
  let has name := has_group p (str name) in
  if PyStr.eqb key (str "loan_amount_and_ltv.ltv_tier") && has "pct" && has "amt"
  then true
  else if has "pct" && has "pct2" then true
  else if has "pct" then true
  else if has "amt" then set_by p "amt"
  else if has "freq" then set_by p "freq"
  else if has "years" then true
  else if has "bench" then set_by p "bench"
  else if has "bank" then set_by p "bank"
  else if has "score" then set_by p "score"
  else if has "min_age" then true
  else if has "max_age" then true
  else if has "min_years" && has "max_years" then true
  else if has "value" then set_by p "value"
  else if has "method" then set_by p "method"
  else if has "methods" then set_by p "methods"
  else if has "docs" then set_by p "docs"
  else if has "contact" then set_by p "contact"
  else if has "process" then set_by p "process"
  else if has "date" then set_by p "date"
  else true.

Lemma catalog_safe :
  forallb (fun e => forallb (safe (fst e)) (snd e)) PATTERNS = true.
Proof. vm_compute. reflexivity. Qed.

Lemma set_by_group (p : pattern) (name : string) (text : pystr)
    (m : match_obj) :
  set_by p name = true -> search p text = Some m ->
  exists w, group_named p text m (str name) = Some w.
Proof.
  unfold set_by, group_named. intros Hs H.
  destruct (name_lookup (str name) (p_names p)) as [i|]; [|discriminate].
  unfold search in H. apply search_at_match in H as [k [pv H]].
  exact (match_here_mandatory p i text _ m Hs H).
Qed.

Lemma value_of_match_safe (key : pystr) (p : pattern) (text : pystr)
    (m : match_obj) :
  safe key p = true -> search p text = Some m ->
  exists value, value_of_match key p text m = Py.Ok (Some value).
Proof.
  intros Hs H. unfold safe in Hs. unfold value_of_match.
  cbv zeta beta in Hs |- *.
  repeat
    (match goal with
     | Hs : (if ?b then _ else _) = true |- context [if ?b then _ else _] =>
         destruct b; cbv iota in Hs |- *
     | |- context [if ?b then _ else _] => destruct b; cbv iota
     end;
     try (eexists; reflexivity);
     try (match type of Hs with
          | set_by p ?name = true =>
              destruct (set_by_group p name text m Hs H) as [w Hw];
              rewrite Hw; cbn [on_group]; eexists; reflexivity
          end)).
Qed.

Lemma first_match_returns (key : pystr) (patterns : list pattern)
    (text : pystr) (filename : option pystr) :
  forallb (safe key) patterns = true ->
  exists facts, first_match key patterns text filename = Py.Ok facts.
Proof.
  induction patterns as [|pat more IH]; cbn [forallb first_match]; intros Hs.
  - eauto.
  - apply andb_true_iff in Hs as [Hp Hmore].
    destruct (search pat text) as [m|] eqn:E; [|now apply IH].
    unfold fact_of_match.
    destruct (value_of_match_safe key pat text m Hp E) as [value Hv].
    rewrite Hv. cbn [Py.bind]. eauto.
Qed.

Lemma scan_returns (items : Dict.dict (list pattern)) (text : pystr)
    (filename : option pystr) :
  forallb (fun e => forallb (safe (fst e)) (snd e)) items = true ->
  exists facts, scan items text filename = Py.Ok facts.
Proof.
  induction items as [|[key patterns] more IH]; cbn [forallb scan fst snd];
    intros Hs.
  - eauto.
  - apply andb_true_iff in Hs as [Hp Hmore].
    destruct (first_match_returns key patterns text filename Hp)
      as [here Hhere].
    destruct (IH Hmore) as [there Hthere].
    rewrite Hhere, Hthere. cbn [Py.bind]. eauto.
Qed.

Lemma extract_with_returns (patterns : Dict.dict (list pattern))
    (text : pystr) (filename : option pystr) :
  forallb (fun e => forallb (safe (fst e)) (snd e)) patterns = true ->
  exists facts, extract_with patterns text filename = Py.Ok facts.
Proof.
  intros Hs. unfold extract_with. destruct text as [|c text]; [eauto|].
  destruct (scan_returns patterns (c :: text) filename Hs) as [facts Hf].
  rewrite Hf. cbn [Py.bind]. eauto.
Qed.

(** X25.  [extract] raises nothing, whatever the text: in every pattern
    of the catalog, the group the value of the fact is read from is set
    in every match, so that no [strip], [upper] or [title] meets [None]
    and no fact is built with the value [None]. *)
Theorem extract_never_raises (text : pystr) (filename : option pystr) :
  exists facts, extract text filename = Py.Ok facts.
Proof. exact (extract_with_returns PATTERNS text filename catalog_safe). Qed.

(** ** Smart extraction without an answer from the LLM *)

(** Rule-only extraction, as [process_document] does it in the mode
    [rule]: [extract], then [normalize_facts]. *)
Definition rule_only (text filename : pystr)
    : Py.result (list ExtractedFact) :=
  Py.bind (extract text (Some filename)) (fun rule_facts =>
  Py.Ok (normalize_facts rule_facts)).

(** X26.  Smart extraction raises nothing.  Without an LLM service, or
    when the call of the LLM raises, it returns the facts of rule-only
    extraction. *)
Theorem smart_extraction_falls_back (llm_service : bool)
    (llm_answer : Py.result (list ExtractedFact)) (text filename : pystr) :
  (exists facts,
      extract_facts_smart llm_service true llm_answer text filename
      = Py.Ok facts)
  /\ extract_facts_smart false true llm_answer text filename
     = rule_only text filename
  /\ forall e,
       extract_facts_smart true true (Py.Raise e) text filename
       = rule_only text filename.
Proof.
  unfold extract_facts_smart, rule_only, extract.
  destruct (extract_with_returns PATTERNS text (Some filename) catalog_safe)
    as [rule_facts E].
  rewrite E. cbn [Py.bind]. split; [eauto|]. split.
  - cbn [andb]. now rewrite app_nil_r.
  - intros e. unfold extract_missing_with_llm.
    destruct (analyze_gaps rule_facts); cbn [andb];
      [|destruct (has_missing_sections _)]; now rewrite app_nil_r.
Qed.
